(** * Leveling Guide Generator: the client side of the ingestion pipeline

    A shallow embedding of [frontend/src/api.ts] (the polling client) and of
    the React components [ResultsView], [UploadForm], [Dashboard] and
    [LoginPage] with the [AuthContext] provider, with the properties the
    specification states about them. JavaScript values are modelled as
    follows: a [string] is a [string]; a field that may be [null] or
    [undefined] is an [option]; a [number] used as an array index is a [Z]; a
    [Promise] is the [result] it settles with; a callback is a function that
    returns or throws at each call; the network is a parameter that answers
    each request. *)

From stdpp Require Import base option list strings gmap.
From Stdlib Require Import ZArith Ascii.

Local Open Scope string_scope.
Local Open Scope list_scope.

(** ** JavaScript runtime values *)

(** A thrown value. [Error] is [new Error(message)]; [TypeError] is what
    reading a property of [undefined] raises. *)
Inductive exn : Type :=
| Error (message : string)
| TypeError (message : string).

(** The completion of an (awaited) call: a value, or a thrown error. *)
Inductive result (A : Type) : Type :=
| Ok (value : A)
| Throw (error : exn).
Arguments Ok {A} value.
Arguments Throw {A} error.

#[global] Instance exn_eq_dec : EqDecision exn.
Proof. solve_decision. Defined.

(** [x || d] on a possibly missing string: [undefined], [null] and the empty
    string are falsy. *)
Definition js_or (x : option string) (d : string) : string :=
  match x with
  | Some s => if decide (s = EmptyString) then d else s
  | None => d
  end.

(** What [fetch] resolves with: the [ok] flag and the JSON body. *)
Record Response (B : Type) : Type := mkResponse { ok : bool; json : B }.
Arguments mkResponse {B} ok json.
Arguments ok {B} r.
Arguments json {B} r.

(** ** The types of api.ts *)

Module Example.
Record t : Type := mk {
  id : string; company_id : string; role_id : string; level_id : string;
  competency_id : string; content : string; is_active : bool;
  created_at : string; updated_at : string }.
End Example.

Module Level.
Record t : Type := mk {
  id : string; company_id : string; role_id : string; name : string;
  order_idx : Z; is_active : bool; created_at : string; updated_at : string }.
End Level.

Module Competency.
Record t : Type := mk {
  id : string; company_id : string; role_id : string; name : string;
  order_idx : Z; is_active : bool; created_at : string; updated_at : string }.
End Competency.

Module DefinitionWithExamples.
Record t : Type := mk {
  id : string; level_id : string; level_name : string;
  competency_id : string; competency_name : string;
  definition : string; examples : list Example.t }.
End DefinitionWithExamples.

Module Role.
Record t : Type := mk {
  id : string; company_id : string; name : string; is_active : bool;
  created_at : string; updated_at : string }.
End Role.

Module RoleDetail.
Record t : Type := mk {
  id : string; company_id : string; name : string; is_active : bool;
  created_at : string; updated_at : string;
  levels : list Level.t; competencies : list Competency.t;
  definitions : list DefinitionWithExamples.t }.
End RoleDetail.

(** ['processing' | 'completed' | 'failed'] *)
Inductive Status : Type := processing | completed | failed.

#[global] Instance Status_eq_dec : EqDecision Status.
Proof. solve_decision. Defined.

Module ProcessingStatus.
(** [role_id] is declared [string], but [waitForRole] reads it as
    [status.role_id || roleId], so a missing one is representable;
    [message] is declared optional. *)
Record t : Type := mk {
  role_id : option string; status : Status; message : option string }.
End ProcessingStatus.

Inductive NudgeStatus : Type := pending | fulfilled | dismissed.

#[global] Instance NudgeStatus_eq_dec : EqDecision NudgeStatus.
Proof. solve_decision. Defined.

Module Nudge.
Record t : Type := mk {
  id : string; employee_id : string; company_id : string;
  role_name : string; level_name : option string; status : NudgeStatus;
  is_active : bool; created_at : string; updated_at : string;
  employee_name : option string }.
End Nudge.

Module RoleExistsCheck.
Record t : Type := mk {
  exists_ : bool; role_id : option string; created_at : option string }.
End RoleExistsCheck.

(** ** api.ts: the request helpers

    Each helper awaits [fetch], throws a fixed [Error] when the response is
    not [ok], and returns the JSON body otherwise. The argument is what
    [fetch] completed with. *)

Definition from_response {B : Type} (failure : string)
    (fetched : result (Response B)) : result B :=
  match fetched with
  | Throw e => Throw e
  | Ok response => if ok response then Ok (json response) else Throw (Error failure)
  end.

Definition checkRoleExists := from_response (B := RoleExistsCheck.t) "Failed to check role".
Definition getRoleStatus := from_response (B := ProcessingStatus.t) "Failed to get role status".
Definition getRole := from_response (B := RoleDetail.t) "Failed to get role".
Definition getRoles := from_response (B := list Role.t) "Failed to get roles".
Definition getNudges := from_response (B := list Nudge.t) "Failed to get requests".
Definition updateNudge := from_response (B := Nudge.t) "Failed to update request".

(** ** api.ts: waitForRole *)

(** How the promise returned by [waitForRole] settles. *)
Inductive Outcome : Type :=
| Resolved (role : RoleDetail.t)
| Rejected (error : exn).

(** What one run of the polling loop does, in order. *)
Inductive Effect : Type :=
| StatusPolled (roleId : string) (answer : result ProcessingStatus.t)
| StatusChanged (status : Status)
| RoleFetched (roleId : string) (answer : result RoleDetail.t)
| TimeoutSet (ms : nat)
| Settled (outcome : Outcome).

(** The optional callback [onStatusChange]. It is a JavaScript function: a
    call of it returns (its value is not used) or throws, and what it does
    may differ from one call to the next. [callback k s] is what the call
    made by the [k]-th poll, with status [s], completes with. *)
Definition Callback : Type := nat → Status → result unit.

Section WaitForRole.
(** The network: what the [k]-th request to [/roles/{id}/status] and a
    request to [/roles/{id}] complete with. *)
Variable status_endpoint : string → nat → result (Response ProcessingStatus.t).
Variable role_endpoint : string → result (Response RoleDetail.t).

Variable roleId : string.
Variable onStatusChange : option Callback.
Variable pollInterval : nat.

(** [onStatusChange?.(status.status)] in the [k]-th poll: the call, when a
    callback was passed, and what it completes with. *)
Definition notify (k : nat) (s : Status) : list Effect * result unit :=
  match onStatusChange with
  | Some callback => ([StatusChanged s], callback k s)
  | None => ([], Ok tt)
  end.

(** One invocation of the inner [poll], the [k]-th one: the effects it
    performs and either the settlement of the promise or [None] when it
    has re-armed the timer. The whole body is inside [try]: an error of the
    status request, of the callback or of the grid request reaches the
    [catch], which rejects. *)
Definition poll_once (k : nat) : list Effect * option Outcome :=
  let answer := getRoleStatus (status_endpoint roleId k) in
  match answer with
  | Throw error =>
      ([StatusPolled roleId answer; Settled (Rejected error)], Some (Rejected error))
  | Ok status =>
      let '(called, returned) := notify k (ProcessingStatus.status status) in
      let seen := StatusPolled roleId answer :: called in
      match returned with
      | Throw error => (seen ++ [Settled (Rejected error)], Some (Rejected error))
      | Ok _ =>
          match ProcessingStatus.status status with
          | completed =>
              let finalRoleId := js_or (ProcessingStatus.role_id status) roleId in
              let fetched := getRole (role_endpoint finalRoleId) in
              match fetched with
              | Ok role =>
                  (seen ++ [RoleFetched finalRoleId fetched; Settled (Resolved role)],
                   Some (Resolved role))
              | Throw error =>
                  (seen ++ [RoleFetched finalRoleId fetched; Settled (Rejected error)],
                   Some (Rejected error))
              end
          | failed =>
              let error :=
                Error (js_or (ProcessingStatus.message status) "Role processing failed") in
              (seen ++ [Settled (Rejected error)], Some (Rejected error))
          | processing =>
              (seen ++ [TimeoutSet pollInterval], None)
          end
      end
  end.

(** The loop [poll(); ... setTimeout(poll, pollInterval)], observed for
    [fuel] invocations of [poll], starting with the [k]-th. *)
Fixpoint poll (fuel : nat) (k : nat) : list Effect * option Outcome :=
  match fuel with
  | O => ([], None)
  | S fuel' =>
      match poll_once k with
      | (effects, Some outcome) => (effects, Some outcome)
      | (effects, None) =>
          let '(later, outcome) := poll fuel' (S k) in (effects ++ later, outcome)
      end
  end.
End WaitForRole.

(** [waitForRole(roleId, onStatusChange?, pollInterval = 2000)]. *)
Definition waitForRole status_endpoint role_endpoint
    (roleId : string) (onStatusChange : option Callback) (pollInterval : option nat)
    (fuel : nat) : list Effect * option Outcome :=
  poll status_endpoint role_endpoint roleId onStatusChange
       (default 2000 pollInterval) fuel 0.

(** ** components/ResultsView.tsx *)

(** [arr[i]] for a numeric index: [undefined] outside the array. *)
Definition js_index {A : Type} (arr : list A) (i : Z) : option A :=
  if decide (0 ≤ i)%Z then arr !! Z.to_nat i else None.

(** [arr.length] as a number. *)
Definition js_length {A : Type} (arr : list A) : Z := Z.of_nat (length arr).

Module ResultsView.

Record ModalData : Type := mkModalData {
  definition : DefinitionWithExamples.t;
  levelName : string;
  competencyName : string;
  levelIdx : Z;
  compIdx : Z }.

(** The component's state once [getRole] has answered. *)
Record State : Type := mkState {
  role : option RoleDetail.t;
  loading : bool;
  error : option string;
  modalData : option ModalData;
  compareMode : bool }.

Inductive direction : Type := prev | next.

Definition openModal (definition : DefinitionWithExamples.t)
    (levelName competencyName : string) (levelIdx compIdx : Z)
    (st : State) : State :=
  mkState (role st) (loading st) (error st)
    (Some (mkModalData definition levelName competencyName levelIdx compIdx))
    false.

Definition closeModal (st : State) : State :=
  mkState (role st) (loading st) (error st) None false.

(** The indices [navigateModal] computes before it looks anything up. *)
Definition navigate_target (d : direction) (levels competencies : Z)
    (levelIdx compIdx : Z) : Z * Z :=
  match d with
  | next =>
      let newLevelIdx := (levelIdx + 1)%Z in
      if (newLevelIdx >=? levels)%Z then
        let newCompIdx := (compIdx + 1)%Z in
        if (newCompIdx >=? competencies)%Z then (0, 0)%Z else (0%Z, newCompIdx)
      else (newLevelIdx, compIdx)
  | prev =>
      let newLevelIdx := (levelIdx - 1)%Z in
      if (newLevelIdx <? 0)%Z then
        let newCompIdx := (compIdx - 1)%Z in
        if (newCompIdx <? 0)%Z then ((levels - 1)%Z, (competencies - 1)%Z)
        else ((levels - 1)%Z, newCompIdx)
      else (newLevelIdx, compIdx)
  end.

(** [role.definitions.find(d => d.level_id === newLevel.id &&
    d.competency_id === newComp.id)], where [newLevel] and [newComp] may be
    [undefined]: reading [.id] of [undefined] throws, and [&&] reads
    [newComp.id] only after the level matched. *)
Fixpoint find_definition (definitions : list DefinitionWithExamples.t)
    (newLevel : option Level.t) (newComp : option Competency.t)
    : result (option DefinitionWithExamples.t) :=
  match definitions with
  | [] => Ok None
  | d :: rest =>
      match newLevel with
      | None => Throw (TypeError "Cannot read properties of undefined (reading 'id')")
      | Some level =>
          if decide (DefinitionWithExamples.level_id d = Level.id level) then
            match newComp with
            | None => Throw (TypeError "Cannot read properties of undefined (reading 'id')")
            | Some comp =>
                if decide (DefinitionWithExamples.competency_id d = Competency.id comp)
                then Ok (Some d)
                else find_definition rest newLevel newComp
            end
          else find_definition rest newLevel newComp
      end
  end.

Definition navigateModal (d : direction) (st : State) : result State :=
  match modalData st, role st with
  | Some md, Some r =>
      let '(newLevelIdx, newCompIdx) :=
        navigate_target d (js_length (RoleDetail.levels r))
          (js_length (RoleDetail.competencies r)) (levelIdx md) (compIdx md) in
      let newLevel := js_index (RoleDetail.levels r) newLevelIdx in
      let newComp := js_index (RoleDetail.competencies r) newCompIdx in
      match find_definition (RoleDetail.definitions r) newLevel newComp with
      | Throw e => Throw e
      | Ok None => Ok st
      | Ok (Some newDef) =>
          match newLevel, newComp with
          | Some level, Some comp =>
              Ok (mkState (role st) (loading st) (error st)
                    (Some (mkModalData newDef (Level.name level) (Competency.name comp)
                             newLevelIdx newCompIdx))
                    false)
          | _, _ => Throw (TypeError "Cannot read properties of undefined (reading 'name')")
          end
      end
  | _, _ => Ok st
  end.

(** The key of [definitionMap]: [`${level_id}-${competency_id}`]. *)
Definition definition_key (level_id competency_id : string) : string :=
  level_id +:+ "-" +:+ competency_id.

(** [definitionMap]: [forEach] with [Map.set], so a later definition
    replaces an earlier one under the same key. *)
Definition definitionMap (definitions : list DefinitionWithExamples.t)
    : gmap string DefinitionWithExamples.t :=
  foldl (λ m def,
           <[definition_key (DefinitionWithExamples.level_id def)
                            (DefinitionWithExamples.competency_id def) := def]> m)
        ∅ definitions.

(** What one [grid-cell] shows: the requirement with, when there are
    examples, the [cell-expand-hint] "n examples"; or the [no-data] span.
    [on_click] is the modal the click opens, if any. *)
Inductive CellContent : Type :=
| cell_requirement (text : string) (cell_expand_hint : option nat)
| no_data.

Record GridCell : Type := mkGridCell {
  key : string;
  content : CellContent;
  on_click : option ModalData }.

Definition render_cell (dmap : gmap string DefinitionWithExamples.t)
    (compIdx : nat) (comp : Competency.t) (levelIdx : nat) (level : Level.t)
    : GridCell :=
  let k := definition_key (Level.id level) (Competency.id comp) in
  match dmap !! k with
  | Some definition =>
      let n := length (DefinitionWithExamples.examples definition) in
      mkGridCell k
        (cell_requirement (DefinitionWithExamples.definition definition)
           (if decide (0 < n) then Some n else None))
        (Some (mkModalData definition (Level.name level) (Competency.name comp)
                 (Z.of_nat levelIdx) (Z.of_nat compIdx)))
  | None => mkGridCell k no_data None
  end.

Record GridRow : Type := mkGridRow {
  grid_competency_label : string;
  cells : list GridCell }.

(** The data rows: one per competency, one cell per level. *)
Definition render_grid (r : RoleDetail.t) : list GridRow :=
  let dmap := definitionMap (RoleDetail.definitions r) in
  imap (λ compIdx comp,
          mkGridRow (Competency.name comp)
            (imap (λ levelIdx level, render_cell dmap compIdx comp levelIdx level)
                  (RoleDetail.levels r)))
       (RoleDetail.competencies r).

(** The cell drawn for a competency index and a level index. *)
Definition grid_cell_at (r : RoleDetail.t) (compIdx levelIdx : nat) : option GridCell :=
  row ← render_grid r !! compIdx; cells row !! levelIdx.

(** What the user can do on the loaded page. The compare button is drawn
    only when the next level has a definition; [SetCompareMode] is allowed
    whenever the modal is open, which only adds reachable states. *)
Inductive Event : Type :=
| ClickCell (compIdx levelIdx : nat)
| Navigate (d : direction)
| CloseModal
| SetCompareMode (on : bool).

Definition step (st : State) (ev : Event) : result State :=
  match ev with
  | ClickCell row column =>
      match role st with
      | Some r =>
          match grid_cell_at r row column with
          | Some cell =>
              match on_click cell with
              | Some md =>
                  Ok (openModal (definition md) (levelName md) (competencyName md)
                        (levelIdx md) (compIdx md) st)
              | None => Ok st
              end
          | None => Ok st
          end
      | None => Ok st
      end
  | Navigate d =>
      (* the Previous and Next buttons are drawn in single view only *)
      if compareMode st then Ok st else navigateModal d st
  | CloseModal => Ok (closeModal st)
  | SetCompareMode on =>
      match modalData st with
      | Some _ => Ok (mkState (role st) (loading st) (error st) (modalData st) on)
      | None => Ok st
      end
  end.

Fixpoint run (st : State) (evs : list Event) : result State :=
  match evs with
  | [] => Ok st
  | ev :: rest =>
      match step st ev with
      | Ok st' => run st' rest
      | Throw e => Throw e
      end
  end.

(** The state after [getRole] resolved with [r]. *)
Definition loaded (r : RoleDetail.t) : State :=
  mkState (Some r) false None None false.

End ResultsView.

(** ** The backend behind the endpoints

    The FastAPI backend is not part of the sources at hand; what the client
    relies on is written down from the specification. *)

Module Backend.

(** Modelled from the spec: the persisted Role of section 3 (the backend
    table is missing from the sources): the Role the API returns, its
    processing status and, when [failed], the diagnostic message. A store is
    the table of one company, oldest Role first. *)
Record RoleRow : Type := mkRoleRow {
  row : Role.t;
  status : Status;
  message : option string }.

Definition terminal (s : Status) : bool :=
  match s with
  | processing => false
  | completed | failed => true
  end.

(** Modelled from the spec: the monotonic transition function of sections
    4.5 and 9 (the orchestrator is missing from the sources):
    [processing → completed | failed], and a terminal state is kept. *)
Definition transition (current requested : Status) : Status :=
  match current with
  | processing => requested
  | completed | failed => current
  end.

Definition write_row (requested : Status) (msg : option string) (r : RoleRow) : RoleRow :=
  mkRoleRow (row r) (transition (status r) requested)
            (if terminal (status r) then message r else msg).

(** Modelled from the spec: the single status-field update of section 6,
    addressed by Role identifier. *)
Definition write_status (role_id : string) (requested : Status)
    (msg : option string) (store : list RoleRow) : list RoleRow :=
  (λ r, if decide (Role.id (row r) = role_id) then write_row requested msg r else r)
    <$> store.

Definition deactivate (r : RoleRow) : RoleRow :=
  let old := row r in
  mkRoleRow
    (Role.mk (Role.id old) (Role.company_id old) (Role.name old) false
             (Role.created_at old) (Role.updated_at old))
    (status r) (message r).

(** Modelled from the spec: submit guide (sections 4.5 and 6; the upload
    endpoint is missing from the sources): the prior active Role of that
    name is deactivated and a fresh Role is created in state
    [processing]. The new identifier and the time come from outside. *)
Definition submit_guide (new_id now company_id role_name : string)
    (store : list RoleRow) : list RoleRow :=
  ((λ r, if decide (Role.is_active (row r) = true ∧ Role.name (row r) = role_name)
         then deactivate r else r) <$> store)
  ++ [mkRoleRow (Role.mk new_id company_id role_name true now now) processing None].

Definition find_active (role_name : string) (store : list RoleRow) : option RoleRow :=
  List.find (λ r, bool_decide (Role.is_active (row r) = true ∧ Role.name (row r) = role_name))
            store.

(** Modelled from the spec: check existence (section 6; the endpoint is
    missing from the sources): whether an active Role of that name exists,
    and its creation time and identifier. *)
Definition roles_check (role_name : string) (store : list RoleRow) : RoleExistsCheck.t :=
  match find_active role_name store with
  | Some r =>
      RoleExistsCheck.mk true (Some (Role.id (row r))) (Some (Role.created_at (row r)))
  | None => RoleExistsCheck.mk false None None
  end.

(** The writes that reach the store. *)
Inductive Op : Type :=
| SubmitGuide (new_id now company_id role_name : string)
| WriteStatus (role_id : string) (requested : Status) (msg : option string).

Definition apply (store : list RoleRow) (op : Op) : list RoleRow :=
  match op with
  | SubmitGuide new_id now company_id role_name =>
      submit_guide new_id now company_id role_name store
  | WriteStatus role_id requested msg => write_status role_id requested msg store
  end.

Definition run (ops : list Op) (store : list RoleRow) : list RoleRow :=
  foldl apply store ops.

End Backend.

(** ** api.ts: createRole *)

(** What [POST /roles] answers: the created Role, or a response that is not
    [ok] whose body may carry a [detail]. *)
Inductive CreateRoleResponse : Type :=
| Created (role : Role.t)
| NotOk (detail : option string).

Definition createRole (fetched : result CreateRoleResponse) : result Role.t :=
  match fetched with
  | Throw e => Throw e
  | Ok (Created role) => Ok role
  | Ok (NotOk detail) => Throw (Error (js_or detail "Failed to create role"))
  end.

(** [err.message]; every thrown value of the model is an [Error]. *)
Definition exn_message (e : exn) : string :=
  match e with
  | Error message | TypeError message => message
  end.

(** ** components/UploadForm.tsx *)

Module UploadForm.

Module Status.
Inductive t : Type := idle | uploading | processing | error.
End Status.

Record File : Type := mkFile { name : string; size : N }.

Record State : Type := mkState {
  companyUrl : string;
  roleName : string;
  file : option File;
  status : Status.t;
  error : option string;
  showConfirmOverwrite : bool;
  existingRoleDate : option string;
  (** the route [navigate] was called with, if it was *)
  navigated : option string }.

(** The requests the form sends, in order. *)
Inductive Request : Type :=
| CheckRoleExists (roleName : string)
| CreateRole (file : option File) (companyUrl roleName : string)
| WaitForRole (roleId : string).

Record Network : Type := mkNetwork {
  check_endpoint : string → result (Response RoleExistsCheck.t);
  create_endpoint : option File → string → string → result CreateRoleResponse;
  status_endpoint : string → nat → result (Response ProcessingStatus.t);
  role_endpoint : string → result (Response RoleDetail.t) }.

(** The callback [doUpload] passes: [console.log('Role status:', newStatus)],
    which returns. *)
Definition log_status : Callback := λ _ _, Ok tt.

Section Handlers.
Variable net : Network.
(** How many polls of [waitForRole] are observed. *)
Variable fuel : nat.

Definition doUpload (st : State) : State * list Request :=
  let request := CreateRole (file st) (companyUrl st) (roleName st) in
  match createRole (create_endpoint net (file st) (companyUrl st) (roleName st)) with
  | Throw err =>
      (mkState (companyUrl st) (roleName st) (file st) Status.error
               (Some (exn_message err)) false (existingRoleDate st) (navigated st),
       [request])
  | Ok role =>
      let waited :=
        waitForRole (status_endpoint net) (role_endpoint net) (Role.id role)
                    (Some log_status) None fuel in
      match waited.2 with
      | None =>
          (mkState (companyUrl st) (roleName st) (file st) Status.processing
                   None false (existingRoleDate st) (navigated st),
           [request; WaitForRole (Role.id role)])
      | Some (Resolved completedRole) =>
          (mkState (companyUrl st) (roleName st) (file st) Status.processing
                   None false (existingRoleDate st)
                   (Some ("/role/" +:+ RoleDetail.id completedRole)),
           [request; WaitForRole (Role.id role)])
      | Some (Rejected err) =>
          (mkState (companyUrl st) (roleName st) (file st) Status.error
                   (Some (exn_message err)) false (existingRoleDate st) (navigated st),
           [request; WaitForRole (Role.id role)])
      end
  end.

Definition handleSubmit (st : State) : State * list Request :=
  if bool_decide (file st = None) || bool_decide (companyUrl st = EmptyString)
     || bool_decide (roleName st = EmptyString)
  then
    (mkState (companyUrl st) (roleName st) (file st) (status st)
             (Some "Please fill in all fields and upload a file")
             (showConfirmOverwrite st) (existingRoleDate st) (navigated st),
     [])
  else
    match checkRoleExists (check_endpoint net (roleName st)) with
    | Ok check =>
        if RoleExistsCheck.exists_ check then
          (mkState (companyUrl st) (roleName st) (file st) (status st) (error st)
                   true (RoleExistsCheck.created_at check) (navigated st),
           [CheckRoleExists (roleName st)])
        else
          let '(st', sent) := doUpload st in (st', CheckRoleExists (roleName st) :: sent)
    | Throw _ =>
        (* Continue anyway if check fails *)
        let '(st', sent) := doUpload st in (st', CheckRoleExists (roleName st) :: sent)
    end.

Definition onDrop (acceptedFiles : list File) (st : State) : State :=
  match acceptedFiles with
  | f :: _ =>
      mkState (companyUrl st) (roleName st) (Some f) (status st) None
              (showConfirmOverwrite st) (existingRoleDate st) (navigated st)
  | [] => st
  end.

(** What the user does with the form. *)
Inductive Event : Type :=
| Submit
| ConfirmReplace              (* "Yes, Replace It" *)
| CancelOverwrite             (* "Cancel" *)
| ChangeCompanyUrl (value : string)
| ChangeRoleName (value : string)
| Drop (acceptedFiles : list File).

Definition step (st : State) (ev : Event) : State * list Request :=
  match ev with
  | Submit => handleSubmit st
  | ConfirmReplace =>
      (* the button is drawn only while the prompt is shown *)
      if showConfirmOverwrite st then doUpload st else (st, [])
  | CancelOverwrite =>
      (mkState (companyUrl st) (roleName st) (file st) (status st) (error st)
               false (existingRoleDate st) (navigated st), [])
  | ChangeCompanyUrl value =>
      (mkState value (roleName st) (file st) (status st) (error st)
               (showConfirmOverwrite st) (existingRoleDate st) (navigated st), [])
  | ChangeRoleName value =>
      (mkState (companyUrl st) value (file st) (status st) (error st)
               (showConfirmOverwrite st) (existingRoleDate st) (navigated st), [])
  | Drop acceptedFiles => (onDrop acceptedFiles st, [])
  end.

Fixpoint run (st : State) (evs : list Event) : State * list Request :=
  match evs with
  | [] => (st, [])
  | ev :: rest =>
      let '(st', sent) := step st ev in
      let '(st'', later) := run st' rest in
      (st'', sent ++ later)
  end.
End Handlers.

(** The [confirm-overwrite] block: the role name of its heading and the
    date of "Created on ...". *)
Record ConfirmOverwrite : Type := mkConfirmOverwrite {
  about : string;
  created_on : string }.

Section Render.
(** [new Date(s).toLocaleDateString()] depends on the locale. *)
Variable toLocaleDateString : string → string.

Definition render_confirm_overwrite (st : State) : option ConfirmOverwrite :=
  if showConfirmOverwrite st then
    Some (mkConfirmOverwrite (roleName st)
            (match existingRoleDate st with
             | Some date => if decide (date = EmptyString) then "a previous date"
                            else toLocaleDateString date
             | None => "a previous date"
             end))
  else None.
End Render.

Definition is_upload (q : Request) : bool :=
  match q with
  | CreateRole _ _ _ => true
  | _ => false
  end.

End UploadForm.

(** ** components/Dashboard.tsx *)

Inductive UserRole : Type := manager | employee.

Module User.
Record t : Type := mk {
  id : string; email : string; name : string; role : UserRole;
  company_id : string; is_active : bool; created_at : string; updated_at : string }.
End User.

Module Company.
Record t : Type := mk {
  id : string; name : string; domain : option string; invite_code : string;
  is_active : bool; created_at : string; updated_at : string }.
End Company.

Module Dashboard.

(** What [useAuth] provides. *)
Record Auth : Type := mkAuth {
  user : option User.t;
  company : option Company.t;
  isLoading : bool }.

Record State : Type := mkState {
  roles : list Role.t;
  nudges : list Nudge.t;
  loadingData : bool;
  error : option string }.

Definition initial : State := mkState [] [] true None.

(** [fetchData]: both lists are awaited together; either failure sets the
    error, and [loadingData] is cleared in any case. *)
Definition fetchData (rolesAnswer : result (Response (list Role.t)))
    (nudgesAnswer : result (Response (list Nudge.t))) (st : State) : State :=
  match getRoles rolesAnswer, getNudges nudgesAnswer with
  | Ok rolesData, Ok nudgesData => mkState rolesData nudgesData false (error st)
  | _, _ => mkState (roles st) (nudges st) false (Some "Failed to load data")
  end.

(** [{ ...n, status }] *)
Definition with_status (status : NudgeStatus) (n : Nudge.t) : Nudge.t :=
  Nudge.mk (Nudge.id n) (Nudge.employee_id n) (Nudge.company_id n)
           (Nudge.role_name n) (Nudge.level_name n) status (Nudge.is_active n)
           (Nudge.created_at n) (Nudge.updated_at n) (Nudge.employee_name n).

(** [handleNudgeAction(nudgeId, status)], given what the PATCH request
    completed with. *)
Definition handleNudgeAction (answer : result (Response Nudge.t))
    (nudgeId : string) (status : NudgeStatus) (st : State) : State :=
  match updateNudge answer with
  | Ok _ =>
      mkState (roles st)
        ((λ n, if decide (Nudge.id n = nudgeId) then with_status status n else n)
           <$> nudges st)
        (loadingData st) (error st)
  | Throw _ =>
      mkState (roles st) (nudges st) (loadingData st) (Some "Failed to update request")
  end.

Definition activeRoles (st : State) : list Role.t :=
  filter (λ r, Role.is_active r = true) (roles st).

Definition pendingNudges (st : State) : list Nudge.t :=
  filter (λ n, Nudge.status n = pending) (nudges st).

(** One [guide-card] link. *)
Record GuideCard : Type := mkGuideCard {
  key : string;
  to : string;
  title : string;
  guide_date : string }.

Inductive GuidesSection : Type :=
| empty_state
| guides_grid (cards : list GuideCard).

Inductive View : Type :=
| loading_container
| nothing
| dashboard_page (error_message : option string) (guides : GuidesSection).

Section Render.
Variable toLocaleDateString : string → string.

Definition guide_card (r : Role.t) : GuideCard :=
  mkGuideCard (Role.id r) ("/role/" +:+ Role.id r) (Role.name r)
              ("Created " +:+ toLocaleDateString (Role.created_at r)).

Definition render_guides (st : State) : GuidesSection :=
  if decide (length (activeRoles st) = 0) then empty_state
  else guides_grid (guide_card <$> activeRoles st).

Definition render (auth : Auth) (st : State) : View :=
  if isLoading auth || loadingData st then loading_container
  else
    match user auth, company auth with
    | Some _, Some _ => dashboard_page (error st) (render_guides st)
    | _, _ => nothing
    end.
End Render.

(** The cards on the page, none when the section shows its empty state. *)
Definition cards_of (g : GuidesSection) : list GuideCard :=
  match g with
  | empty_state => []
  | guides_grid cards => cards
  end.

End Dashboard.

(** ** Vocabulary of the properties *)

(** The polls before the [n]-th all answered ['processing']: the loop of
    [waitForRole] makes its [n]-th poll when, besides, the callback returned
    from each of its calls (see [heard]). *)
Definition reaches (status_endpoint : string → nat → result (Response ProcessingStatus.t))
    (roleId : string) (n : nat) : Prop :=
  ∀ j, j < n →
    ∃ st, getRoleStatus (status_endpoint roleId j) = Ok st
          ∧ ProcessingStatus.status st = processing.

(** The callback, if one was passed, returns from the call of the [k]-th
    poll with status [s]. *)
Definition returns (onStatusChange : option Callback) (k : nat) (s : Status) : Prop :=
  (notify onStatusChange k s).2 = Ok tt.

(** The callback returned from the calls of the polls before the [n]-th,
    which answered ['processing']. *)
Definition heard (onStatusChange : option Callback) (n : nat) : Prop :=
  ∀ j, j < n → returns onStatusChange j processing.

Definition is_poll (e : Effect) : bool :=
  match e with StatusPolled _ _ => true | _ => false end.

Definition is_timeout (e : Effect) : bool :=
  match e with TimeoutSet _ => true | _ => false end.

Definition is_fetch (e : Effect) : bool :=
  match e with RoleFetched _ _ => true | _ => false end.

(** A status response carries an identifier (a message) when the field is
    present and not empty. *)
Definition carries (field : option string) : Prop :=
  ∃ s, field = Some s ∧ s ≠ EmptyString.

(** The identifier does not contain the separator ["-"] of the map key. *)
Fixpoint no_hyphen (s : string) : bool :=
  match s with
  | EmptyString => true
  | String a rest => if decide (a = "-"%char) then false else no_hyphen rest
  end.

(** The definitions of the cell of a level and a competency. *)
Definition definitions_for (r : RoleDetail.t) (level_id competency_id : string)
    : list DefinitionWithExamples.t :=
  filter (λ d, DefinitionWithExamples.level_id d = level_id
               ∧ DefinitionWithExamples.competency_id d = competency_id)
         (RoleDetail.definitions r).

(** All fields of two nudges agree, except possibly [status]. *)
Definition same_but_status (n n' : Nudge.t) : Prop :=
  Nudge.id n' = Nudge.id n
  ∧ Nudge.employee_id n' = Nudge.employee_id n
  ∧ Nudge.company_id n' = Nudge.company_id n
  ∧ Nudge.role_name n' = Nudge.role_name n
  ∧ Nudge.level_name n' = Nudge.level_name n
  ∧ Nudge.is_active n' = Nudge.is_active n
  ∧ Nudge.created_at n' = Nudge.created_at n
  ∧ Nudge.updated_at n' = Nudge.updated_at n
  ∧ Nudge.employee_name n' = Nudge.employee_name n.

(** The target of a navigation, as the description of the modal has it:
    'next' from the last level goes to the first level of the next
    competency, and past the last competency to the first; 'prev' from the
    first level goes to the last level of the previous competency, and before
    the first competency to the last. *)
Definition wrapped_target (d : ResultsView.direction) (levels competencies : Z)
    (levelIdx compIdx : Z) : Z * Z :=
  match d with
  | ResultsView.next =>
      if decide (levelIdx = levels - 1)%Z
      then (0%Z, if decide (compIdx = competencies - 1)%Z then 0%Z else (compIdx + 1)%Z)
      else ((levelIdx + 1)%Z, compIdx)
  | ResultsView.prev =>
      if decide (levelIdx = 0)%Z
      then ((levels - 1)%Z,
            if decide (compIdx = 0)%Z then (competencies - 1)%Z else (compIdx - 1)%Z)
      else ((levelIdx - 1)%Z, compIdx)
  end.

(** The modal, if open, shows a definition of the Role at a position of the
    grid. *)
Definition modal_ok (r : RoleDetail.t) (st : ResultsView.State) : Prop :=
  ResultsView.role st = Some r
  ∧ ∀ md, ResultsView.modalData st = Some md →
      ResultsView.definition md ∈ RoleDetail.definitions r
      ∧ (0 ≤ ResultsView.levelIdx md < js_length (RoleDetail.levels r))%Z
      ∧ (0 ≤ ResultsView.compIdx md < js_length (RoleDetail.competencies r))%Z.

(** A definition belongs to the cell of a level and a competency. *)
Definition defines (level : Level.t) (comp : Competency.t)
    (d : DefinitionWithExamples.t) : Prop :=
  (DefinitionWithExamples.level_id d = Level.id level)
  ∧ (DefinitionWithExamples.competency_id d = Competency.id comp).

(** ** Scenarios *)

Definition empty_grid (id : string) : RoleDetail.t :=
  RoleDetail.mk id "acme" "Engineer" true "2024-05-01T10:00:00" "2024-05-01T10:00:00" [] [] [].

(** A callback that returns from every call. *)
Definition observer : Callback := λ _ _, Ok tt.

(** A callback that throws when it is called with the given status. *)
Definition throws_on (bad : Status) : Callback :=
  λ _ s, if decide (s = bad) then Throw (Error "onStatusChange failed") else Ok tt.

(** A re-upload recreated the Role: the second poll answers ['completed']
    under a new identifier. *)
Module Recreated.
Definition status_endpoint (_ : string) (k : nat) : result (Response ProcessingStatus.t) :=
  Ok (mkResponse true
        (match k with
         | 0 => ProcessingStatus.mk (Some "role-1") processing None
         | _ => ProcessingStatus.mk (Some "role-2") completed None
         end)).
Definition role_endpoint (id : string) : result (Response RoleDetail.t) :=
  Ok (mkResponse true (empty_grid id)).
End Recreated.

(** The status is ['completed'] but the grid request is answered with an
    error status (the body of such a response is not read). *)
Module GridUnavailable.
Definition status_endpoint (_ : string) (_ : nat) : result (Response ProcessingStatus.t) :=
  Ok (mkResponse true (ProcessingStatus.mk (Some "role-1") completed None)).
Definition role_endpoint (_ : string) : result (Response RoleDetail.t) :=
  Ok (mkResponse false (empty_grid EmptyString)).
End GridUnavailable.

(** The pipeline fails while the client polls. *)
Module ExtractionFails.
Definition status_endpoint (_ : string) (k : nat) : result (Response ProcessingStatus.t) :=
  Ok (mkResponse true
        (match k with
         | 0 => ProcessingStatus.mk (Some "role-1") processing None
         | _ => ProcessingStatus.mk (Some "role-1") failed
                  (Some "Could not extract text from the uploaded file")
         end)).
Definition role_endpoint (id : string) : result (Response RoleDetail.t) :=
  Ok (mkResponse true (empty_grid id)).
End ExtractionFails.

(** A guide is submitted and its parse fails; a stale worker then tries to
    write ['processing'] and ['completed']. *)
Module StaleWrites.
Definition earlier : list Backend.Op :=
  [Backend.SubmitGuide "role-1" "2024-05-01T10:00:00" "acme" "Engineer";
   Backend.WriteStatus "role-1" failed (Some "The guide has no levels")].
Definition later : list Backend.Op :=
  [Backend.WriteStatus "role-1" processing None;
   Backend.WriteStatus "role-1" completed None].
Definition failed_row : Backend.RoleRow :=
  Backend.mkRoleRow
    (Role.mk "role-1" "acme" "Engineer" true "2024-05-01T10:00:00" "2024-05-01T10:00:00")
    failed (Some "The guide has no levels").
End StaleWrites.

(** A grid whose identifiers contain the separator of the map key: the only
    definition belongs to level ["a"] and competency ["b-c"]. *)
Module Collision.
Definition level (id name : string) (order_idx : Z) : Level.t :=
  Level.mk id "acme" "role-1" name order_idx true "2024-05-01" "2024-05-01".
Definition competency (id name : string) (order_idx : Z) : Competency.t :=
  Competency.mk id "acme" "role-1" name order_idx true "2024-05-01" "2024-05-01".
Definition definition (id level_id level_name competency_id competency_name text : string)
    (examples : list Example.t) : DefinitionWithExamples.t :=
  {| DefinitionWithExamples.id := id;
     DefinitionWithExamples.level_id := level_id;
     DefinitionWithExamples.level_name := level_name;
     DefinitionWithExamples.competency_id := competency_id;
     DefinitionWithExamples.competency_name := competency_name;
     DefinitionWithExamples.definition := text;
     DefinitionWithExamples.examples := examples |}.
Definition owns_features : DefinitionWithExamples.t :=
  definition "d1" "a" "L1" "b-c" "Scope" "Owns small features" [].
Definition role : RoleDetail.t :=
  RoleDetail.mk "role-1" "acme" "Engineer" true "2024-05-01" "2024-05-01"
    [level "a" "L1" 0; level "a-b" "L2" 1]
    [competency "b-c" "Scope" 0; competency "c" "Communication" 1]
    [owns_features].
End Collision.

(** An active guide for "Engineer" exists, the form is filled in for the
    same name, and the existence check is answered with an error status. *)
Module CheckDown.
Definition store : list Backend.RoleRow :=
  [Backend.mkRoleRow
     (Role.mk "role-1" "acme" "Engineer" true "2024-05-01T10:00:00" "2024-05-01T10:00:00")
     completed None].
Definition guide : UploadForm.File := UploadForm.mkFile "guide.pdf" 48213%N.
Definition form : UploadForm.State :=
  UploadForm.mkState "https://acme.example" "Engineer" (Some guide)
    UploadForm.Status.idle None false None None.
Definition net : UploadForm.Network :=
  UploadForm.mkNetwork
    (λ _, Ok (mkResponse false (RoleExistsCheck.mk false None None)))
    (λ _ _ roleName,
       Ok (Created (Role.mk "role-2" "acme" roleName true
                      "2024-06-01T09:00:00" "2024-06-01T09:00:00")))
    Recreated.status_endpoint Recreated.role_endpoint.
End CheckDown.

(** The same form when the check is answered from the store. *)
Module CheckUp.
Definition net : UploadForm.Network :=
  UploadForm.mkNetwork
    (λ roleName, Ok (mkResponse true (Backend.roles_check roleName CheckDown.store)))
    (UploadForm.create_endpoint CheckDown.net)
    Recreated.status_endpoint Recreated.role_endpoint.
End CheckUp.

(** A manager's dashboard with two guides, one of them replaced by a
    re-upload, and two pending requests. *)
Module Acme.
Definition old_guide : Role.t :=
  Role.mk "role-1" "acme" "Engineer" false "2024-05-01T10:00:00" "2024-06-01T09:00:00".
Definition new_guide : Role.t :=
  Role.mk "role-2" "acme" "Engineer" true "2024-06-01T09:00:00" "2024-06-01T09:00:00".
Definition rolesData : list Role.t := [old_guide; new_guide].
Definition nudge (id role_name : string) : Nudge.t :=
  Nudge.mk id "emp-1" "acme" role_name None pending true
           "2024-06-02T08:00:00" "2024-06-02T08:00:00" (Some "Dana").
Definition nudgesData : list Nudge.t := [nudge "n1" "Designer"; nudge "n2" "Engineer"].
Definition boss : User.t :=
  User.mk "u1" "boss@acme.example" "Boss" manager "acme" true "2024-01-01" "2024-01-01".
Definition acme : Company.t :=
  Company.mk "acme" "Acme" (Some "acme.example") "JOIN-ACME" true "2024-01-01" "2024-01-01".
Definition auth : Dashboard.Auth := Dashboard.mkAuth (Some boss) (Some acme) false.
Definition st : Dashboard.State := Dashboard.mkState rolesData nudgesData false None.
End Acme.

(** A two-by-two grid in which the cell of L2 and Communication has no
    definition, and the cell of L2 and Scope has no examples. *)
Module Ladder.
Definition l1 : Level.t := Collision.level "l1" "L1" 0.
Definition l2 : Level.t := Collision.level "l2" "L2" 1.
Definition scope : Competency.t := Collision.competency "c1" "Scope" 0.
Definition communication : Competency.t := Collision.competency "c2" "Communication" 1.
Definition example (id level_id competency_id content : string) : Example.t :=
  {| Example.id := id; Example.company_id := "acme"; Example.role_id := "role-1";
     Example.level_id := level_id; Example.competency_id := competency_id;
     Example.content := content; Example.is_active := true;
     Example.created_at := "2024-05-01"; Example.updated_at := "2024-05-01" |}.
Definition l1_scope : DefinitionWithExamples.t :=
  Collision.definition "d1" "l1" "L1" "c1" "Scope" "Owns small features"
    [example "e1" "l1" "c1" "Ships a settings page";
     example "e2" "l1" "c1" "Fixes a flaky test";
     example "e3" "l1" "c1" "Adds an API field"].
Definition l2_scope : DefinitionWithExamples.t :=
  Collision.definition "d2" "l2" "L2" "c1" "Scope" "Owns a service" [].
Definition l1_communication : DefinitionWithExamples.t :=
  Collision.definition "d3" "l1" "L1" "c2" "Communication" "Writes clear updates"
    [example "e4" "l1" "c2" "Posts a weekly summary"].
Definition role : RoleDetail.t :=
  RoleDetail.mk "role-1" "acme" "Engineer" true "2024-05-01" "2024-05-01"
    [l1; l2] [scope; communication] [l1_scope; l2_scope; l1_communication].
(** The modal opened on the cell of L2 and Scope. *)
Definition opened : ResultsView.State :=
  ResultsView.mkState (Some role) false None
    (Some (ResultsView.mkModalData l2_scope "L2" "Scope" 1 0)) false.
(** The modal opened on the cell of L1 and Scope. *)
Definition opened_low : ResultsView.State :=
  ResultsView.mkState (Some role) false None
    (Some (ResultsView.mkModalData l1_scope "L1" "Scope" 0 0)) false.
End Ladder.

(** ** components/ResultsView.tsx: loading the Role and comparing levels *)

(** Truthiness of a possibly missing string. *)
Definition js_truthy (x : option string) : bool :=
  match x with
  | Some s => if decide (s = EmptyString) then false else true
  | None => false
  end.

Module ResultsPage.

(** The state the component starts in. *)
Definition initial : ResultsView.State :=
  ResultsView.mkState None true None None false.

(** The effect on [roleId]: nothing without a [roleId]; otherwise [getRole],
    whose answer sets either the Role or the error, and [loading] is
    cleared in both cases. *)
Definition fetchRole (role_endpoint : string → result (Response RoleDetail.t))
    (roleId : option string) (st : ResultsView.State) : ResultsView.State :=
  match roleId with
  | None => st
  | Some id =>
      if decide (id = EmptyString) then st
      else
        match getRole (role_endpoint id) with
        | Ok data =>
            ResultsView.mkState (Some data) false (ResultsView.error st)
              (ResultsView.modalData st) (ResultsView.compareMode st)
        | Throw err =>
            ResultsView.mkState (ResultsView.role st) false (Some (exn_message err))
              (ResultsView.modalData st) (ResultsView.compareMode st)
        end
  end.

(** [getNextLevelData]: [null] without a modal, a Role or a next level;
    otherwise the first definition of the next level and the current
    competency with the next level's name, or [null] when there is none. *)
Definition getNextLevelData (st : ResultsView.State)
    : result (option (DefinitionWithExamples.t * string)) :=
  match ResultsView.modalData st, ResultsView.role st with
  | Some md, Some r =>
      let nextLevelIdx := (ResultsView.levelIdx md + 1)%Z in
      if (nextLevelIdx >=? js_length (RoleDetail.levels r))%Z then Ok None
      else
        let nextLevel := js_index (RoleDetail.levels r) nextLevelIdx in
        let currentComp := js_index (RoleDetail.competencies r) (ResultsView.compIdx md) in
        match ResultsView.find_definition (RoleDetail.definitions r) nextLevel currentComp with
        | Throw e => Throw e
        | Ok None => Ok None
        | Ok (Some nextDef) =>
            match nextLevel with
            | Some level => Ok (Some (nextDef, Level.name level))
            | None => Throw (TypeError "Cannot read properties of undefined (reading 'name')")
            end
        end
  | _, _ => Ok None
  end.

(** [isAtMaxLevel], computed once the Role is there. *)
Definition isAtMaxLevel (r : RoleDetail.t) (st : ResultsView.State) : bool :=
  match ResultsView.modalData st with
  | Some md => (ResultsView.levelIdx md >=? js_length (RoleDetail.levels r) - 1)%Z
  | None => false
  end.

(** The middle button of the modal footer: "Compare with ... →", or a
    disabled button with one of two labels. *)
Inductive CompareButton : Type :=
| compare_with (levelName : string)
| disabled_button (label : string).

Definition compare_button (r : RoleDetail.t) (st : ResultsView.State)
    : result CompareButton :=
  match getNextLevelData st with
  | Throw e => Throw e
  | Ok (Some (_, levelName)) => Ok (compare_with levelName)
  | Ok None =>
      Ok (disabled_button (if isAtMaxLevel r st then "Highest Level" else "No next level"))
  end.

(** What the component returns: the spinner, the error box with its
    message, or the page with the grid rows. *)
Inductive View : Type :=
| loading_container
| error_container (message : string)
| results_page (title : string) (rows : list ResultsView.GridRow).

Definition view (st : ResultsView.State) : View :=
  if ResultsView.loading st then loading_container
  else
    match ResultsView.role st with
    | Some r =>
        if js_truthy (ResultsView.error st)
        then error_container (js_or (ResultsView.error st) "Role not found")
        else results_page (RoleDetail.name r +:+ " Leveling Guide") (ResultsView.render_grid r)
    | None => error_container (js_or (ResultsView.error st) "Role not found")
    end.

(** What happens on the page: the effect on [roleId] has run to its end
    (on mount, and again whenever the route's [roleId] changes), with what
    [fetch] completed with; or the user acts. *)
Inductive Event : Type :=
| RoleIdSet (roleId : option string) (fetched : result (Response RoleDetail.t))
| User (ev : ResultsView.Event).

(** The grid and the modal are drawn, and can be clicked, only on the
    results page; the Escape key closes the modal on every view. *)
Definition step (st : ResultsView.State) (ev : Event) : result ResultsView.State :=
  match ev with
  | RoleIdSet roleId fetched => Ok (fetchRole (λ _, fetched) roleId st)
  | User ResultsView.CloseModal => ResultsView.step st ResultsView.CloseModal
  | User ev =>
      match view st with
      | results_page _ _ => ResultsView.step st ev
      | _ => Ok st
      end
  end.

Fixpoint run (st : ResultsView.State) (evs : list Event) : result ResultsView.State :=
  match evs with
  | [] => Ok st
  | ev :: rest =>
      match step st ev with
      | Ok st' => run st' rest
      | Throw e => Throw e
      end
  end.

(** The event stores a Role: a [roleId] was given and [getRole] succeeded. *)
Definition stores_role (ev : Event) : bool :=
  match ev with
  | RoleIdSet roleId fetched =>
      js_truthy roleId && (if getRole fetched is Ok _ then true else false)
  | User _ => false
  end.

(** Along the events, no Role is stored while the modal is open. *)
Fixpoint modal_closed_at_loads (st : ResultsView.State) (evs : list Event) : bool :=
  match evs with
  | [] => true
  | ev :: rest =>
      (negb (stores_role ev) || (if ResultsView.modalData st is None then true else false))
      && match step st ev with
         | Ok st' => modal_closed_at_loads st' rest
         | Throw _ => true
         end
  end.

(** The opposite direction of a navigation. *)
Definition opposite (d : ResultsView.direction) : ResultsView.direction :=
  match d with
  | ResultsView.prev => ResultsView.next
  | ResultsView.next => ResultsView.prev
  end.

(** [k] presses of the same navigation button, on the indices alone. *)
Fixpoint presses (d : ResultsView.direction) (levels competencies : Z) (k : nat)
    (position : Z * Z) : Z * Z :=
  match k with
  | O => position
  | S k' =>
      presses d levels competencies k'
        (ResultsView.navigate_target d levels competencies position.1 position.2)
  end.

(** [k] presses of the same navigation button in single view. *)
Fixpoint navigations (d : ResultsView.direction) (k : nat) (st : ResultsView.State)
    : result ResultsView.State :=
  match k with
  | O => Ok st
  | S k' =>
      match ResultsView.navigateModal d st with
      | Ok st' => navigations d k' st'
      | Throw e => Throw e
      end
  end.

(** The indices of the open modal. *)
Definition position (st : ResultsView.State) : option (Z * Z) :=
  (λ md, (ResultsView.levelIdx md, ResultsView.compIdx md)) <$> ResultsView.modalData st.

End ResultsPage.

(** ** components/UploadForm.tsx: the submit button *)

Module UploadControls.

Definition isLoading (st : UploadForm.State) : bool :=
  match UploadForm.status st with
  | UploadForm.Status.uploading | UploadForm.Status.processing => true
  | _ => false
  end.

(** The [disabled] attribute of the submit button. *)
Definition submit_disabled (st : UploadForm.State) : bool :=
  isLoading st || bool_decide (UploadForm.file st = None)
  || bool_decide (UploadForm.companyUrl st = EmptyString)
  || bool_decide (UploadForm.roleName st = EmptyString)
  || UploadForm.showConfirmOverwrite st.

End UploadControls.

(** ** api.ts: the helpers whose failure carries a [detail] *)

(** What such a request answers: the JSON body, or a response that is not
    [ok] whose body may carry a [detail]. *)
Inductive Answer (B : Type) : Type :=
| Body (body : B)
| Refused (detail : option string).
Arguments Body {B} body.
Arguments Refused {B} detail.

Definition from_detail_response {B : Type} (fallback : string)
    (fetched : result (Answer B)) : result B :=
  match fetched with
  | Throw e => Throw e
  | Ok (Body body) => Ok body
  | Ok (Refused detail) => Throw (Error (js_or detail fallback))
  end.

Module AuthResponse.
Record t : Type := mk { user : User.t; company : Company.t }.
End AuthResponse.

Definition createNudge := from_detail_response (B := Nudge.t) "Failed to create request".
Definition getMe := from_response (B := AuthResponse.t) "Not authenticated".

(** [getAuthHeaders]: the value of the [X-User-ID] header, if one is sent,
    given the [userId] entry of [localStorage]. *)
Definition getAuthHeaders (userId : option string) : option string :=
  if js_truthy userId then userId else None.

(** ** context/AuthContext.tsx *)

Module AuthContext.

Record AuthState : Type := mkAuthState {
  user : option User.t;
  company : option Company.t;
  isLoading : bool;
  isAuthenticated : bool }.

(** The provider's state and the [userId] entry of [localStorage]. *)
Record World : Type := mkWorld {
  state : AuthState;
  userId : option string }.

Definition initial (stored : option string) : World :=
  mkWorld (mkAuthState None None true false) stored.

Definition login (u : User.t) (c : Company.t) (w : World) : World :=
  mkWorld (mkAuthState (Some u) (Some c) false true) (Some (User.id u)).

Definition logout (w : World) : World :=
  mkWorld (mkAuthState None None false false) None.

(** [refreshAuth], given what [/auth/me] answers to a request with the given
    header; the second component lists the headers of the requests sent. *)
Definition refreshAuth (me_endpoint : option string → result (Response AuthResponse.t))
    (w : World) : World * list (option string) :=
  if js_truthy (userId w) then
    let header := getAuthHeaders (userId w) in
    match getMe (me_endpoint header) with
    | Ok data =>
        (mkWorld (mkAuthState (Some (AuthResponse.user data)) (Some (AuthResponse.company data))
                    false true) (userId w),
         [header])
    | Throw _ => (mkWorld (mkAuthState None None false false) None, [header])
    end
  else
    (mkWorld (mkAuthState (user (state w)) (company (state w)) false
                (isAuthenticated (state w))) (userId w),
     []).

(** What the application does with the provider. *)
Inductive Op : Type :=
| Login (u : User.t) (c : Company.t)
| Logout
| RefreshAuth (me_endpoint : option string → result (Response AuthResponse.t)).

Definition apply (w : World) (op : Op) : World :=
  match op with
  | Login u c => login u c w
  | Logout => logout w
  | RefreshAuth me_endpoint => (refreshAuth me_endpoint w).1
  end.

(** What [useAuth] hands to the dashboard. *)
Definition to_dashboard (w : World) : Dashboard.Auth :=
  Dashboard.mkAuth (user (state w)) (company (state w)) (isLoading (state w)).

End AuthContext.

(** ** components/Dashboard.tsx: the redirect and the request form *)

Module DashboardRequests.

(** The effect on [isLoading], [user]: the route it navigates to, if any. *)
Definition redirect (auth : Dashboard.Auth) : option string :=
  if negb (Dashboard.isLoading auth) && negb (bool_decide (is_Some (Dashboard.user auth)))
  then Some "/login" else None.

(** The request form of an employee. *)
Record Form : Type := mkForm {
  showRequestForm : bool;
  requestRole : string;
  requestLevel : string;
  submittingRequest : bool }.

(** The JSON body of [POST /nudges]; an [undefined] level is left out. *)
Record NudgeBody : Type := mkNudgeBody {
  role_name : string;
  level_name : option string }.

(** [handleCreateRequest], given what the POST request completed with: the
    dashboard state, the form, and the body that was sent. *)
Definition handleCreateRequest (fetched : result (Answer Nudge.t))
    (st : Dashboard.State) (form : Form) : Dashboard.State * Form * NudgeBody :=
  let body :=
    mkNudgeBody (requestRole form)
      (if decide (requestLevel form = EmptyString) then None else Some (requestLevel form)) in
  match createNudge fetched with
  | Ok newNudge =>
      (Dashboard.mkState (Dashboard.roles st) (newNudge :: Dashboard.nudges st)
                         (Dashboard.loadingData st) None,
       mkForm false EmptyString EmptyString false,
       body)
  | Throw err =>
      (Dashboard.mkState (Dashboard.roles st) (Dashboard.nudges st)
                         (Dashboard.loadingData st) (Some (exn_message err)),
       mkForm (showRequestForm form) (requestRole form) (requestLevel form) false,
       body)
  end.

End DashboardRequests.

(** ** components/LoginPage.tsx: the three submit handlers *)

Module LoginPage.

Record State : Type := mkState {
  error : option string;
  loading : bool;
  managerEmail : string;
  managerName : string;
  companyName : string;
  companyDomain : string;
  employeeEmail : string;
  employeeName : string;
  inviteCode : string;
  loginEmail : string;
  (** the route [navigate] was called with, if it was *)
  navigated : option string }.

(** The JSON bodies of the three requests. *)
Inductive Request : Type :=
| RegisterManager (email name company_name : string) (company_domain : option string)
| JoinCompany (email name invite_code : string)
| LoginWithEmail (email : string).





End LoginPage.

(** ** Vocabulary of the further properties *)

Definition is_settled (e : Effect) : bool :=
  match e with Settled _ => true | _ => false end.

(** The statuses the polls of a trace answered, in order. *)
Definition polled_statuses (trace : list Effect) : list Status :=
  omap (λ e, match e with
             | StatusPolled _ (Ok st) => Some (ProcessingStatus.status st)
             | _ => None
             end) trace.

(** The statuses [onStatusChange] was called with, in order. *)
Definition reported_statuses (trace : list Effect) : list Status :=
  omap (λ e, match e with StatusChanged s => Some s | _ => None end) trace.

(** The modal, if open, shows a definition of the Role on the page at a
    position of its grid. *)
Definition page_ok (st : ResultsView.State) : Prop :=
  ResultsView.modalData st = None ∨ ∃ r, modal_ok r st.

(** The position of a cell when the grid is read competency by competency,
    level by level. *)
Definition linear (levels : Z) (position : Z * Z) : Z :=
  (position.2 * levels + position.1)%Z.

(** Every cell of the grid has a definition. *)
Definition complete (r : RoleDetail.t) : Prop :=
  ∀ level comp, level ∈ RoleDetail.levels r → comp ∈ RoleDetail.competencies r →
    ∃ def, def ∈ RoleDetail.definitions r ∧ defines level comp def.

(** The step of a direction along the reading order. *)
Definition stride (d : ResultsView.direction) : Z :=
  match d with
  | ResultsView.next => 1%Z
  | ResultsView.prev => (-1)%Z
  end.

(** A position of a grid with that many levels and competencies. *)
Definition in_grid (levels competencies : Z) (position : Z * Z) : Prop :=
  (0 ≤ position.1 < levels)%Z ∧ (0 ≤ position.2 < competencies)%Z.

(** ** Further scenarios *)

(** The status endpoint answers the second poll with an error status. *)
Module StatusDown.
Definition status_endpoint (_ : string) (k : nat) : result (Response ProcessingStatus.t) :=
  Ok (mkResponse (match k with 0 => true | _ => false end)
        (ProcessingStatus.mk (Some "role-1") processing None)).
End StatusDown.

(** The ladder is on the page with the modal open on the cell of L2 and
    Scope, when the route changes to another Role, whose grid is empty. *)
Module RouteChange.
End RouteChange.

(** The ladder after a revision that added a second definition for the cell
    of L1 and Communication. *)
Module Revised.
Definition l1_communication_revised : DefinitionWithExamples.t :=
  Collision.definition "d5" "l1" "L1" "c2" "Communication" "Writes clear and timely updates" [].
Definition role : RoleDetail.t :=
  RoleDetail.mk "role-1" "acme" "Engineer" true "2024-05-01" "2024-05-01"
    [Ladder.l1; Ladder.l2] [Ladder.scope; Ladder.communication]
    [Ladder.l1_scope; Ladder.l2_scope; Ladder.l1_communication; l1_communication_revised].
Definition opened : ResultsView.State :=
  ResultsView.mkState (Some role) false None
    (Some (ResultsView.mkModalData Ladder.l2_scope "L2" "Scope" 1 0)) false.
End Revised.

(** The two-by-two ladder with all four cells defined. *)
Module FullLadder.
Definition l2_communication : DefinitionWithExamples.t :=
  Collision.definition "d4" "l2" "L2" "c2" "Communication" "Presents to the team" [].
Definition role : RoleDetail.t :=
  RoleDetail.mk "role-1" "acme" "Engineer" true "2024-05-01" "2024-05-01"
    [Ladder.l1; Ladder.l2] [Ladder.scope; Ladder.communication]
    [Ladder.l1_scope; Ladder.l2_scope; Ladder.l1_communication; l2_communication].
Definition opened : ResultsView.State :=
  ResultsView.mkState (Some role) false None
    (Some (ResultsView.mkModalData Ladder.l2_scope "L2" "Scope" 1 0)) false.
End FullLadder.

(** An edit of the form: typing into a field or dropping files. *)
Definition is_edit (ev : UploadForm.Event) : bool :=
  match ev with
  | UploadForm.ChangeCompanyUrl _ | UploadForm.ChangeRoleName _ | UploadForm.Drop _ => true
  | _ => false
  end.

Definition is_check (q : UploadForm.Request) : bool :=
  match q with
  | UploadForm.CheckRoleExists _ => true
  | _ => false
  end.

(** A login stores a non-empty user id. *)
Definition stores_id (op : AuthContext.Op) : Prop :=
  match op with
  | AuthContext.Login u _ => User.id u ≠ EmptyString
  | _ => True
  end.

(** The provider after the application has used it, from a fresh page load
    with the given stored id. *)
Definition provider_after (stored : option string) (ops : list AuthContext.Op)
    : AuthContext.World :=
  foldl AuthContext.apply (AuthContext.initial stored) ops.

(** A stored id that the server no longer accepts, followed by a logout. *)
Module StaleSession.
Definition me_endpoint (_ : option string) : result (Response AuthResponse.t) :=
  Ok (mkResponse false (AuthResponse.mk Acme.boss Acme.acme)).
Definition ops : list AuthContext.Op :=
  [AuthContext.RefreshAuth me_endpoint; AuthContext.Login Acme.boss Acme.acme;
   AuthContext.Logout].
End StaleSession.



(** * Properties *)

(** ** waitForRole *)

Section WaitForRoleFacts.
Variable status_endpoint : string → nat → result (Response ProcessingStatus.t).
Variable role_endpoint : string → result (Response RoleDetail.t).
Variable roleId : string.
Variable onStatusChange : option Callback.
Variable pollInterval : nat.

Local Abbreviation once := (poll_once status_endpoint role_endpoint roleId onStatusChange pollInterval).
Local Abbreviation loop := (poll status_endpoint role_endpoint roleId onStatusChange pollInterval).
Local Abbreviation note k s := (fst (notify onStatusChange k s)).

Lemma poll_S fuel k :
  loop (S fuel) k =
    match once k with
    | (effects, Some outcome) => (effects, Some outcome)
    | (effects, None) => (effects ++ (loop fuel (S k)).1, (loop fuel (S k)).2)
    end.
Proof. simpl. destruct (once k) as [eff [o|]]; [done|]. by destruct (loop fuel (S k)). Qed.

(** The call is the only effect of [notify], and it is made whatever it
    completes with. *)
Lemma notify_call k s :
  note k s = if onStatusChange is Some _ then [StatusChanged s] else [].
Proof. unfold notify. by destruct onStatusChange. Qed.

(** The callback either returns or throws. *)
Lemma returns_or_throws k s :
  returns onStatusChange k s ∨ ∃ e, (notify onStatusChange k s).2 = Throw e.
Proof. unfold returns. destruct (notify onStatusChange k s).2 as [[]|e]; eauto. Qed.

(** A poll that answers ['processing'], with the callback returning,
    re-arms the timer and settles nothing. *)
Lemma poll_once_processing k st :
  getRoleStatus (status_endpoint roleId k) = Ok st →
  ProcessingStatus.status st = processing →
  returns onStatusChange k processing →
  once k =
    (StatusPolled roleId (Ok st) :: note k processing ++ [TimeoutSet pollInterval], None).
Proof.
  unfold returns. intros Hst Hp Hr. unfold poll_once. rewrite Hst, Hp.
  destruct (notify onStatusChange k processing) as [called returned].
  simpl in Hr. by rewrite Hr.
Qed.

Lemma poll_once_completed k st :
  getRoleStatus (status_endpoint roleId k) = Ok st →
  ProcessingStatus.status st = completed →
  returns onStatusChange k completed →
  let finalRoleId := js_or (ProcessingStatus.role_id st) roleId in
  let fetched := getRole (role_endpoint finalRoleId) in
  let outcome := match fetched with Ok role => Resolved role | Throw e => Rejected e end in
  once k =
    (StatusPolled roleId (Ok st) :: note k completed
       ++ [RoleFetched finalRoleId fetched; Settled outcome], Some outcome).
Proof.
  unfold returns. intros Hst Hc Hr. unfold poll_once. rewrite Hst, Hc.
  destruct (notify onStatusChange k completed) as [called returned].
  simpl in Hr. rewrite Hr. simpl. by destruct (getRole _).
Qed.

Lemma poll_once_failed k st :
  getRoleStatus (status_endpoint roleId k) = Ok st →
  ProcessingStatus.status st = failed →
  returns onStatusChange k failed →
  let error := Error (js_or (ProcessingStatus.message st) "Role processing failed") in
  once k =
    (StatusPolled roleId (Ok st) :: note k failed ++ [Settled (Rejected error)],
     Some (Rejected error)).
Proof.
  unfold returns. intros Hst Hf Hr. unfold poll_once. rewrite Hst, Hf.
  destruct (notify onStatusChange k failed) as [called returned].
  simpl in Hr. by rewrite Hr.
Qed.

Lemma poll_once_throw k e :
  getRoleStatus (status_endpoint roleId k) = Throw e →
  once k = ([StatusPolled roleId (Throw e); Settled (Rejected e)], Some (Rejected e)).
Proof. intros Hst. unfold poll_once. by rewrite Hst. Qed.

(** A poll whose callback throws rejects with the callback's error, whatever
    the status was: nothing else is done. *)
Lemma poll_once_callback_throws k st e :
  getRoleStatus (status_endpoint roleId k) = Ok st →
  (notify onStatusChange k (ProcessingStatus.status st)).2 = Throw e →
  once k =
    (StatusPolled roleId (Ok st) :: note k (ProcessingStatus.status st)
       ++ [Settled (Rejected e)], Some (Rejected e)).
Proof.
  intros Hst Hthrow. unfold poll_once. rewrite Hst.
  destruct (notify onStatusChange k (ProcessingStatus.status st)) as [called returned].
  simpl in Hthrow. by rewrite Hthrow.
Qed.

(** The five ways one poll can go. *)
Lemma poll_once_cases k :
  (∃ st, getRoleStatus (status_endpoint roleId k) = Ok st
         ∧ ProcessingStatus.status st = processing
         ∧ returns onStatusChange k processing)
  ∨ (∃ st, getRoleStatus (status_endpoint roleId k) = Ok st
           ∧ ProcessingStatus.status st = completed
           ∧ returns onStatusChange k completed)
  ∨ (∃ st, getRoleStatus (status_endpoint roleId k) = Ok st
           ∧ ProcessingStatus.status st = failed
           ∧ returns onStatusChange k failed)
  ∨ (∃ e, getRoleStatus (status_endpoint roleId k) = Throw e)
  ∨ (∃ st e, getRoleStatus (status_endpoint roleId k) = Ok st
             ∧ (notify onStatusChange k (ProcessingStatus.status st)).2 = Throw e).
Proof.
  destruct (getRoleStatus (status_endpoint roleId k)) as [st|e] eqn:E; [|eauto 7].
  destruct (returns_or_throws k (ProcessingStatus.status st)) as [Hr|[e He]]; [|eauto 10].
  destruct (ProcessingStatus.status st) eqn:S; eauto 10.
Qed.

(** While the polls answer ['processing'] and the callback returns, the loop
    goes on: the first [n] polls can be peeled off the front. *)
Lemma poll_skip n : ∀ fuel k,
  (∀ j, k ≤ j < k + n →
     (∃ st, getRoleStatus (status_endpoint roleId j) = Ok st
            ∧ ProcessingStatus.status st = processing)
     ∧ returns onStatusChange j processing) →
  ∃ front, Forall (λ e, is_fetch e = false) front
    ∧ loop (n + fuel) k = (front ++ (loop fuel (k + n)).1, (loop fuel (k + n)).2).
Proof.
  induction n as [|n IH]; intros fuel k Hproc.
  - exists []. split; [constructor|]. rewrite Nat.add_0_r. simpl. by destruct (loop fuel k).
  - destruct (Hproc k) as ((st & Hst & Hp) & Hr); [lia|].
    destruct (IH fuel (S k)) as (front & Hfront & Heq).
    { intros j Hj. apply Hproc. lia. }
    exists ((StatusPolled roleId (Ok st) :: note k processing ++ [TimeoutSet pollInterval])
              ++ front).
    split.
    + apply Forall_app. split; [|done].
      constructor; [done|]. apply Forall_app. split; [|by repeat constructor].
      rewrite notify_call. destruct onStatusChange; by repeat constructor.
    + replace (S n + fuel) with (S (n + fuel)) by lia.
      replace (k + S n) with (S k + n) by lia.
      rewrite poll_S, (poll_once_processing k st Hst Hp Hr), Heq.
      cbn [fst snd]. f_equal. by rewrite <- !app_assoc.
Qed.

(** Conversely, an outcome comes from the first poll that does not answer
    ['processing'] with the callback returning. *)
Lemma poll_outcome_inv fuel : ∀ k o,
  (loop fuel k).2 = Some o →
  ∃ n, k ≤ n < k + fuel
    ∧ (∀ j, k ≤ j < n →
         (∃ st, getRoleStatus (status_endpoint roleId j) = Ok st
                ∧ ProcessingStatus.status st = processing)
         ∧ returns onStatusChange j processing)
    ∧ (once n).2 = Some o.
Proof.
  induction fuel as [|fuel IH]; intros k o Ho; [done|].
  rewrite poll_S in Ho.
  destruct (poll_once_cases k) as [(st & Hst & Hp & Hr)|Hterm].
  - rewrite (poll_once_processing k st Hst Hp Hr) in Ho. simpl in Ho.
    destruct (IH _ _ Ho) as (n & Hn & Hbefore & Hon).
    exists n. split; [lia|]. split; [|done].
    intros j Hj. destruct (decide (j = k)) as [->|]; [eauto|]. apply Hbefore. lia.
  - exists k. split; [lia|]. split; [intros j Hj; lia|].
    destruct (once k) as [eff [o'|]] eqn:E; [done|].
    exfalso.
    destruct Hterm as [(st & Hst & Hc & Hr)|[(st & Hst & Hf & Hr)|[(e & He)|(st & e & Hst & He)]]].
    + by rewrite (poll_once_completed k st Hst Hc Hr) in E.
    + by rewrite (poll_once_failed k st Hst Hf Hr) in E.
    + by rewrite (poll_once_throw k e He) in E.
    + by rewrite (poll_once_callback_throws k st e Hst He) in E.
Qed.

(** Once the [n]-th poll is reached and settles, any longer observation
    shows exactly the effects up to that poll and its outcome. *)
Lemma poll_settles n fuel o :
  reaches status_endpoint roleId n →
  heard onStatusChange n →
  (once n).2 = Some o →
  n < fuel →
  ∃ front, Forall (λ e, is_fetch e = false) front
    ∧ loop fuel 0 = (front ++ (once n).1, Some o).
Proof.
  intros Hreach Hheard Ho Hfuel.
  destruct (poll_skip n (fuel - n) 0) as (front & Hfront & Heq).
  { intros j Hj. split; [apply Hreach|apply Hheard]; lia. }
  exists front. split; [done|].
  replace (n + (fuel - n)) with fuel in Heq by lia. rewrite Heq. simpl.
  destruct (fuel - n) as [|f] eqn:E; [lia|].
  rewrite poll_S. destruct (once n) as [eff [o'|]]; simpl in *; congruence.
Qed.

(** One poll starts with the status request and makes no other. *)
Lemma poll_once_shape k :
  ∃ rest, (once k).1 = StatusPolled roleId (getRoleStatus (status_endpoint roleId k)) :: rest
          ∧ Forall (λ e, is_poll e = false) rest.
Proof.
  assert (Hnote : ∀ s, Forall (λ e, is_poll e = false) (note k s)).
  { intros s. rewrite notify_call. destruct onStatusChange; by repeat constructor. }
  destruct (poll_once_cases k)
    as [(st & Hst & H & Hr)|[(st & Hst & H & Hr)|[(st & Hst & H & Hr)
       |[(e & Hst)|(st & e & Hst & He)]]]].
  - rewrite (poll_once_processing k st Hst H Hr), Hst. eexists. split; [done|].
    apply Forall_app. split; [done|by repeat constructor].
  - rewrite (poll_once_completed k st Hst H Hr), Hst. eexists. split; [done|].
    apply Forall_app. split; [done|by repeat constructor].
  - rewrite (poll_once_failed k st Hst H Hr), Hst. eexists. split; [done|].
    apply Forall_app. split; [done|by repeat constructor].
  - rewrite (poll_once_throw k e Hst), Hst. eexists. split; [done|by repeat constructor].
  - rewrite (poll_once_callback_throws k st e Hst He), Hst. eexists. split; [done|].
    apply Forall_app. split; [done|by repeat constructor].
Qed.

(** Wherever a status request appears in the effects, what follows it is
    the loop as run from that poll on. *)
Lemma poll_suffix fuel : ∀ k before id answer after,
  (loop fuel k).1 = before ++ StatusPolled id answer :: after →
  ∃ fuel' j, StatusPolled id answer :: after = (loop (S fuel') j).1.
Proof.
  induction fuel as [|fuel IH]; intros k before id answer after Heq.
  { by destruct before. }
  destruct before as [|b before].
  { exists fuel, k. by rewrite Heq. }
  rewrite poll_S in Heq.
  destruct (poll_once_shape k) as (rest & Hshape & Hrest).
  assert (Hin : ∀ l, (once k).1 = l → rest ++ (if (once k).2 is None then (loop fuel (S k)).1 else [])
                  = before ++ StatusPolled id answer :: after → 
           ∃ fuel' j, StatusPolled id answer :: after = (loop (S fuel') j).1).
  { intros _ _ Hsplit.
    apply app_eq_app in Hsplit as [mid [[Hb Ha]|[Hb Ha]]].
    - (* the request would lie within this poll's other effects *)
      destruct mid as [|m mid].
      + simpl in Ha. destruct (once k).2; [done|]. 
        rewrite app_nil_r in Hb. subst before.
        apply (IH (S k) [] id answer after). by rewrite <- Ha.
      + exfalso. rewrite Hb in Hrest. apply Forall_app in Hrest as [_ Hmid].
        injection Ha as Hm _. subst m. by inversion Hmid.
    - destruct (once k).2; [by destruct mid|].
      by apply (IH (S k) mid id answer after). }
  destruct (once k) as [eff [o|]] eqn:E; simpl in *.
  - apply (Hin eff eq_refl). rewrite app_nil_r. rewrite Hshape in Heq. by injection Heq.
  - apply (Hin eff eq_refl). rewrite Hshape in Heq. by injection Heq.
Qed.

(** The poll a status request of the trace belongs to: its number, and the
    trace from the request on. *)
Lemma poll_suffix_once fuel k before id st after :
  (loop fuel k).1 = before ++ StatusPolled id (Ok st) :: after →
  ∃ fuel' j, getRoleStatus (status_endpoint roleId j) = Ok st
    ∧ StatusPolled id (Ok st) :: after
      = match once j with
        | (effects, Some outcome) => effects
        | (effects, None) => effects ++ (loop fuel' (S j)).1
        end.
Proof.
  intros Hsplit. apply poll_suffix in Hsplit as (fuel' & j & Hsuffix).
  exists fuel', j. rewrite poll_S in Hsuffix.
  destruct (poll_once_shape j) as (rest & Hshape & _).
  split.
  - destruct (once j) as [eff [o|]]; simpl in Hshape, Hsuffix;
      rewrite Hshape in Hsuffix; simpl in Hsuffix; congruence.
  - rewrite Hsuffix. by destruct (once j) as [eff [o|]].
Qed.

(** Every timer the loop arms has the same delay. *)
Lemma poll_timeouts fuel : ∀ k ms,
  TimeoutSet ms ∈ (loop fuel k).1 → ms = pollInterval.
Proof.
  assert (Hnote : ∀ j s ms, TimeoutSet ms ∈ note j s → False).
  { intros j s ms. rewrite notify_call. destruct onStatusChange.
    - rewrite list_elem_of_singleton. discriminate.
    - apply not_elem_of_nil. }
  induction fuel as [|fuel IH]; intros k ms Hin; [by apply not_elem_of_nil in Hin|].
  rewrite poll_S in Hin.
  destruct (poll_once_cases k)
    as [(st & Hst & H & Hr)|[(st & Hst & H & Hr)|[(st & Hst & H & Hr)
       |[(e & Hst)|(st & e & Hst & He)]]]].
  - rewrite (poll_once_processing k st Hst H Hr) in Hin. cbn [fst snd] in Hin.
    rewrite elem_of_app, elem_of_cons, elem_of_app, list_elem_of_singleton in Hin.
    destruct Hin as [[Hin|[Hin|Hin]]|Hin];
      [discriminate|by apply Hnote in Hin|congruence|by apply IH in Hin].
  - rewrite (poll_once_completed k st Hst H Hr) in Hin. cbn [fst] in Hin.
    rewrite elem_of_cons, elem_of_app, !elem_of_cons in Hin.
    destruct Hin as [Hin|[Hin|[Hin|[Hin|Hin]]]];
      [discriminate|by apply Hnote in Hin|discriminate|discriminate
      |by apply not_elem_of_nil in Hin].
  - rewrite (poll_once_failed k st Hst H Hr) in Hin. cbn [fst] in Hin.
    rewrite elem_of_cons, elem_of_app, list_elem_of_singleton in Hin.
    destruct Hin as [Hin|[Hin|Hin]]; [discriminate|by apply Hnote in Hin|discriminate].
  - rewrite (poll_once_throw k e Hst) in Hin. cbn [fst] in Hin.
    rewrite !elem_of_cons in Hin.
    destruct Hin as [Hin|[Hin|Hin]]; [discriminate|discriminate|by apply not_elem_of_nil in Hin].
  - rewrite (poll_once_callback_throws k st e Hst He) in Hin. cbn [fst] in Hin.
    rewrite elem_of_cons, elem_of_app, list_elem_of_singleton in Hin.
    destruct Hin as [Hin|[Hin|Hin]]; [discriminate|by apply Hnote in Hin|discriminate].
Qed.

(** As long as nothing has settled, every observed invocation polled. *)
Lemma poll_pending fuel : ∀ k,
  (loop fuel k).2 = None → length (filter (λ e, is_poll e = true) (loop fuel k).1) = fuel.
Proof.
  induction fuel as [|fuel IH]; intros k Hnone; [done|].
  rewrite poll_S in Hnone |- *.
  destruct (poll_once_shape k) as (rest & Hshape & Hrest).
  destruct (once k) as [eff [o|]] eqn:E; [done|]. simpl in *. subst eff.
  rewrite <- app_comm_cons, filter_cons_True by done. simpl. f_equal.
  rewrite filter_app, length_app, IH by done.
  replace (filter _ rest) with (@nil Effect); [done|].
  clear -Hrest. induction Hrest as [|e rest He _ IHrest]; [done|].
  rewrite filter_cons_False; [done|congruence].
Qed.

(** A pending loop saw only ['processing'] answers, and its callback
    returned each time. *)
Lemma poll_pending_inv fuel :
  ∀ k, (loop fuel k).2 = None →
    ∀ j, k ≤ j < k + fuel →
      (∃ st, getRoleStatus (status_endpoint roleId j) = Ok st
             ∧ ProcessingStatus.status st = processing)
      ∧ returns onStatusChange j processing.
Proof.
  induction fuel as [|fuel IH]; intros k Hnone j Hj; [lia|].
  rewrite poll_S in Hnone.
  destruct (poll_once_cases k)
    as [(st & Hst & H & Hr)|[(st & Hst & H & Hr)|[(st & Hst & H & Hr)
       |[(e & Hst)|(st & e & Hst & He)]]]].
  - rewrite (poll_once_processing k st Hst H Hr) in Hnone.
    destruct (decide (j = k)) as [->|Hne]; [eauto|]. apply (IH (S k)); [done|lia].
  - by rewrite (poll_once_completed k st Hst H Hr) in Hnone.
  - by rewrite (poll_once_failed k st Hst H Hr) in Hnone.
  - by rewrite (poll_once_throw k e Hst) in Hnone.
  - by rewrite (poll_once_callback_throws k st e Hst He) in Hnone.
Qed.
End WaitForRoleFacts.

Lemma js_or_carries (field : option string) (d : string) :
  (carries field → Some (js_or field d) = field) ∧ (¬ carries field → js_or field d = d).
Proof.
  unfold carries, js_or. destruct field as [s|].
  - destruct (decide (s = EmptyString)) as [->|Hs].
    + split; [intros (s & [= <-] & Hs); done|done].
    + split; [done|]. intros Hno. destruct Hno. eauto.
  - split; [intros (s & Hs & _); done|done].
Qed.

(** C1 (as amended): [waitForRole] resolves exactly when a poll it makes
    answers ['completed'], the callback (if any) returns for it, and the grid
    fetch that follows succeeds, and then with the fetched grid. On such a
    ['completed'] answer the only grid fetch is made under the identifier of
    the status response when it carries one, and under the supplied [roleId]
    otherwise; the promise settles with what that fetch gave: the grid, or
    the fetch's error. When the callback throws instead, nothing is fetched
    and the promise is rejected with the callback's error. *)
Theorem waitForRole_resolves_with_fetched_grid
    (status_endpoint : string → nat → result (Response ProcessingStatus.t))
    (role_endpoint : string → result (Response RoleDetail.t))
    (roleId : string) (onStatusChange : option Callback) (pollInterval : option nat) :
  (∀ fuel role,
     (waitForRole status_endpoint role_endpoint roleId onStatusChange pollInterval fuel).2
       = Some (Resolved role)
     ↔ ∃ n st, n < fuel ∧ reaches status_endpoint roleId n ∧ heard onStatusChange n
         ∧ getRoleStatus (status_endpoint roleId n) = Ok st
         ∧ ProcessingStatus.status st = completed
         ∧ returns onStatusChange n completed
         ∧ getRole (role_endpoint (js_or (ProcessingStatus.role_id st) roleId)) = Ok role)
  ∧ (∀ n st fuel,
       reaches status_endpoint roleId n →
       heard onStatusChange n →
       getRoleStatus (status_endpoint roleId n) = Ok st →
       ProcessingStatus.status st = completed →
       n < fuel →
       let finalRoleId := js_or (ProcessingStatus.role_id st) roleId in
       let fetched := getRole (role_endpoint finalRoleId) in
       let w := waitForRole status_endpoint role_endpoint roleId onStatusChange pollInterval fuel in
       (carries (ProcessingStatus.role_id st) → Some finalRoleId = ProcessingStatus.role_id st)
       ∧ (¬ carries (ProcessingStatus.role_id st) → finalRoleId = roleId)
       ∧ (returns onStatusChange n completed →
          (∀ id answer, RoleFetched id answer ∈ w.1 ↔ id = finalRoleId ∧ answer = fetched)
          ∧ w.2 = Some (match fetched with Ok role => Resolved role | Throw e => Rejected e end))
       ∧ (∀ e, (notify onStatusChange n completed).2 = Throw e →
          Forall (λ ev, is_fetch ev = false) w.1 ∧ w.2 = Some (Rejected e))).
Proof.
  assert (Hnote : ∀ k s, Forall (λ e, is_fetch e = false) (notify onStatusChange k s).1).
  { intros k s. rewrite notify_call. destruct onStatusChange; by repeat constructor. }
  assert (Hsettle : ∀ n st fuel,
    reaches status_endpoint roleId n →
    heard onStatusChange n →
    getRoleStatus (status_endpoint roleId n) = Ok st →
    ProcessingStatus.status st = completed →
    returns onStatusChange n completed →
    n < fuel →
    let finalRoleId := js_or (ProcessingStatus.role_id st) roleId in
    let fetched := getRole (role_endpoint finalRoleId) in
    let outcome := match fetched with Ok role => Resolved role | Throw e => Rejected e end in
    ∃ front, Forall (λ e, is_fetch e = false) front
      ∧ waitForRole status_endpoint role_endpoint roleId onStatusChange pollInterval fuel
        = (front ++ StatusPolled roleId (Ok st) :: (notify onStatusChange n completed).1
             ++ [RoleFetched finalRoleId fetched; Settled outcome], Some outcome)).
  { intros n st fuel Hreach Hheard Hst Hc Hr Hfuel. simpl.
    pose proof (poll_once_completed status_endpoint role_endpoint roleId onStatusChange
                  (default 2000 pollInterval) n st Hst Hc Hr) as Honce. simpl in Honce.
    destruct (poll_settles status_endpoint role_endpoint roleId onStatusChange
                (default 2000 pollInterval) n fuel _ Hreach Hheard (f_equal snd Honce) Hfuel)
      as (front & Hfront & Heq).
    exists front. split; [done|]. unfold waitForRole. by rewrite Heq, Honce. }
  split.
  - intros fuel role. split.
    + intros Hres. unfold waitForRole in Hres.
      apply poll_outcome_inv in Hres as (n & Hn & Hbefore & Hon).
      destruct (poll_once_cases status_endpoint roleId onStatusChange n)
        as [(st & Hst & H & Hr)|[(st & Hst & H & Hr)|[(st & Hst & H & Hr)
           |[(e & Hst)|(st & e & Hst & He)]]]].
      * by rewrite (poll_once_processing _ role_endpoint _ _ _ n st Hst H Hr) in Hon.
      * exists n, st. split; [lia|].
        split; [intros j Hj; apply Hbefore; lia|].
        split; [intros j Hj; apply Hbefore; lia|].
        do 3 (split; [done|]).
        rewrite (poll_once_completed _ role_endpoint _ _ _ n st Hst H Hr) in Hon. simpl in Hon.
        destruct (getRole _); congruence.
      * by rewrite (poll_once_failed _ role_endpoint _ _ _ n st Hst H Hr) in Hon.
      * by rewrite (poll_once_throw _ role_endpoint _ onStatusChange _ n e Hst) in Hon.
      * by rewrite (poll_once_callback_throws _ role_endpoint _ _ _ n st e Hst He) in Hon.
    + intros (n & st & Hfuel & Hreach & Hheard & Hst & Hc & Hr & Hrole).
      destruct (Hsettle n st fuel Hreach Hheard Hst Hc Hr Hfuel) as (front & _ & Heq).
      rewrite Heq. simpl. by rewrite Hrole.
  - intros n st fuel Hreach Hheard Hst Hc Hfuel finalRoleId fetched w.
    split; [apply js_or_carries|]. split; [apply js_or_carries|]. split.
    + intros Hr.
      destruct (Hsettle n st fuel Hreach Hheard Hst Hc Hr Hfuel) as (front & Hfront & Heq).
      subst w. rewrite Heq. simpl. split; [|done].
      intros id answer. rewrite elem_of_app, elem_of_cons, elem_of_app. split.
      * intros [Hin|[Hin|[Hin|Hin]]].
        -- rewrite Forall_forall in Hfront. by apply Hfront in Hin.
        -- done.
        -- specialize (Hnote n completed). rewrite Forall_forall in Hnote.
           by apply Hnote in Hin.
        -- rewrite elem_of_cons, list_elem_of_singleton in Hin.
           destruct Hin as [[= -> ->]|Hin]; done.
      * intros [-> ->]. right. right. right. by left.
    + intros e He. rewrite <- Hc in He.
      pose proof (poll_once_callback_throws status_endpoint role_endpoint roleId onStatusChange
                    (default 2000 pollInterval) n st e Hst He) as Honce.
      destruct (poll_settles status_endpoint role_endpoint roleId onStatusChange
                  (default 2000 pollInterval) n fuel _ Hreach Hheard (f_equal snd Honce) Hfuel)
        as (front & Hfront & Heq).
      subst w. unfold waitForRole. rewrite Heq, Honce. simpl. split; [|done].
      apply Forall_app. split; [done|].
      constructor; [done|]. apply Forall_app. split; [apply Hnote|by repeat constructor].
Qed.

(** Counterexample to C1 as stated: the first poll answers ['completed'], yet
    [waitForRole] never resolves, because the grid request is refused; it
    rejects with the error of [getRole]. *)
Lemma waitForRole_completed_but_rejected :
  (∃ st, getRoleStatus (GridUnavailable.status_endpoint "role-1" 0) = Ok st
         ∧ ProcessingStatus.status st = completed)
  ∧ (∀ fuel role,
       (waitForRole GridUnavailable.status_endpoint GridUnavailable.role_endpoint
                    "role-1" (Some observer) None fuel).2 ≠ Some (Resolved role))
  ∧ (waitForRole GridUnavailable.status_endpoint GridUnavailable.role_endpoint
                 "role-1" (Some observer) None 1).2 = Some (Rejected (Error "Failed to get role")).
Proof.
  split; [eexists; split; reflexivity|]. split; [|reflexivity].
  intros [|fuel] role; discriminate.
Qed.

Lemma waitForRole_resolves_with_fetched_grid_witness :
  reaches Recreated.status_endpoint "role-1" 1
  ∧ (RoleFetched "role-2" (Ok (empty_grid "role-2"))
       ∈ (waitForRole Recreated.status_endpoint Recreated.role_endpoint "role-1"
            (Some observer) None 2).1)
  ∧ (waitForRole Recreated.status_endpoint Recreated.role_endpoint "role-1"
       (Some observer) None 2).2
    = Some (Resolved (empty_grid "role-2"))
  ∧ (waitForRole Recreated.status_endpoint Recreated.role_endpoint "role-1"
       (Some (throws_on completed)) None 2).2
    = Some (Rejected (Error "onStatusChange failed")).
Proof.
  assert (Hreach : reaches Recreated.status_endpoint "role-1" 1).
  { intros j Hj. assert (j = 0) as -> by lia. eexists. split; reflexivity. }
  split; [exact Hreach|].
  destruct (proj2 (waitForRole_resolves_with_fetched_grid
              Recreated.status_endpoint Recreated.role_endpoint "role-1" (Some observer) None)
              1 (ProcessingStatus.mk (Some "role-2") completed None) 2
              Hreach (λ j _, eq_refl) eq_refl eq_refl ltac:(lia)) as (_ & _ & Hreturned & _).
  destruct (Hreturned eq_refl) as [Hfetch Hout].
  split; [apply Hfetch; split; reflexivity|]. split; [exact Hout|].
  destruct (proj2 (waitForRole_resolves_with_fetched_grid
              Recreated.status_endpoint Recreated.role_endpoint "role-1"
              (Some (throws_on completed)) None)
              1 (ProcessingStatus.mk (Some "role-2") completed None) 2
              Hreach (λ j _, eq_refl) eq_refl eq_refl ltac:(lia)) as (_ & _ & _ & Hthrown).
  exact (proj2 (Hthrown _ eq_refl)).
Defined.

(** C2 (as amended): when a poll that [waitForRole] makes answers ['failed']
    and the callback (if any) returns for it, the promise is rejected with an
    [Error] whose message is the message of the status response when it
    carries one and ['Role processing failed'] otherwise; when the callback
    throws on that status, the promise is rejected with the callback's error
    instead. In both cases the grid is never fetched. *)
Theorem waitForRole_rejects_on_failed
    (status_endpoint : string → nat → result (Response ProcessingStatus.t))
    (role_endpoint : string → result (Response RoleDetail.t))
    (roleId : string) (onStatusChange : option Callback) (pollInterval : option nat)
    (n : nat) (st : ProcessingStatus.t) (fuel : nat) :
  reaches status_endpoint roleId n →
  heard onStatusChange n →
  getRoleStatus (status_endpoint roleId n) = Ok st →
  ProcessingStatus.status st = failed →
  n < fuel →
  let w := waitForRole status_endpoint role_endpoint roleId onStatusChange pollInterval fuel in
  let message := js_or (ProcessingStatus.message st) "Role processing failed" in
  (returns onStatusChange n failed → w.2 = Some (Rejected (Error message)))
  ∧ (∀ e, (notify onStatusChange n failed).2 = Throw e → w.2 = Some (Rejected e))
  ∧ (carries (ProcessingStatus.message st) → Some message = ProcessingStatus.message st)
  ∧ (¬ carries (ProcessingStatus.message st) → message = "Role processing failed")
  ∧ Forall (λ e, is_fetch e = false) w.1.
Proof.
  intros Hreach Hheard Hst Hf Hfuel w message.
  assert (Hnote : Forall (λ e, is_fetch e = false) (notify onStatusChange n failed).1).
  { rewrite notify_call. destruct onStatusChange; by repeat constructor. }
  assert (Hcases :
    (returns onStatusChange n failed
     ∧ ∃ front, Forall (λ e, is_fetch e = false) front
         ∧ w = (front ++ StatusPolled roleId (Ok st) :: (notify onStatusChange n failed).1
                  ++ [Settled (Rejected (Error message))], Some (Rejected (Error message))))
    ∨ (∃ e, (notify onStatusChange n failed).2 = Throw e
         ∧ ∃ front, Forall (λ e, is_fetch e = false) front
             ∧ w = (front ++ StatusPolled roleId (Ok st) :: (notify onStatusChange n failed).1
                      ++ [Settled (Rejected e)], Some (Rejected e)))).
  { destruct (returns_or_throws onStatusChange n failed) as [Hr|[e He]]; [left|right].
    - split; [done|].
      pose proof (poll_once_failed status_endpoint role_endpoint roleId onStatusChange
                    (default 2000 pollInterval) n st Hst Hf Hr) as Honce. simpl in Honce.
      destruct (poll_settles status_endpoint role_endpoint roleId onStatusChange
                  (default 2000 pollInterval) n fuel _ Hreach Hheard (f_equal snd Honce) Hfuel)
        as (front & Hfront & Heq).
      exists front. split; [done|]. subst w. unfold waitForRole. by rewrite Heq, Honce.
    - exists e. split; [done|]. rewrite <- Hf in He.
      pose proof (poll_once_callback_throws status_endpoint role_endpoint roleId onStatusChange
                    (default 2000 pollInterval) n st e Hst He) as Honce.
      destruct (poll_settles status_endpoint role_endpoint roleId onStatusChange
                  (default 2000 pollInterval) n fuel _ Hreach Hheard (f_equal snd Honce) Hfuel)
        as (front & Hfront & Heq).
      exists front. split; [done|]. subst w. unfold waitForRole.
      rewrite Heq, Honce. by rewrite Hf. }
  assert (Hquiet : ∀ front outcome, Forall (λ e, is_fetch e = false) front →
    Forall (λ e, is_fetch e = false)
      (front ++ StatusPolled roleId (Ok st) :: (notify onStatusChange n failed).1
         ++ [Settled outcome])).
  { intros front outcome Hfront. apply Forall_app. split; [done|].
    constructor; [done|]. apply Forall_app. split; [done|by repeat constructor]. }
  unfold returns in *.
  destruct Hcases as [(Hr & front & Hfront & ->)|(e & He & front & Hfront & ->)]; simpl.
  - split; [done|]. split; [intros e He; congruence|].
    split; [apply js_or_carries|]. split; [apply js_or_carries|]. by apply Hquiet.
  - split; [intros Hr; congruence|]. split; [intros e' He'; congruence|].
    split; [apply js_or_carries|]. split; [apply js_or_carries|]. by apply Hquiet.
Qed.

(** Counterexample to C2 as stated: the second poll answers ['failed'] with a
    message, the callback throws when it is told so, and the promise is
    rejected with the callback's error, not with the message of the status
    response. *)
Lemma waitForRole_failed_but_callback_error :
  getRoleStatus (ExtractionFails.status_endpoint "role-1" 1)
    = Ok (ProcessingStatus.mk (Some "role-1") failed
            (Some "Could not extract text from the uploaded file"))
  ∧ (waitForRole ExtractionFails.status_endpoint ExtractionFails.role_endpoint
       "role-1" (Some (throws_on failed)) None 5).2
    = Some (Rejected (Error "onStatusChange failed"))
  ∧ (waitForRole ExtractionFails.status_endpoint ExtractionFails.role_endpoint
       "role-1" (Some (throws_on failed)) None 5).2
    ≠ Some (Rejected (Error "Could not extract text from the uploaded file")).
Proof. split; [reflexivity|]. split; [reflexivity|discriminate]. Qed.

Lemma waitForRole_rejects_on_failed_witness :
  (waitForRole ExtractionFails.status_endpoint ExtractionFails.role_endpoint
               "role-1" (Some observer) None 5).2
    = Some (Rejected (Error "Could not extract text from the uploaded file"))
  ∧ Forall (λ e, is_fetch e = false)
      (waitForRole ExtractionFails.status_endpoint ExtractionFails.role_endpoint
                   "role-1" (Some observer) None 5).1.
Proof.
  assert (Hreach : reaches ExtractionFails.status_endpoint "role-1" 1).
  { intros j Hj. assert (j = 0) as -> by lia. eexists. split; reflexivity. }
  destruct (waitForRole_rejects_on_failed
              ExtractionFails.status_endpoint ExtractionFails.role_endpoint "role-1"
              (Some observer) None
              1 (ProcessingStatus.mk (Some "role-1") failed
                   (Some "Could not extract text from the uploaded file")) 5
              Hreach (λ j _, eq_refl) eq_refl eq_refl ltac:(lia))
    as (Hout & _ & _ & _ & Hnofetch).
  split; [exact (Hout eq_refl)|exact Hnofetch].
Defined.

(** C3 (as amended): after every poll that answers ['processing'] the loop
    calls the callback (if any); when that call returns, it re-arms its timer
    with the same delay ([pollInterval], 2000 ms unless given) and the next
    thing it does is poll again; when the call throws, the promise is
    rejected with the callback's error and nothing follows. After a poll
    that answers ['completed'] or ['failed'] it neither polls nor arms a
    timer again. As long as nothing has settled, every invocation polled. *)
Theorem waitForRole_polls_until_terminal
    (status_endpoint : string → nat → result (Response ProcessingStatus.t))
    (role_endpoint : string → result (Response RoleDetail.t))
    (roleId : string) (onStatusChange : option Callback) (pollInterval : option nat)
    (fuel : nat) :
  let ms := default 2000 pollInterval in
  let w := waitForRole status_endpoint role_endpoint roleId onStatusChange pollInterval fuel in
  waitForRole status_endpoint role_endpoint roleId onStatusChange None fuel
    = waitForRole status_endpoint role_endpoint roleId onStatusChange (Some 2000) fuel
  ∧ (∀ before id st after,
       w.1 = before ++ StatusPolled id (Ok st) :: after →
       ProcessingStatus.status st = processing →
       ∃ k later,
         getRoleStatus (status_endpoint roleId k) = Ok st
         ∧ after = (notify onStatusChange k processing).1 ++ later
         ∧ (returns onStatusChange k processing →
            ∃ rest, later = TimeoutSet ms :: rest
              ∧ (rest = [] ∨ ∃ answer rest', rest = StatusPolled roleId answer :: rest'))
         ∧ (∀ e, (notify onStatusChange k processing).2 = Throw e →
            later = [Settled (Rejected e)]))
  ∧ (∀ before id st after,
       w.1 = before ++ StatusPolled id (Ok st) :: after →
       ProcessingStatus.status st ≠ processing →
       Forall (λ e, is_poll e = false ∧ is_timeout e = false) after)
  ∧ (∀ delay, TimeoutSet delay ∈ w.1 → delay = ms)
  ∧ (w.2 = None → length (filter (λ e, is_poll e = true) w.1) = fuel).
Proof.
  intros ms w. split; [done|].
  subst w. unfold waitForRole. fold ms. clearbody ms.
  assert (Hnote : ∀ k s, Forall (λ e, is_poll e = false ∧ is_timeout e = false)
                           (notify onStatusChange k s).1).
  { intros k s. rewrite notify_call. destruct onStatusChange; by repeat constructor. }
  split; [|split; [|split]].
  - intros before id st after Hsplit Hp.
    apply poll_suffix_once in Hsplit as (fuel' & j & Hst & Hsuffix).
    exists j. unfold returns.
    destruct (returns_or_throws onStatusChange j processing) as [Hr|[e He]].
    + rewrite (poll_once_processing _ role_endpoint _ onStatusChange ms j st Hst Hp Hr) in Hsuffix.
      simpl in Hsuffix. injection Hsuffix as _ ->.
      exists (TimeoutSet ms :: (poll status_endpoint role_endpoint roleId onStatusChange ms
                                  fuel' (S j)).1).
      split; [done|]. split; [by rewrite <- app_assoc|]. split; [|intros e He; congruence].
      intros _. eexists. split; [done|].
      destruct fuel' as [|fuel']; [by left|right].
      rewrite poll_S.
      destruct (poll_once_shape status_endpoint role_endpoint roleId onStatusChange ms (S j))
        as (rest' & Hshape' & _).
      destruct (poll_once _ _ _ _ _ (S j)) as [eff [o|]]; simpl in Hshape' |- *;
        rewrite Hshape'; simpl; eauto.
    + pose proof He as He'. rewrite <- Hp in He'.
      rewrite (poll_once_callback_throws _ role_endpoint _ onStatusChange ms j st e Hst He')
        in Hsuffix.
      rewrite Hp in Hsuffix. simpl in Hsuffix. injection Hsuffix as _ ->.
      exists [Settled (Rejected e)]. split; [done|]. split; [done|].
      split; [intros Hr; congruence|]. intros e' He''. congruence.
  - intros before id st after Hsplit Hterm.
    apply poll_suffix_once in Hsplit as (fuel' & j & Hst & Hsuffix).
    destruct (returns_or_throws onStatusChange j (ProcessingStatus.status st)) as [Hr|[e He]].
    + destruct (ProcessingStatus.status st) eqn:Hs; [done| |].
      * rewrite (poll_once_completed _ role_endpoint _ onStatusChange ms j st Hst Hs Hr)
          in Hsuffix.
        simpl in Hsuffix. injection Hsuffix as _ ->.
        apply Forall_app. split; [done|by repeat constructor].
      * rewrite (poll_once_failed _ role_endpoint _ onStatusChange ms j st Hst Hs Hr)
          in Hsuffix.
        simpl in Hsuffix. injection Hsuffix as _ ->.
        apply Forall_app. split; [done|by repeat constructor].
    + rewrite (poll_once_callback_throws _ role_endpoint _ onStatusChange ms j st e Hst He)
        in Hsuffix.
      simpl in Hsuffix. injection Hsuffix as _ ->.
      apply Forall_app. split; [done|by repeat constructor].
  - intros delay Hin. by apply poll_timeouts in Hin.
  - apply poll_pending.
Qed.

(** Counterexample to C3 as stated: the first poll answers ['processing'],
    the callback throws when it is told so, and the loop arms no timer and
    never polls again, however long it is observed: the promise is rejected
    with the callback's error. *)
Lemma waitForRole_stops_when_callback_throws :
  getRoleStatus (Recreated.status_endpoint "role-1" 0)
    = Ok (ProcessingStatus.mk (Some "role-1") processing None)
  ∧ ∀ fuel,
      waitForRole Recreated.status_endpoint Recreated.role_endpoint "role-1"
        (Some (throws_on processing)) None (S fuel)
      = ([StatusPolled "role-1" (Ok (ProcessingStatus.mk (Some "role-1") processing None));
          StatusChanged processing;
          Settled (Rejected (Error "onStatusChange failed"))],
         Some (Rejected (Error "onStatusChange failed"))).
Proof. split; [reflexivity|]. intros fuel. reflexivity. Qed.

Lemma waitForRole_polls_until_terminal_witness :
  (waitForRole Recreated.status_endpoint Recreated.role_endpoint "role-1"
     (Some observer) None 3).1
  = [StatusPolled "role-1" (Ok (ProcessingStatus.mk (Some "role-1") processing None));
     StatusChanged processing;
     TimeoutSet 2000;
     StatusPolled "role-1" (Ok (ProcessingStatus.mk (Some "role-2") completed None));
     StatusChanged completed;
     RoleFetched "role-2" (Ok (empty_grid "role-2"));
     Settled (Resolved (empty_grid "role-2"))]
  ∧ (∀ delay,
       TimeoutSet delay
         ∈ (waitForRole Recreated.status_endpoint Recreated.role_endpoint "role-1"
              (Some observer) None 3).1 →
       delay = 2000)
  ∧ ∃ rest,
      [TimeoutSet 2000;
       StatusPolled "role-1" (Ok (ProcessingStatus.mk (Some "role-2") completed None));
       StatusChanged completed;
       RoleFetched "role-2" (Ok (empty_grid "role-2"));
       Settled (Resolved (empty_grid "role-2"))]
      = TimeoutSet 2000 :: rest
      ∧ (rest = [] ∨ ∃ answer rest', rest = StatusPolled "role-1" answer :: rest').
Proof.
  split; [reflexivity|].
  pose proof (waitForRole_polls_until_terminal
                Recreated.status_endpoint Recreated.role_endpoint "role-1"
                (Some observer) None 3) as (_ & Hprocessing & _ & Hdelay & _).
  split; [exact Hdelay|].
  destruct (Hprocessing [] "role-1" (ProcessingStatus.mk (Some "role-1") processing None)
              _ eq_refl eq_refl) as (k & later & _ & Hafter & Hreturned & _).
  simpl in Hafter. injection Hafter as <-.
  exact (Hreturned eq_refl).
Defined.

(** ** The Role status (backend) *)

Lemma write_row_terminal requested msg r :
  Backend.terminal (Backend.status r) = true → Backend.write_row requested msg r = r.
Proof. destruct r as [row [] m]; done. Qed.

Lemma write_row_id requested msg r :
  Role.id (Backend.row (Backend.write_row requested msg r)) = Role.id (Backend.row r).
Proof. done. Qed.

(** One write keeps every row in place, keeps its identifier and keeps a
    terminal status. *)
Lemma apply_keeps_terminal op store i r :
  store !! i = Some r →
  ∃ r', Backend.apply store op !! i = Some r'
    ∧ Role.id (Backend.row r') = Role.id (Backend.row r)
    ∧ (Backend.terminal (Backend.status r) = true → Backend.status r' = Backend.status r).
Proof.
  intros Hi. destruct op as [new_id now company_id role_name|role_id requested msg]; simpl.
  - unfold Backend.submit_guide. rewrite lookup_app_l.
    2:{ rewrite length_fmap. by eapply lookup_lt_Some. }
    rewrite list_lookup_fmap, Hi. simpl. eexists. split; [done|].
    by case_decide.
  - unfold Backend.write_status. rewrite list_lookup_fmap, Hi. simpl.
    eexists. split; [done|]. case_decide; [|done].
    split; [done|]. intros Ht. by rewrite write_row_terminal.
Qed.

Lemma run_keeps_terminal ops : ∀ store i r,
  store !! i = Some r →
  ∃ r', Backend.run ops store !! i = Some r'
    ∧ Role.id (Backend.row r') = Role.id (Backend.row r)
    ∧ (Backend.terminal (Backend.status r) = true → Backend.status r' = Backend.status r).
Proof.
  induction ops as [|op ops IH]; intros store i r Hi; [by exists r|].
  destruct (apply_keeps_terminal op store i r Hi) as (r1 & H1 & Hid1 & Hs1).
  destruct (IH _ i r1 H1) as (r2 & H2 & Hid2 & Hs2).
  exists r2. split; [done|]. split; [congruence|].
  intros Ht. rewrite Hs2; [by apply Hs1|]. by rewrite Hs1.
Qed.

(** C4: the Role status is monotonic. Whatever writes reach the store, a Role
    that has reached ['completed'] or ['failed'] after some of them still has
    that status after all of them, so no write moves it back to
    ['processing']; the transition function keeps a terminal state; and a
    Role is created in state ['processing']. *)
Theorem role_status_monotonic (store : list Backend.RoleRow) :
  (∀ earlier later i r,
     Backend.run earlier store !! i = Some r →
     Backend.terminal (Backend.status r) = true →
     ∃ r', Backend.run (earlier ++ later) store !! i = Some r'
       ∧ Role.id (Backend.row r') = Role.id (Backend.row r)
       ∧ Backend.status r' = Backend.status r
       ∧ Backend.status r' ≠ processing)
  ∧ (∀ current requested,
       Backend.terminal current = true → Backend.transition current requested = current)
  ∧ (∀ new_id now company_id role_name,
       last (Backend.apply store (Backend.SubmitGuide new_id now company_id role_name))
       = Some (Backend.mkRoleRow (Role.mk new_id company_id role_name true now now)
                 processing None)).
Proof.
  split; [|split].
  - intros earlier later i r Hi Ht.
    unfold Backend.run. rewrite foldl_app.
    destruct (run_keeps_terminal later _ i r Hi) as (r' & Hr' & Hid & Hs).
    exists r'. split; [done|]. split; [done|]. split; [by apply Hs|].
    rewrite Hs by done. by destruct (Backend.status r).
  - by intros [] requested.
  - intros new_id now company_id role_name. simpl. unfold Backend.submit_guide.
    by rewrite last_snoc.
Qed.

Lemma role_status_monotonic_witness :
  Backend.run StaleWrites.earlier [] !! 0 = Some StaleWrites.failed_row
  ∧ ∃ r', Backend.run (StaleWrites.earlier ++ StaleWrites.later) [] !! 0 = Some r'
      ∧ Backend.status r' = failed.
Proof.
  split; [reflexivity|].
  destruct (proj1 (role_status_monotonic []) StaleWrites.earlier StaleWrites.later 0
              StaleWrites.failed_row eq_refl eq_refl) as (r' & Hr' & _ & Hs & _).
  exists r'. split; [exact Hr'|exact Hs].
Defined.

(** ** The results grid *)

(** C5, on a grid where it fails: no definition exists for level ["a-b"] and
    competency ["c"], yet their cell shows the requirement of another cell
    instead of the 'No data' placeholder, and a click on it opens that
    definition: both pairs have the map key ["a-b-c"]. The cell that does
    have the definition shows it without the examples hint. *)
Theorem grid_cell_shows_other_definition :
  (∀ d, d ∈ RoleDetail.definitions Collision.role →
        ¬ (DefinitionWithExamples.level_id d = "a-b"
           ∧ DefinitionWithExamples.competency_id d = "c"))
  ∧ Level.id <$> RoleDetail.levels Collision.role !! 1 = Some "a-b"
  ∧ Competency.id <$> RoleDetail.competencies Collision.role !! 1 = Some "c"
  ∧ ResultsView.content <$> ResultsView.grid_cell_at Collision.role 1 1
    = Some (ResultsView.cell_requirement "Owns small features" None)
  ∧ ResultsView.content <$> ResultsView.grid_cell_at Collision.role 1 1 ≠ Some ResultsView.no_data
  ∧ ResultsView.content <$> ResultsView.grid_cell_at Collision.role 0 0
    = Some (ResultsView.cell_requirement "Owns small features" None).
Proof.
  split.
  { intros d Hd [Hl _]. apply list_elem_of_singleton in Hd. by subst d. }
  repeat split; try by vm_compute.
Qed.

Lemma definition_key_inj l1 : ∀ l2 c1 c2,
  no_hyphen l1 = true → no_hyphen l2 = true →
  ResultsView.definition_key l1 c1 = ResultsView.definition_key l2 c2 →
  l1 = l2 ∧ c1 = c2.
Proof.
  unfold ResultsView.definition_key.
  induction l1 as [|a l1 IH]; intros [|b l2] c1 c2 H1 H2 Heq; simpl in H1, H2;
    unfold String.append in Heq; fold String.append in Heq.
  - by injection Heq as ->.
  - injection Heq as <- _. by rewrite decide_True in H2.
  - injection Heq as -> _. by rewrite decide_True in H1.
  - injection Heq as -> Heq. case_decide; [done|].
    destruct (IH l2 c1 c2 H1 H2 Heq) as [-> ->]. done.
Qed.

(** [definitionMap] holds, under each key, the last definition with it. *)
Lemma lookup_definitionMap definitions k :
  ResultsView.definitionMap definitions !! k
  = last (filter (λ d, ResultsView.definition_key (DefinitionWithExamples.level_id d)
                         (DefinitionWithExamples.competency_id d) = k) definitions).
Proof.
  unfold ResultsView.definitionMap.
  assert (Hgen : ∀ (m : gmap string DefinitionWithExamples.t),
    foldl (λ m def, <[ResultsView.definition_key (DefinitionWithExamples.level_id def)
                        (DefinitionWithExamples.competency_id def) := def]> m) m definitions !! k
    = match last (filter (λ d, ResultsView.definition_key (DefinitionWithExamples.level_id d)
                                 (DefinitionWithExamples.competency_id d) = k) definitions) with
      | Some d => Some d
      | None => m !! k
      end).
  { induction definitions as [|d defs IH]; intros m; [done|].
    simpl. rewrite IH. rewrite filter_cons. case_decide as Hk.
    - rewrite last_cons. destruct (last (filter _ defs)); [done|].
      by rewrite Hk, lookup_insert_eq.
    - destruct (last (filter _ defs)); [done|]. by rewrite lookup_insert_ne. }
  rewrite Hgen, lookup_empty. by destruct (last _).
Qed.

(** X22: for identifiers without ["-"] the key is unambiguous: the cell of a level
    and a competency shows the (last) definition of that pair, without the
    examples hint when it has no examples, and 'No data' when the pair has
    no definition. *)
Lemma grid_cell_without_hyphens (r : RoleDetail.t) (compIdx levelIdx : nat)
    (comp : Competency.t) (level : Level.t) :
  RoleDetail.competencies r !! compIdx = Some comp →
  RoleDetail.levels r !! levelIdx = Some level →
  no_hyphen (Level.id level) = true →
  (∀ d, d ∈ RoleDetail.definitions r → no_hyphen (DefinitionWithExamples.level_id d) = true) →
  ∃ cell, ResultsView.grid_cell_at r compIdx levelIdx = Some cell
    ∧ ResultsView.content cell
      = match last (definitions_for r (Level.id level) (Competency.id comp)) with
        | Some d =>
            ResultsView.cell_requirement (DefinitionWithExamples.definition d)
              (match DefinitionWithExamples.examples d with
               | [] => None
               | examples => Some (length examples)
               end)
        | None => ResultsView.no_data
        end.
Proof.
  intros Hcomp Hlevel Hl Hdefs.
  unfold ResultsView.grid_cell_at, ResultsView.render_grid.
  rewrite list_lookup_imap, Hcomp. simpl. rewrite list_lookup_imap, Hlevel. simpl.
  eexists. split; [done|]. unfold ResultsView.render_cell.
  rewrite lookup_definitionMap.
  replace (filter _ (RoleDetail.definitions r))
    with (definitions_for r (Level.id level) (Competency.id comp)).
  - destruct (last _) as [d|]; [|done]. simpl.
    by destruct (DefinitionWithExamples.examples d).
  - unfold definitions_for.
    induction (RoleDetail.definitions r) as [|d defs IH]; [done|].
    rewrite !filter_cons, IH by (intros d' Hd'; apply Hdefs; by right).
    assert (Hd : no_hyphen (DefinitionWithExamples.level_id d) = true)
      by (apply Hdefs; by left).
    assert (Hiff :
      ResultsView.definition_key (DefinitionWithExamples.level_id d)
        (DefinitionWithExamples.competency_id d)
      = ResultsView.definition_key (Level.id level) (Competency.id comp)
      ↔ DefinitionWithExamples.level_id d = Level.id level
        ∧ DefinitionWithExamples.competency_id d = Competency.id comp).
    { split; [intros Hk; by apply definition_key_inj in Hk|by intros [-> ->]]. }
    repeat case_decide; first [done | exfalso; tauto].
Qed.

(** The grid of the two-by-two ladder: three examples give the hint, an
    empty examples list gives the requirement alone, and the cell without a
    definition shows the placeholder. *)
Example ladder_grid :
  (λ row, ResultsView.content <$> ResultsView.cells row) <$> ResultsView.render_grid Ladder.role
  = [[ResultsView.cell_requirement "Owns small features" (Some 3);
      ResultsView.cell_requirement "Owns a service" None];
     [ResultsView.cell_requirement "Writes clear updates" (Some 1);
      ResultsView.no_data]].
Proof. by vm_compute. Qed.

(** ** The upload form *)

Lemma run_without_confirm_sends_no_upload net fuel evs : ∀ st,
  UploadForm.ConfirmReplace ∉ evs → UploadForm.Submit ∉ evs →
  Forall (λ q, UploadForm.is_upload q = false) (UploadForm.run net fuel st evs).2.
Proof.
  induction evs as [|ev evs IH]; intros st Hc Hs; [constructor|].
  apply not_elem_of_cons in Hc as [Hc1 Hc2]. apply not_elem_of_cons in Hs as [Hs1 Hs2].
  simpl. destruct (UploadForm.step net fuel st ev) as [st' sent] eqn:Hstep.
  specialize (IH st' Hc2 Hs2).
  destruct (UploadForm.run net fuel st' evs) as [st'' later]. simpl in *.
  apply Forall_app. split; [|done].
  destruct ev; try done; simpl in Hstep; injection Hstep as _ <-; constructor.
Qed.

Lemma doUpload_sends_upload net fuel st :
  ∃ sent, (UploadForm.doUpload net fuel st).2
          = UploadForm.CreateRole (UploadForm.file st) (UploadForm.companyUrl st)
              (UploadForm.roleName st) :: sent.
Proof.
  unfold UploadForm.doUpload. destruct (createRole _); [|by eexists].
  destruct (waitForRole _ _ _ _ _ _).2 as [[]|]; by eexists.
Qed.

(** Counterexample to C6 as stated: an active Role named Engineer exists, but the
    existence check is answered with an error, and the submit sends the upload
    without asking for confirmation. *)
Lemma handleSubmit_uploads_when_check_fails :
  Exists (λ r, Role.is_active (Backend.row r) = true ∧ Role.name (Backend.row r) = "Engineer")
         CheckDown.store
  ∧ (UploadForm.handleSubmit CheckDown.net 0 CheckDown.form).2
    = [UploadForm.CheckRoleExists "Engineer";
       UploadForm.CreateRole (Some CheckDown.guide) "https://acme.example" "Engineer";
       UploadForm.WaitForRole "role-2"]
  ∧ UploadForm.showConfirmOverwrite (UploadForm.handleSubmit CheckDown.net 0 CheckDown.form).1
    = false.
Proof. split; [by left|]. split; reflexivity. Qed.

(** C6 (as amended): a submit with the file, the company URL or the role name
    missing sets an error and sends no request. With all three present, if
    the existence check succeeds and reports an active Role of that name, the
    form asks for confirmation instead of uploading: it sends the check only,
    shows the prompt, and no upload is sent until the user confirms (or
    submits again), while confirming sends the upload. If the check fails or
    reports no such Role, the upload is sent at once. *)
Theorem handleSubmit_asks_before_overwrite
    (net : UploadForm.Network) (fuel : nat) (st : UploadForm.State) :
  (UploadForm.file st = None ∨ UploadForm.companyUrl st = EmptyString ∨ UploadForm.roleName st = EmptyString →
     UploadForm.handleSubmit net fuel st
     = (UploadForm.mkState (UploadForm.companyUrl st) (UploadForm.roleName st)
          (UploadForm.file st) (UploadForm.status st)
          (Some "Please fill in all fields and upload a file")
          (UploadForm.showConfirmOverwrite st) (UploadForm.existingRoleDate st)
          (UploadForm.navigated st), []))
  ∧ (UploadForm.file st ≠ None → UploadForm.companyUrl st ≠ EmptyString → UploadForm.roleName st ≠ EmptyString →
     ∀ check,
       checkRoleExists (UploadForm.check_endpoint net (UploadForm.roleName st)) = Ok check →
       RoleExistsCheck.exists_ check = true →
       let asked := (UploadForm.handleSubmit net fuel st).1 in
       (UploadForm.handleSubmit net fuel st).2 = [UploadForm.CheckRoleExists (UploadForm.roleName st)]
       ∧ UploadForm.showConfirmOverwrite asked = true
       ∧ UploadForm.existingRoleDate asked = RoleExistsCheck.created_at check
       ∧ UploadForm.file asked = UploadForm.file st
       ∧ UploadForm.companyUrl asked = UploadForm.companyUrl st
       ∧ UploadForm.roleName asked = UploadForm.roleName st
       ∧ (∀ evs, UploadForm.ConfirmReplace ∉ evs → UploadForm.Submit ∉ evs →
            Forall (λ q, UploadForm.is_upload q = false) (UploadForm.run net fuel asked evs).2)
       ∧ (∃ sent, (UploadForm.step net fuel asked UploadForm.ConfirmReplace).2
                  = UploadForm.CreateRole (UploadForm.file st) (UploadForm.companyUrl st)
                      (UploadForm.roleName st) :: sent))
  ∧ (UploadForm.file st ≠ None → UploadForm.companyUrl st ≠ EmptyString → UploadForm.roleName st ≠ EmptyString →
     (∃ e, checkRoleExists (UploadForm.check_endpoint net (UploadForm.roleName st)) = Throw e)
     ∨ (∃ check, checkRoleExists (UploadForm.check_endpoint net (UploadForm.roleName st)) = Ok check
                 ∧ RoleExistsCheck.exists_ check = false) →
     ∃ sent, (UploadForm.handleSubmit net fuel st).2
             = UploadForm.CheckRoleExists (UploadForm.roleName st)
               :: UploadForm.CreateRole (UploadForm.file st) (UploadForm.companyUrl st)
                    (UploadForm.roleName st) :: sent).
Proof.
  assert (Hpresent : UploadForm.file st ≠ None → UploadForm.companyUrl st ≠ EmptyString →
                     UploadForm.roleName st ≠ EmptyString →
    bool_decide (UploadForm.file st = None) || bool_decide (UploadForm.companyUrl st = EmptyString)
      || bool_decide (UploadForm.roleName st = EmptyString) = false).
  { intros. by rewrite !bool_decide_eq_false_2. }
  split; [|split].
  - intros Hmissing. unfold UploadForm.handleSubmit.
    replace (_ || _ || _) with true; [done|].
    symmetry. rewrite !orb_true_iff, !bool_decide_eq_true. tauto.
  - intros Hf Hu Hn check Hcheck Hexists asked. subst asked.
    unfold UploadForm.handleSubmit. rewrite Hpresent, Hcheck, Hexists by done. simpl.
    do 6 (split; [done|]). split.
    + intros evs. apply run_without_confirm_sends_no_upload.
    + match goal with
      | |- ∃ sent, (UploadForm.doUpload _ _ ?asked).2 = _ =>
          destruct (doUpload_sends_upload net fuel asked) as (sent & Hsent);
          exists sent; exact Hsent
      end.
  - intros Hf Hu Hn Hcheck. unfold UploadForm.handleSubmit. rewrite Hpresent by done.
    destruct (doUpload_sends_upload net fuel st) as (sent & Hsent).
    destruct Hcheck as [(e & ->)|(check & -> & ->)];
      destruct (UploadForm.doUpload net fuel st) as [st' sent']; simpl in *; subst sent';
      by eexists.
Qed.

Lemma handleSubmit_asks_before_overwrite_witness :
  (UploadForm.handleSubmit CheckUp.net 3 CheckDown.form).2 = [UploadForm.CheckRoleExists "Engineer"]
  ∧ UploadForm.showConfirmOverwrite (UploadForm.handleSubmit CheckUp.net 3 CheckDown.form).1 = true
  ∧ UploadForm.existingRoleDate (UploadForm.handleSubmit CheckUp.net 3 CheckDown.form).1
    = Some "2024-05-01T10:00:00".
Proof.
  destruct (proj1 (proj2 (handleSubmit_asks_before_overwrite CheckUp.net 3 CheckDown.form))
              ltac:(discriminate) ltac:(discriminate) ltac:(discriminate)
              (RoleExistsCheck.mk true (Some "role-1") (Some "2024-05-01T10:00:00"))
              eq_refl eq_refl) as (Hsent & Hshow & Hdate & _).
  split; [exact Hsent|]. split; [exact Hshow|exact Hdate].
Defined.

Lemma find_active_spec role_name store r :
  Backend.find_active role_name store = Some r →
  r ∈ store ∧ Role.is_active (Backend.row r) = true ∧ Role.name (Backend.row r) = role_name.
Proof.
  intros Hfind. apply find_some in Hfind as [Hin Hp].
  apply bool_decide_eq_true in Hp. by rewrite list_elem_of_In.
Qed.

Lemma roles_check_exists role_name store :
  RoleExistsCheck.exists_ (Backend.roles_check role_name store) = true
  ↔ ∃ r, r ∈ store ∧ Role.is_active (Backend.row r) = true
         ∧ Role.name (Backend.row r) = role_name.
Proof.
  unfold Backend.roles_check.
  destruct (Backend.find_active role_name store) as [r|] eqn:Hfind; simpl.
  - split; [intros _|done]. exists r. by apply find_active_spec.
  - split; [done|]. intros (r & Hin & Ha & Hn). exfalso.
    apply list_elem_of_In in Hin.
    pose proof (find_none _ _ Hfind r Hin) as Hp. simpl in Hp.
    by rewrite bool_decide_eq_true_2 in Hp.
Qed.

(** C7: the check-existence operation reports that a Role exists exactly
    when the store holds an active Role of that name, and then returns that
    Role's identifier and creation time; [checkRoleExists] hands this answer
    to the form, and on submit the form shows the overwrite prompt with that
    creation time as its date (formatted for the locale), before any upload
    is sent. *)
Theorem check_existence_feeds_prompt
    (toLocaleDateString : string → string)
    (store : list Backend.RoleRow) (net : UploadForm.Network) (fuel : nat)
    (st : UploadForm.State) :
  (∀ role_name,
     RoleExistsCheck.exists_ (Backend.roles_check role_name store) = true
     ↔ ∃ r, r ∈ store ∧ Role.is_active (Backend.row r) = true
            ∧ Role.name (Backend.row r) = role_name)
  ∧ (∀ r,
       Backend.find_active (UploadForm.roleName st) store = Some r →
       UploadForm.check_endpoint net (UploadForm.roleName st)
         = Ok (mkResponse true (Backend.roles_check (UploadForm.roleName st) store)) →
       UploadForm.file st ≠ None → UploadForm.companyUrl st ≠ EmptyString →
       UploadForm.roleName st ≠ EmptyString →
       let created_at := Role.created_at (Backend.row r) in
       (r ∈ store ∧ Role.is_active (Backend.row r) = true
        ∧ Role.name (Backend.row r) = UploadForm.roleName st)
       ∧ checkRoleExists (UploadForm.check_endpoint net (UploadForm.roleName st))
         = Ok (RoleExistsCheck.mk true (Some (Role.id (Backend.row r))) (Some created_at))
       ∧ UploadForm.render_confirm_overwrite toLocaleDateString
           (UploadForm.handleSubmit net fuel st).1
         = Some (UploadForm.mkConfirmOverwrite (UploadForm.roleName st)
                   (if decide (created_at = EmptyString) then "a previous date"
                    else toLocaleDateString created_at))
       ∧ Forall (λ q, UploadForm.is_upload q = false) (UploadForm.handleSubmit net fuel st).2).
Proof.
  split; [intros role_name; apply roles_check_exists|].
  intros r Hfind Hnet Hf Hu Hn created_at.
  split; [by apply find_active_spec|].
  assert (Hcheck : checkRoleExists (UploadForm.check_endpoint net (UploadForm.roleName st))
                   = Ok (RoleExistsCheck.mk true (Some (Role.id (Backend.row r)))
                           (Some created_at))).
  { rewrite Hnet. unfold Backend.roles_check. by rewrite Hfind. }
  split; [done|].
  unfold UploadForm.handleSubmit.
  rewrite !bool_decide_eq_false_2 by done. simpl. rewrite Hcheck. simpl.
  split; [done|by repeat constructor].
Qed.

Lemma check_existence_feeds_prompt_witness :
  UploadForm.render_confirm_overwrite (λ date, "on " +:+ date)
    (UploadForm.handleSubmit CheckUp.net 3 CheckDown.form).1
  = Some (UploadForm.mkConfirmOverwrite "Engineer" "on 2024-05-01T10:00:00").
Proof.
  destruct (proj2 (check_existence_feeds_prompt (λ date, "on " +:+ date)
                     CheckDown.store CheckUp.net 3 CheckDown.form)
              (Backend.mkRoleRow
                 (Role.mk "role-1" "acme" "Engineer" true
                    "2024-05-01T10:00:00" "2024-05-01T10:00:00") completed None)
              eq_refl eq_refl ltac:(discriminate) ltac:(discriminate) ltac:(discriminate))
    as (_ & _ & Hprompt & _).
  exact Hprompt.
Defined.

(** ** The dashboard *)

Lemma cards_of_render_guides toLocaleDateString st :
  Dashboard.cards_of (Dashboard.render_guides toLocaleDateString st)
  = Dashboard.guide_card toLocaleDateString <$> Dashboard.activeRoles st.
Proof.
  unfold Dashboard.render_guides. case_decide as Hlen; [|done].
  apply nil_length_inv in Hlen. by rewrite Hlen.
Qed.

(** C8 (as amended): once the role list and the request list have both been
    fetched, the Leveling Guides section of the dashboard shows one card per
    role whose [is_active] flag is true, in the order of the list: every
    active role has its card, every card is the card of an active role, and
    where identifiers are not shared no card carries the identifier of a
    deactivated role. When the request list cannot be fetched, the roles that
    the list endpoint returned are not stored: the section shows its empty
    state under the error 'Failed to load data'. *)
Theorem dashboard_lists_active_roles
    (toLocaleDateString : string → string) (auth : Dashboard.Auth)
    (rolesAnswer : result (Response (list Role.t)))
    (nudgesAnswer : result (Response (list Nudge.t)))
    (rolesData : list Role.t) (signed_in : User.t) (employer : Company.t) :
  Dashboard.user auth = Some signed_in →
  Dashboard.company auth = Some employer →
  Dashboard.isLoading auth = false →
  getRoles rolesAnswer = Ok rolesData →
  let st := Dashboard.fetchData rolesAnswer nudgesAnswer Dashboard.initial in
  (∀ nudgesData, getNudges nudgesAnswer = Ok nudgesData →
     ∃ guides,
       Dashboard.render toLocaleDateString auth st = Dashboard.dashboard_page None guides
       ∧ Dashboard.cards_of guides
         = Dashboard.guide_card toLocaleDateString
             <$> filter (λ r, Role.is_active r = true) rolesData
       ∧ (∀ r, r ∈ rolesData → Role.is_active r = true →
               Dashboard.guide_card toLocaleDateString r ∈ Dashboard.cards_of guides)
       ∧ (∀ card, card ∈ Dashboard.cards_of guides →
            ∃ r, r ∈ rolesData ∧ Role.is_active r = true
                 ∧ card = Dashboard.guide_card toLocaleDateString r)
       ∧ (∀ r, r ∈ rolesData → Role.is_active r = false →
            (∀ r', r' ∈ rolesData → Role.id r' = Role.id r → r' = r) →
            ∀ card, card ∈ Dashboard.cards_of guides → Dashboard.key card ≠ Role.id r))
  ∧ (∀ e, getNudges nudgesAnswer = Throw e →
       Dashboard.render toLocaleDateString auth st
       = Dashboard.dashboard_page (Some "Failed to load data") Dashboard.empty_state).
Proof.
  intros Huser Hcompany Hloading Hroles st. split.
  - intros nudgesData Hnudges.
    assert (Hst : st = Dashboard.mkState rolesData nudgesData false None).
    { subst st. unfold Dashboard.fetchData. by rewrite Hroles, Hnudges. }
    exists (Dashboard.render_guides toLocaleDateString st).
    assert (Hcards : Dashboard.cards_of (Dashboard.render_guides toLocaleDateString st)
              = Dashboard.guide_card toLocaleDateString
                  <$> filter (λ r, Role.is_active r = true) rolesData).
    { rewrite cards_of_render_guides. by rewrite Hst. }
    assert (Hfrom : ∀ card,
              card ∈ Dashboard.cards_of (Dashboard.render_guides toLocaleDateString st) →
              ∃ r, r ∈ rolesData ∧ Role.is_active r = true
                   ∧ card = Dashboard.guide_card toLocaleDateString r).
    { intros card. rewrite Hcards, list_elem_of_fmap.
      intros (r & -> & Hr). apply list_elem_of_filter in Hr as [Ha Hin]. eauto. }
    split; [|split; [done|split; [|split; [done|]]]].
    + unfold Dashboard.render. rewrite Hloading, Huser, Hcompany. by rewrite Hst.
    + intros r Hin Ha. rewrite Hcards. apply list_elem_of_fmap_2.
      by apply list_elem_of_filter.
    + intros r Hin Hinactive Hunique card Hcard Hkey.
      destruct (Hfrom card Hcard) as (r' & Hin' & Ha' & ->). simpl in Hkey.
      rewrite (Hunique r' Hin' Hkey) in Ha'. congruence.
  - intros e Hnudges.
    assert (Hst : st = Dashboard.mkState [] [] false (Some "Failed to load data")).
    { subst st. unfold Dashboard.fetchData. by rewrite Hroles, Hnudges. }
    unfold Dashboard.render. rewrite Hloading, Huser, Hcompany. by rewrite Hst.
Qed.

(** Counterexample to C8 as stated: the list endpoint returns an active
    role, but the request list is refused, and the guides section shows its
    empty state: the active role has no card. *)
Lemma dashboard_drops_roles_when_nudges_fail :
  getRoles (Ok (mkResponse true Acme.rolesData)) = Ok Acme.rolesData
  ∧ Acme.new_guide ∈ Acme.rolesData
  ∧ Role.is_active Acme.new_guide = true
  ∧ Dashboard.render (λ date, date) Acme.auth
      (Dashboard.fetchData (Ok (mkResponse true Acme.rolesData))
         (Ok (mkResponse false [])) Dashboard.initial)
    = Dashboard.dashboard_page (Some "Failed to load data") Dashboard.empty_state.
Proof.
  split; [reflexivity|]. split; [|split; reflexivity].
  apply list_elem_of_In. simpl. tauto.
Qed.

Lemma dashboard_lists_active_roles_witness :
  (∃ guides,
     Dashboard.render (λ date, date) Acme.auth
       (Dashboard.fetchData (Ok (mkResponse true Acme.rolesData))
          (Ok (mkResponse true Acme.nudgesData)) Dashboard.initial)
     = Dashboard.dashboard_page None guides
     ∧ Dashboard.cards_of guides
       = [Dashboard.mkGuideCard "role-2" "/role/role-2" "Engineer"
            "Created 2024-06-01T09:00:00"])
  ∧ Dashboard.render (λ date, date) Acme.auth
      (Dashboard.fetchData (Ok (mkResponse true Acme.rolesData))
         (Ok (mkResponse false Acme.nudgesData)) Dashboard.initial)
    = Dashboard.dashboard_page (Some "Failed to load data") Dashboard.empty_state.
Proof.
  split.
  - destruct (proj1 (dashboard_lists_active_roles (λ date, date) Acme.auth
                (Ok (mkResponse true Acme.rolesData)) (Ok (mkResponse true Acme.nudgesData))
                Acme.rolesData Acme.boss Acme.acme eq_refl eq_refl eq_refl eq_refl)
                Acme.nudgesData eq_refl)
      as (guides & Hrender & Hcards & _).
    exists guides. split; [exact Hrender|exact Hcards].
  - exact (proj2 (dashboard_lists_active_roles (λ date, date) Acme.auth
             (Ok (mkResponse true Acme.rolesData)) (Ok (mkResponse false Acme.nudgesData))
             Acme.rolesData Acme.boss Acme.acme eq_refl eq_refl eq_refl eq_refl)
             (Error "Failed to get requests") eq_refl).
Defined.

(** C10: when the update request succeeds, the local list keeps its length
    and order, each nudge whose id is [nudgeId] is replaced by a copy that has
    the new status and agrees with it in every other field, every other nudge
    is unchanged, and nothing else in the state changes; when the request
    fails, the list is unchanged and only the error message is set. *)
Theorem handleNudgeAction_changes_one_nudge
    (answer : result (Response Nudge.t)) (nudgeId : string) (status : NudgeStatus)
    (st : Dashboard.State) :
  (∀ updated, updateNudge answer = Ok updated →
     let st' := Dashboard.handleNudgeAction answer nudgeId status st in
     length (Dashboard.nudges st') = length (Dashboard.nudges st)
     ∧ (∀ i n, Dashboard.nudges st !! i = Some n →
          ∃ n', Dashboard.nudges st' !! i = Some n'
            ∧ (Nudge.id n = nudgeId → Nudge.status n' = status ∧ same_but_status n n')
            ∧ (Nudge.id n ≠ nudgeId → n' = n))
     ∧ Dashboard.roles st' = Dashboard.roles st
     ∧ Dashboard.loadingData st' = Dashboard.loadingData st
     ∧ Dashboard.error st' = Dashboard.error st)
  ∧ (∀ e, updateNudge answer = Throw e →
       Dashboard.handleNudgeAction answer nudgeId status st
       = Dashboard.mkState (Dashboard.roles st) (Dashboard.nudges st)
           (Dashboard.loadingData st) (Some "Failed to update request")).
Proof.
  unfold Dashboard.handleNudgeAction. split.
  - intros updated ->. simpl. split; [by rewrite length_fmap|]. split; [|done].
    intros i n Hi. rewrite list_lookup_fmap, Hi. simpl. eexists. split; [done|].
    case_decide as Hid.
    + split; [intros _; split; [done|by repeat split]|done].
    + by split.
  - by intros e ->.
Qed.

Lemma handleNudgeAction_changes_one_nudge_witness :
  (∃ n', Dashboard.nudges
           (Dashboard.handleNudgeAction
              (Ok (mkResponse true (Dashboard.with_status fulfilled (Acme.nudge "n2" "Engineer"))))
              "n2" fulfilled Acme.st) !! 1 = Some n'
         ∧ Nudge.status n' = fulfilled
         ∧ same_but_status (Acme.nudge "n2" "Engineer") n')
  ∧ Dashboard.handleNudgeAction (Ok (mkResponse false (Acme.nudge "n2" "Engineer")))
      "n2" fulfilled Acme.st
    = Dashboard.mkState Acme.rolesData Acme.nudgesData false (Some "Failed to update request").
Proof.
  split.
  - destruct (proj1 (handleNudgeAction_changes_one_nudge
                (Ok (mkResponse true (Dashboard.with_status fulfilled (Acme.nudge "n2" "Engineer"))))
                "n2" fulfilled Acme.st) _ eq_refl) as (_ & Hat & _).
    destruct (Hat 1 (Acme.nudge "n2" "Engineer") eq_refl) as (n' & Hn' & Hsame & _).
    exists n'. split; [exact Hn'|]. exact (Hsame eq_refl).
  - exact (proj2 (handleNudgeAction_changes_one_nudge
             (Ok (mkResponse false (Acme.nudge "n2" "Engineer"))) "n2" fulfilled Acme.st)
             (Error "Failed to update request") eq_refl).
Defined.

(** ** The modal of the results view *)

Lemma js_index_in_range {A : Type} (arr : list A) (i : Z) :
  (0 ≤ i < js_length arr)%Z → ∃ x, js_index arr i = Some x ∧ x ∈ arr.
Proof.
  intros Hi. unfold js_index, js_length in *. rewrite decide_True by lia.
  destruct (lookup_lt_is_Some_2 arr (Z.to_nat i)) as [x Hx]; [lia|].
  exists x. split; [done|]. by eapply list_elem_of_lookup_2.
Qed.

Lemma navigate_target_wrapped d levels competencies levelIdx compIdx :
  (0 ≤ levelIdx < levels)%Z → (0 ≤ compIdx < competencies)%Z →
  ResultsView.navigate_target d levels competencies levelIdx compIdx
  = wrapped_target d levels competencies levelIdx compIdx
  ∧ (0 ≤ (wrapped_target d levels competencies levelIdx compIdx).1 < levels)%Z
  ∧ (0 ≤ (wrapped_target d levels competencies levelIdx compIdx).2 < competencies)%Z.
Proof.
  intros Hl Hc. unfold ResultsView.navigate_target, wrapped_target.
  destruct d.
  - destruct (Z.ltb_spec (levelIdx - 1) 0), (Z.ltb_spec (compIdx - 1) 0);
      repeat case_decide; simpl; repeat split; try lia; try (f_equal; lia).
  - destruct (Z.geb_spec (levelIdx + 1) levels), (Z.geb_spec (compIdx + 1) competencies);
      repeat case_decide; simpl; repeat split; try lia; try (f_equal; lia).
Qed.

(** With both the level and the competency at hand, the search is an
    ordinary [find] and does not throw. *)
Lemma find_definition_found definitions level comp :
  ResultsView.find_definition definitions (Some level) (Some comp)
  = Ok (List.find (λ d, bool_decide (defines level comp d)) definitions).
Proof.
  induction definitions as [|d defs IH]; [done|]. simpl. unfold defines at 1.
  destruct (decide (DefinitionWithExamples.level_id d = Level.id level)) as [Hl|Hl].
  - destruct (decide (DefinitionWithExamples.competency_id d = Competency.id comp)) as [Hc|Hc].
    + by rewrite bool_decide_eq_true_2.
    + rewrite bool_decide_eq_false_2 by tauto. done.
  - rewrite bool_decide_eq_false_2 by tauto. done.
Qed.

(** From a state that satisfies [modal_ok], a navigation does not throw: it
    looks up the wrapped target, which is a position of the grid. *)
Lemma navigateModal_find r st d md :
  modal_ok r st → ResultsView.modalData st = Some md →
  let t := wrapped_target d (js_length (RoleDetail.levels r))
             (js_length (RoleDetail.competencies r))
             (ResultsView.levelIdx md) (ResultsView.compIdx md) in
  ∃ level comp,
    js_index (RoleDetail.levels r) t.1 = Some level
    ∧ js_index (RoleDetail.competencies r) t.2 = Some comp
    ∧ (0 ≤ t.1 < js_length (RoleDetail.levels r))%Z
    ∧ (0 ≤ t.2 < js_length (RoleDetail.competencies r))%Z
    ∧ ResultsView.navigateModal d st
      = match List.find (λ def, bool_decide (defines level comp def))
                (RoleDetail.definitions r) with
        | Some newDef =>
            Ok (ResultsView.mkState (Some r) (ResultsView.loading st) (ResultsView.error st)
                  (Some (ResultsView.mkModalData newDef (Level.name level)
                           (Competency.name comp) t.1 t.2)) false)
        | None => Ok st
        end.
Proof.
  intros [Hrole Hmodal] Hmd t. destruct (Hmodal md Hmd) as (_ & Hl & Hc).
  destruct (navigate_target_wrapped d _ _ _ _ Hl Hc) as (Htarget & Hl' & Hc').
  fold t in Htarget, Hl', Hc'.
  destruct (js_index_in_range _ _ Hl') as (level & Hlevel & _).
  destruct (js_index_in_range _ _ Hc') as (comp & Hcomp & _).
  exists level, comp. do 4 (split; [done|]).
  unfold ResultsView.navigateModal. rewrite Hmd, Hrole, Htarget.
  destruct t as [l c]. simpl in *. rewrite Hlevel, Hcomp, find_definition_found.
  by destruct (List.find _ _).
Qed.

Lemma find_defines level comp definitions :
  match List.find (λ def, bool_decide (defines level comp def)) definitions with
  | Some newDef => newDef ∈ definitions ∧ defines level comp newDef
  | None => ∀ def, def ∈ definitions → ¬ defines level comp def
  end.
Proof.
  destruct (List.find _ _) as [newDef|] eqn:Hfind.
  - apply find_some in Hfind as [Hin Hp]. apply bool_decide_eq_true in Hp.
    by apply list_elem_of_In in Hin.
  - intros def Hin Hdef. apply list_elem_of_In in Hin.
    pose proof (find_none _ _ Hfind def Hin) as Hp. simpl in Hp.
    by rewrite bool_decide_eq_true_2 in Hp.
Qed.

Lemma navigateModal_ok r st d :
  modal_ok r st → ∃ st', ResultsView.navigateModal d st = Ok st' ∧ modal_ok r st'.
Proof.
  intros Hok. destruct (ResultsView.modalData st) as [md|] eqn:Hmd.
  - destruct (navigateModal_find r st d md Hok Hmd) as (level & comp & _ & _ & Hl & Hc & ->).
    pose proof (find_defines level comp (RoleDetail.definitions r)) as Hfind.
    destruct (List.find _ _) as [newDef|]; [|by exists st].
    eexists. split; [done|]. split; [done|].
    intros md' [= <-]. simpl. by destruct Hfind.
  - exists st. split; [|done]. unfold ResultsView.navigateModal. by rewrite Hmd.
Qed.

(** A click on a cell opens a definition of the Role at that cell's
    position. *)
Lemma grid_cell_on_click r row column cell md :
  ResultsView.grid_cell_at r row column = Some cell →
  ResultsView.on_click cell = Some md →
  ResultsView.definition md ∈ RoleDetail.definitions r
  ∧ (0 ≤ ResultsView.levelIdx md < js_length (RoleDetail.levels r))%Z
  ∧ (0 ≤ ResultsView.compIdx md < js_length (RoleDetail.competencies r))%Z.
Proof.
  unfold ResultsView.grid_cell_at, ResultsView.render_grid. rewrite list_lookup_imap.
  destruct (RoleDetail.competencies r !! row) as [comp|] eqn:Hcomp; [|done]. simpl.
  rewrite list_lookup_imap.
  destruct (RoleDetail.levels r !! column) as [level|] eqn:Hlevel; [|done]. simpl.
  intros [= <-]. unfold ResultsView.render_cell. rewrite lookup_definitionMap.
  destruct (last _) as [def|] eqn:Hlast; [|done]. simpl. intros [= <-]. simpl.
  apply lookup_lt_Some in Hcomp, Hlevel. unfold js_length.
  split; [|lia].
  apply last_Some in Hlast as [front Hfront].
  assert (Hin : def ∈ front ++ [def]) by (apply elem_of_app; right; by left).
  rewrite <- Hfront in Hin. by apply list_elem_of_filter in Hin as [_ Hin].
Qed.

Lemma step_ok r st ev :
  modal_ok r st → ∃ st', ResultsView.step st ev = Ok st' ∧ modal_ok r st'.
Proof.
  intros Hok. pose proof Hok as [Hrole Hmodal]. destruct ev as [row column|d| |on]; simpl.
  - rewrite Hrole.
    destruct (ResultsView.grid_cell_at r row column) as [cell|] eqn:Hcell; [|by exists st].
    destruct (ResultsView.on_click cell) as [md|] eqn:Hclick; [|by exists st].
    eexists. split; [done|]. split; [done|].
    intros md' [= <-]. simpl. by eapply grid_cell_on_click.
  - destruct (ResultsView.compareMode st); [by exists st|]. by apply navigateModal_ok.
  - eexists. split; [done|]. by split.
  - destruct (ResultsView.modalData st) as [md|] eqn:Hmd; [|by exists st].
    eexists. split; [done|]. split; [done|]. simpl. intros md' Hmd'. by apply Hmodal.
Qed.

Lemma run_ok r evs : ∀ st,
  modal_ok r st → ∃ st', ResultsView.run st evs = Ok st' ∧ modal_ok r st'.
Proof.
  induction evs as [|ev evs IH]; intros st Hok; [by exists st|].
  destruct (step_ok r st ev Hok) as (st1 & Hstep & Hok1).
  simpl. rewrite Hstep. by apply IH.
Qed.

(** The effect leaves the modal alone, and the Role too unless it stores
    one. *)
Lemma fetchRole_keeps role_endpoint roleId st :
  let st' := ResultsPage.fetchRole role_endpoint roleId st in
  ResultsView.modalData st' = ResultsView.modalData st
  ∧ (ResultsView.role st' = ResultsView.role st
     ∨ ∃ id, roleId = Some id ∧ id ≠ EmptyString
         ∧ ∃ data, getRole (role_endpoint id) = Ok data).
Proof.
  unfold ResultsPage.fetchRole. destruct roleId as [id|]; [|by split; [|left]].
  case_decide as Hid; [by split; [|left]|].
  destruct (getRole (role_endpoint id)) as [data|e] eqn:Hget.
  - split; [done|]. right. exists id. eauto.
  - by split; [|left].
Qed.

Lemma page_step_ok st ev :
  page_ok st →
  ResultsPage.modal_closed_at_loads st [ev] = true →
  ∃ st', ResultsPage.step st ev = Ok st' ∧ page_ok st'.
Proof.
  intros Hok Hclosed.
  assert (Huser : ∀ uev, ∃ st', ResultsView.step st uev = Ok st' ∧ page_ok st').
  { intros uev. destruct Hok as [Hnone|[r Hr]].
    - destruct (ResultsView.role st) as [r|] eqn:Hrole.
      + destruct (step_ok r st uev) as (st' & Hstep & Hok').
        { split; [done|]. intros md Hmd. congruence. }
        exists st'. split; [done|]. right. by exists r.
      + exists (match uev with ResultsView.CloseModal => ResultsView.closeModal st | _ => st end).
        split; [|by left; destruct uev].
        destruct uev as [row column|d| |on]; simpl.
        * by rewrite Hrole.
        * unfold ResultsView.navigateModal. rewrite Hnone. by destruct (ResultsView.compareMode st).
        * done.
        * by rewrite Hnone.
    - destruct (step_ok r st uev Hr) as (st' & Hstep & Hok').
      exists st'. split; [done|]. right. by exists r. }
  destruct ev as [roleId fetched|uev].
  - eexists. split; [done|].
    destruct (fetchRole_keeps (λ _, fetched) roleId st) as [Hmodal Hrole].
    simpl in Hclosed. rewrite andb_true_r in Hclosed.
    destruct Hok as [Hnone|[r [Hr Hlisted]]]; [left; congruence|].
    destruct Hrole as [Hrole|(id & -> & Hid & data & Hdata)].
    + right. exists r. split; [congruence|]. intros md Hmd. apply Hlisted. congruence.
    + left. rewrite Hmodal. simpl in Hclosed. rewrite Hdata in Hclosed.
      rewrite decide_False in Hclosed by done. simpl in Hclosed.
      by destruct (ResultsView.modalData st).
  - assert (Hstay : ∃ st', Ok st = Ok st' ∧ page_ok st') by (by exists st).
    destruct uev as [row column|d| |on]; cbn [ResultsPage.step]; try apply Huser;
      destruct (ResultsPage.view st); first [apply Huser|exact Hstay].
Qed.

Lemma page_run_ok evs : ∀ st,
  page_ok st →
  ResultsPage.modal_closed_at_loads st evs = true →
  ∃ st', ResultsPage.run st evs = Ok st' ∧ page_ok st'.
Proof.
  induction evs as [|ev evs IH]; intros st Hok Hclosed; [by exists st|].
  simpl in Hclosed. apply andb_true_iff in Hclosed as [Hev Hrest].
  destruct (page_step_ok st ev Hok) as (st1 & Hstep & Hok1).
  { simpl. rewrite Hev. by destruct (ResultsPage.step st ev). }
  simpl. rewrite Hstep in Hrest |- *. by apply IH.
Qed.




(** * Further properties *)

(** ** waitForRole: what else the loop does *)

(** X1: [waitForRole] has no limit on the number of polls: after any number
    of observed polls the promise is still pending exactly when every one of
    them answered ['processing'] and the callback (if any) returned from
    every call. *)
Theorem waitForRole_pending_while_processing
    (status_endpoint : string → nat → result (Response ProcessingStatus.t))
    (role_endpoint : string → result (Response RoleDetail.t))
    (roleId : string) (onStatusChange : option Callback) (pollInterval : option nat)
    (fuel : nat) :
  (waitForRole status_endpoint role_endpoint roleId onStatusChange pollInterval fuel).2 = None
  ↔ reaches status_endpoint roleId fuel ∧ heard onStatusChange fuel.
Proof.
  unfold waitForRole. split.
  - intros Hnone.
    split; intros j Hj; eapply poll_pending_inv; first [exact Hnone|lia].
  - intros [Hreach Hheard].
    destruct (poll_skip status_endpoint role_endpoint roleId onStatusChange
                (default 2000 pollInterval) fuel 0 0) as (front & _ & Heq).
    { intros j Hj. split; [apply Hreach|apply Hheard]; lia. }
    rewrite Nat.add_0_r in Heq. by rewrite Heq.
Qed.

(** X2: the promise of [waitForRole] settles at most once, and settling is
    the last thing the loop does, also when it is the callback that threw: a
    settled run ends with its only settlement, a pending run has none. *)
Theorem waitForRole_settles_once
    (status_endpoint : string → nat → result (Response ProcessingStatus.t))
    (role_endpoint : string → result (Response RoleDetail.t))
    (roleId : string) (onStatusChange : option Callback) (pollInterval : option nat)
    (fuel : nat) :
  let w := waitForRole status_endpoint role_endpoint roleId onStatusChange pollInterval fuel in
  match w.2 with
  | Some outcome =>
      ∃ front, w.1 = front ++ [Settled outcome] ∧ Forall (λ e, is_settled e = false) front
  | None => Forall (λ e, is_settled e = false) w.1
  end.
Proof.
  simpl. unfold waitForRole. generalize (default 2000 pollInterval) as ms. intros ms.
  generalize 0 as k.
  assert (Hnote : ∀ k s, Forall (λ e, is_settled e = false) (notify onStatusChange k s).1).
  { intros k s. rewrite notify_call. destruct onStatusChange; by repeat constructor. }
  induction fuel as [|fuel IH]; intros k; [constructor|].
  rewrite poll_S.
  destruct (poll_once_cases status_endpoint roleId onStatusChange k)
    as [(st & Hst & H & Hr)|[(st & Hst & H & Hr)|[(st & Hst & H & Hr)
       |[(e & Hst)|(st & e & Hst & He)]]]].
  - rewrite (poll_once_processing _ role_endpoint _ onStatusChange ms k st Hst H Hr).
    cbn [fst snd]. specialize (IH (S k)).
    assert (Hcycle : Forall (λ e, is_settled e = false)
              (StatusPolled roleId (Ok st) :: (notify onStatusChange k processing).1
                 ++ [TimeoutSet ms])).
    { constructor; [done|]. apply Forall_app. split; [done|by repeat constructor]. }
    destruct (poll _ _ _ _ _ fuel (S k)).2 as [outcome|].
    + destruct IH as (front & -> & Hfront). eexists. rewrite app_assoc.
      split; [done|]. by apply Forall_app.
    + by apply Forall_app.
  - rewrite (poll_once_completed _ role_endpoint _ onStatusChange ms k st Hst H Hr).
    cbn [fst snd].
    eexists (StatusPolled roleId (Ok st) :: (notify onStatusChange k completed).1
               ++ [RoleFetched _ _]).
    split; [simpl; by rewrite <- app_assoc|].
    constructor; [done|]. apply Forall_app. split; [done|by repeat constructor].
  - rewrite (poll_once_failed _ role_endpoint _ onStatusChange ms k st Hst H Hr).
    cbn [fst snd]. eexists (StatusPolled roleId (Ok st) :: (notify onStatusChange k failed).1).
    split; [done|]. by constructor.
  - rewrite (poll_once_throw _ role_endpoint _ onStatusChange ms k e Hst).
    cbn [fst snd]. exists [StatusPolled roleId (Throw e)]. split; [done|by repeat constructor].
  - rewrite (poll_once_callback_throws _ role_endpoint _ onStatusChange ms k st e Hst He).
    cbn [fst snd].
    eexists (StatusPolled roleId (Ok st)
               :: (notify onStatusChange k (ProcessingStatus.status st)).1).
    split; [done|]. by constructor.
Qed.

(** X3: when the loop reaches a status request that itself fails (the fetch
    rejects, or the response is not [ok], which gives 'Failed to get role
    status'), the promise is rejected with that error, the callback is not
    called for that poll, no timer is armed after it and the grid is never
    fetched. The loop reaches its [n]-th request when the earlier ones
    answered ['processing'] and the callback (if any) returned each time. *)
Theorem waitForRole_rejects_when_poll_fails
    (status_endpoint : string → nat → result (Response ProcessingStatus.t))
    (role_endpoint : string → result (Response RoleDetail.t))
    (roleId : string) (onStatusChange : option Callback) (pollInterval : option nat)
    (n : nat) (e : exn) (fuel : nat) :
  reaches status_endpoint roleId n →
  heard onStatusChange n →
  getRoleStatus (status_endpoint roleId n) = Throw e →
  n < fuel →
  let w := waitForRole status_endpoint role_endpoint roleId onStatusChange pollInterval fuel in
  w.2 = Some (Rejected e)
  ∧ (∃ front, w.1 = front ++ [StatusPolled roleId (Throw e); Settled (Rejected e)])
  ∧ Forall (λ ev, is_fetch ev = false) w.1
  ∧ (∀ response, status_endpoint roleId n = Ok response →
       e = Error "Failed to get role status").
Proof.
  intros Hreach Hheard Hst Hfuel w.
  pose proof (poll_once_throw status_endpoint role_endpoint roleId onStatusChange
                (default 2000 pollInterval) n e Hst) as Honce.
  destruct (poll_settles status_endpoint role_endpoint roleId onStatusChange
              (default 2000 pollInterval) n fuel _ Hreach Hheard (f_equal snd Honce) Hfuel)
    as (front & Hfront & Heq).
  subst w. unfold waitForRole. rewrite Heq, Honce. cbn [fst snd].
  split; [done|]. split; [by exists front|]. split.
  - apply Forall_app. split; [done|by repeat constructor].
  - intros response Hresponse. unfold getRoleStatus, from_response in Hst.
    rewrite Hresponse in Hst. destruct (ok response); congruence.
Qed.

Lemma waitForRole_rejects_when_poll_fails_witness :
  (waitForRole StatusDown.status_endpoint Recreated.role_endpoint "role-1"
     (Some (throws_on failed)) None 4).2
  = Some (Rejected (Error "Failed to get role status")).
Proof.
  assert (Hreach : reaches StatusDown.status_endpoint "role-1" 1).
  { intros j Hj. assert (j = 0) as -> by lia. eexists. split; reflexivity. }
  exact (proj1 (waitForRole_rejects_when_poll_fails StatusDown.status_endpoint
                  Recreated.role_endpoint "role-1" (Some (throws_on failed)) None 1
                  (Error "Failed to get role status") 4 Hreach (λ j _, eq_refl) eq_refl
                  ltac:(lia))).
Defined.

(** X4: every status request of the loop is made for the supplied [roleId],
    also after a response named another identifier; and [onStatusChange],
    when given, is called with exactly the statuses the polls answered, in
    order, whether its calls return or the last one throws (it is not called
    for a poll that failed, and never when it was not given). *)
Theorem waitForRole_reports_each_status
    (status_endpoint : string → nat → result (Response ProcessingStatus.t))
    (role_endpoint : string → result (Response RoleDetail.t))
    (roleId : string) (onStatusChange : option Callback) (pollInterval : option nat)
    (fuel : nat) :
  let w := waitForRole status_endpoint role_endpoint roleId onStatusChange pollInterval fuel in
  (∀ id answer, StatusPolled id answer ∈ w.1 → id = roleId)
  ∧ reported_statuses w.1 = (if onStatusChange is Some _ then polled_statuses w.1 else []).
Proof.
  simpl. unfold waitForRole. generalize (default 2000 pollInterval) as ms. intros ms.
  generalize 0 as k. split.
  - intros id answer Hin. apply list_elem_of_split in Hin as (before & after & Hsplit).
    apply poll_suffix in Hsplit as (fuel' & j & Hsuffix).
    rewrite poll_S in Hsuffix.
    destruct (poll_once_shape status_endpoint role_endpoint roleId onStatusChange ms j)
      as (rest & Hshape & _).
    destruct (poll_once _ _ _ _ _ j) as [eff [o|]]; simpl in Hshape, Hsuffix;
      rewrite Hshape in Hsuffix; simpl in Hsuffix; congruence.
  - revert k. unfold polled_statuses, reported_statuses.
    induction fuel as [|fuel IH]; intros k; [by destruct onStatusChange|].
    rewrite poll_S.
    destruct (poll_once_cases status_endpoint roleId onStatusChange k)
      as [(st & Hst & H & Hr)|[(st & Hst & H & Hr)|[(st & Hst & H & Hr)
         |[(e & Hst)|(st & e & Hst & He)]]]].
    + rewrite (poll_once_processing _ role_endpoint _ onStatusChange ms k st Hst H Hr).
      specialize (IH (S k)). rewrite notify_call. cbn [fst snd].
      destruct onStatusChange; simpl; rewrite ?H; [f_equal|]; apply IH.
    + rewrite (poll_once_completed _ role_endpoint _ onStatusChange ms k st Hst H Hr).
      rewrite notify_call. destruct onStatusChange; simpl; by rewrite ?H.
    + rewrite (poll_once_failed _ role_endpoint _ onStatusChange ms k st Hst H Hr).
      rewrite notify_call. destruct onStatusChange; simpl; by rewrite ?H.
    + rewrite (poll_once_throw _ role_endpoint _ onStatusChange ms k e Hst).
      by destruct onStatusChange.
    + rewrite (poll_once_callback_throws _ role_endpoint _ onStatusChange ms k st e Hst He).
      rewrite notify_call. by destruct onStatusChange.
Qed.

(** ** The results view: comparing, clicking and walking the grid *)

Lemma reached_modal_ok r evs st :
  ResultsView.run (ResultsView.loaded r) evs = Ok st → modal_ok r st.
Proof.
  intros Hrun. destruct (run_ok r evs (ResultsView.loaded r)) as (st' & Hrun' & Hok).
  { by split. }
  congruence.
Qed.

(** X5: as long as no Role is stored while the modal is open, in every
    state the page reaches with the modal open [getNextLevelData] does not
    throw. At the last level it is [null] and the disabled button reads
    'Highest Level'. Below the last level it returns a listed definition of
    the next level and the same competency, with the next level's name on the
    compare button, when such a definition exists; when none exists it is
    [null] and the button reads 'No next level'. *)
Theorem getNextLevelData_compares_next_level
    (evs : list ResultsPage.Event) (st : ResultsView.State) (r : RoleDetail.t)
    (md : ResultsView.ModalData) :
  ResultsPage.modal_closed_at_loads ResultsPage.initial evs = true →
  ResultsPage.run ResultsPage.initial evs = Ok st →
  ResultsView.role st = Some r →
  ResultsView.modalData st = Some md →
  let nextLevelIdx := (ResultsView.levelIdx md + 1)%Z in
  ((js_length (RoleDetail.levels r) ≤ nextLevelIdx)%Z →
     ResultsPage.getNextLevelData st = Ok None
     ∧ ResultsPage.compare_button r st = Ok (ResultsPage.disabled_button "Highest Level"))
  ∧ ((nextLevelIdx < js_length (RoleDetail.levels r))%Z →
     ∃ level comp,
       js_index (RoleDetail.levels r) nextLevelIdx = Some level
       ∧ js_index (RoleDetail.competencies r) (ResultsView.compIdx md) = Some comp
       ∧ ((∀ def, def ∈ RoleDetail.definitions r → ¬ defines level comp def) →
          ResultsPage.getNextLevelData st = Ok None
          ∧ ResultsPage.compare_button r st = Ok (ResultsPage.disabled_button "No next level"))
       ∧ ((∃ def, def ∈ RoleDetail.definitions r ∧ defines level comp def) →
          ∃ nextDef, nextDef ∈ RoleDetail.definitions r ∧ defines level comp nextDef
            ∧ ResultsPage.getNextLevelData st = Ok (Some (nextDef, Level.name level))
            ∧ ResultsPage.compare_button r st
              = Ok (ResultsPage.compare_with (Level.name level)))).
Proof.
  intros Hclosed Hrun Hrole Hmd nextLevelIdx.
  destruct (page_run_ok evs ResultsPage.initial) as (st' & Hrun' & Hok); [by left|done|].
  assert (st' = st) as -> by congruence.
  destruct Hok as [Hnone|[r' [Hrole' Hmodal]]]; [congruence|].
  assert (r' = r) as -> by congruence.
  destruct (Hmodal md Hmd) as (_ & Hl & Hc).
  unfold ResultsPage.compare_button, ResultsPage.isAtMaxLevel, ResultsPage.getNextLevelData.
  rewrite Hmd, Hrole. fold nextLevelIdx. split.
  - intros Hlast. destruct (Z.geb_spec nextLevelIdx (js_length (RoleDetail.levels r))); [|lia].
    split; [done|]. destruct (Z.geb_spec (ResultsView.levelIdx md)
                                (js_length (RoleDetail.levels r) - 1)); [done|lia].
  - intros Hbelow.
    destruct (Z.geb_spec nextLevelIdx (js_length (RoleDetail.levels r))); [lia|].
    destruct (js_index_in_range (RoleDetail.levels r) nextLevelIdx) as (level & Hlevel & _);
      [lia|].
    destruct (js_index_in_range (RoleDetail.competencies r) (ResultsView.compIdx md))
      as (comp & Hcomp & _); [done|].
    exists level, comp. do 2 (split; [done|]).
    rewrite Hlevel, Hcomp, find_definition_found.
    pose proof (find_defines level comp (RoleDetail.definitions r)) as Hfind.
    destruct (List.find _ _) as [nextDef|].
    + destruct Hfind as [Hin Hdef]. split.
      * intros Hnone. by destruct (Hnone nextDef Hin).
      * intros _. by exists nextDef.
    + split.
      * intros _. split; [done|].
        destruct (Z.geb_spec (ResultsView.levelIdx md)
                    (js_length (RoleDetail.levels r) - 1)); [lia|done].
      * intros (def & Hin & Hdef). by destruct (Hfind def Hin).
Qed.

Lemma getNextLevelData_compares_next_level_witness :
  (ResultsPage.getNextLevelData Ladder.opened = Ok None
   ∧ ResultsPage.compare_button Ladder.role Ladder.opened
     = Ok (ResultsPage.disabled_button "Highest Level"))
  ∧ ResultsPage.compare_button Ladder.role Ladder.opened_low
    = Ok (ResultsPage.compare_with "L2").
Proof.
  split.
  - exact (proj1 (getNextLevelData_compares_next_level
                    [ResultsPage.RoleIdSet (Some "role-1") (Ok (mkResponse true Ladder.role));
                     ResultsPage.User (ResultsView.ClickCell 0 1)]
                    Ladder.opened Ladder.role _ eq_refl eq_refl eq_refl eq_refl)
             ltac:(vm_compute; discriminate)).
  - destruct (proj2 (getNextLevelData_compares_next_level
                       [ResultsPage.RoleIdSet (Some "role-1") (Ok (mkResponse true Ladder.role));
                        ResultsPage.User (ResultsView.ClickCell 0 0)]
                       Ladder.opened_low Ladder.role _ eq_refl eq_refl eq_refl eq_refl)
                ltac:(vm_compute; reflexivity))
      as (level & comp & Hlevel & Hcomp & _ & Hsome).
    vm_compute in Hlevel. injection Hlevel as <-.
    vm_compute in Hcomp. injection Hcomp as <-.
    destruct Hsome as (nextDef & _ & _ & _ & Hbutton).
    { exists Ladder.l2_scope. split; [|split; reflexivity].
      apply list_elem_of_In. simpl. tauto. }
    exact Hbutton.
Defined.

(** One press moves one step along the reading order of the grid, wrapping
    at both ends. *)
Lemma navigate_target_linear d levels competencies p :
  in_grid levels competencies p →
  let q := ResultsView.navigate_target d levels competencies p.1 p.2 in
  in_grid levels competencies q
  ∧ linear levels q = ((linear levels p + stride d) mod (levels * competencies))%Z.
Proof.
  destruct p as [l c]. unfold in_grid, linear. simpl. intros [Hl Hc].
  assert (HN : (0 < levels * competencies)%Z) by nia.
  unfold ResultsView.navigate_target. destruct d; simpl.
  - destruct (Z.ltb_spec (l - 1) 0).
    + assert (l = 0%Z) as -> by lia.
      destruct (Z.ltb_spec (c - 1) 0); simpl.
      * assert (c = 0%Z) as -> by lia. split; [lia|].
        replace (0 * levels + 0 + -1)%Z with (-1)%Z by lia.
        apply (Z.mod_unique _ _ (-1)); [left; nia|nia].
      * split; [lia|]. apply (Z.mod_unique _ _ (0)); [left; nia|nia].
    + simpl. split; [lia|]. apply (Z.mod_unique _ _ (0)); [left; nia|nia].
  - destruct (Z.geb_spec (l + 1) levels).
    + assert (l = (levels - 1)%Z) as -> by lia.
      destruct (Z.geb_spec (c + 1) competencies); simpl.
      * assert (c = (competencies - 1)%Z) as -> by lia. split; [lia|].
        apply (Z.mod_unique _ _ (1)); [left; nia|nia].
      * split; [lia|]. apply (Z.mod_unique _ _ (0)); [left; nia|nia].
    + simpl. split; [lia|]. apply (Z.mod_unique _ _ (0)); [left; nia|nia].
Qed.

Lemma linear_inj levels competencies p q :
  in_grid levels competencies p → in_grid levels competencies q →
  linear levels p = linear levels q → p = q.
Proof.
  destruct p as [l c], q as [l' c']. unfold in_grid, linear. simpl.
  intros [Hl Hc] [Hl' Hc'] Heq.
  assert (c = c') by nia. subst c'. f_equal. lia.
Qed.

Lemma linear_bounds levels competencies p :
  in_grid levels competencies p → (0 ≤ linear levels p < levels * competencies)%Z.
Proof. destruct p as [l c]. unfold in_grid, linear. simpl. intros [Hl Hc]. nia. Qed.

Lemma presses_linear d levels competencies k : ∀ p,
  in_grid levels competencies p →
  in_grid levels competencies (ResultsPage.presses d levels competencies k p)
  ∧ linear levels (ResultsPage.presses d levels competencies k p)
    = ((linear levels p + stride d * Z.of_nat k) mod (levels * competencies))%Z.
Proof.
  induction k as [|k IH]; intros p Hp.
  - split; [done|]. simpl. rewrite Z.mul_0_r, Z.add_0_r.
    symmetry. apply Z.mod_small. by eapply linear_bounds.
  - destruct (navigate_target_linear d levels competencies p Hp) as [Hq Hlin].
    destruct (IH _ Hq) as [Hr Hlin']. split; [done|].
    cbn [ResultsPage.presses]. rewrite Hlin', Hlin, Zplus_mod_idemp_l. f_equal. lia.
Qed.

Lemma js_index_elem {A : Type} (arr : list A) (i : Z) (x : A) :
  js_index arr i = Some x → x ∈ arr.
Proof.
  unfold js_index. case_decide; [|done]. intros Hx. by eapply list_elem_of_lookup_2.
Qed.

(** In a complete grid every press moves the modal to the computed target. *)
Lemma navigateModal_complete r st d md :
  modal_ok r st → ResultsView.modalData st = Some md → complete r →
  ∃ st', ResultsView.navigateModal d st = Ok st' ∧ modal_ok r st'
    ∧ ResultsPage.position st'
      = Some (ResultsView.navigate_target d (js_length (RoleDetail.levels r))
                (js_length (RoleDetail.competencies r))
                (ResultsView.levelIdx md) (ResultsView.compIdx md)).
Proof.
  intros Hok Hmd Hcomplete.
  destruct (navigateModal_find r st d md Hok Hmd) as (level & comp & Hl & Hc & Hl' & Hc' & Hnav).
  destruct (Hok) as [Hrole Hmodal]. destruct (Hmodal md Hmd) as (_ & Hlr & Hcr).
  destruct (navigate_target_wrapped d _ _ _ _ Hlr Hcr) as (Htarget & _).
  pose proof (find_defines level comp (RoleDetail.definitions r)) as Hfind.
  destruct (List.find _ _) as [newDef|].
  - eexists. split; [done|]. destruct Hfind as [Hin Hdef]. split.
    + split; [done|]. intros md' [= <-]. simpl. done.
    + unfold ResultsPage.position. simpl. rewrite Htarget. by destruct (wrapped_target _ _ _ _ _).
  - exfalso. destruct (Hcomplete level comp) as (def & Hin & Hdef).
    + by eapply js_index_elem.
    + by eapply js_index_elem.
    + by destruct (Hfind def Hin).
Qed.

Lemma navigations_complete r d k : ∀ st md,
  modal_ok r st → ResultsView.modalData st = Some md → complete r →
  ∃ st', ResultsPage.navigations d k st = Ok st' ∧ modal_ok r st'
    ∧ ResultsPage.position st'
      = Some (ResultsPage.presses d (js_length (RoleDetail.levels r))
                (js_length (RoleDetail.competencies r)) k
                (ResultsView.levelIdx md, ResultsView.compIdx md)).
Proof.
  induction k as [|k IH]; intros st md Hok Hmd Hcomplete.
  - exists st. split; [done|]. split; [done|]. unfold ResultsPage.position. by rewrite Hmd.
  - destruct (navigateModal_complete r st d md Hok Hmd Hcomplete) as (st1 & Hnav & Hok1 & Hpos).
    unfold ResultsPage.position in Hpos.
    destruct (ResultsView.modalData st1) as [md1|] eqn:Hmd1; [|done].
    destruct (IH st1 md1 Hok1 Hmd1 Hcomplete) as (st' & Hrun & Hok' & Hpos').
    exists st'. simpl. rewrite Hnav. split; [done|]. split; [done|].
    rewrite Hpos'. simpl in Hpos. injection Hpos as Hpos. by rewrite Hpos.
Qed.

(** X6: in a grid where every cell has a definition, pressing Next (or
    Previous) as many times as the grid has cells brings the modal back to
    the cell it started from, and every cell of the grid is shown after
    fewer presses than that; no press throws. *)
Theorem navigation_walks_the_whole_grid
    (r : RoleDetail.t) (evs : list ResultsView.Event) (st : ResultsView.State)
    (md : ResultsView.ModalData) (d : ResultsView.direction) :
  ResultsView.run (ResultsView.loaded r) evs = Ok st →
  ResultsView.modalData st = Some md →
  complete r →
  let levels := js_length (RoleDetail.levels r) in
  let competencies := js_length (RoleDetail.competencies r) in
  (∃ st', ResultsPage.navigations d (Z.to_nat (levels * competencies)) st = Ok st'
          ∧ ResultsPage.position st' = ResultsPage.position st)
  ∧ (∀ l c, (0 ≤ l < levels)%Z → (0 ≤ c < competencies)%Z →
       ∃ k st', k < Z.to_nat (levels * competencies)
         ∧ ResultsPage.navigations d k st = Ok st'
         ∧ ResultsPage.position st' = Some (l, c)).
Proof.
  intros Hrun Hmd Hcomplete levels competencies.
  apply reached_modal_ok in Hrun as Hok. destruct (proj2 Hok md Hmd) as (_ & Hl & Hc).
  set (p := (ResultsView.levelIdx md, ResultsView.compIdx md)).
  assert (Hp : in_grid levels competencies p) by done.
  pose proof (linear_bounds _ _ _ Hp) as Hlp.
  assert (HN : (0 < levels * competencies)%Z) by lia.
  split.
  - destruct (navigations_complete r d (Z.to_nat (levels * competencies)) st md Hok Hmd Hcomplete)
      as (st' & Hnav & _ & Hpos).
    exists st'. split; [done|]. rewrite Hpos. unfold ResultsPage.position. rewrite Hmd. simpl.
    f_equal. fold levels competencies p.
    destruct (presses_linear d levels competencies (Z.to_nat (levels * competencies)) p Hp)
      as [Hq Hlin].
    apply (linear_inj levels competencies); [done|done|].
    rewrite Hlin, Z2Nat.id, Z_mod_plus_full by lia. by apply Z.mod_small.
  - intros l c Hl' Hc'.
    assert (Hq : in_grid levels competencies (l, c)) by done.
    pose proof (linear_bounds _ _ _ Hq) as Hlq.
    set (x := ((stride d * (linear levels (l, c) - linear levels p))
                 mod (levels * competencies))%Z).
    assert (Hx : (0 ≤ x < levels * competencies)%Z) by (apply Z.mod_pos_bound; lia).
    destruct (navigations_complete r d (Z.to_nat x) st md Hok Hmd Hcomplete)
      as (st' & Hnav & _ & Hpos).
    exists (Z.to_nat x), st'. split; [lia|]. split; [done|].
    rewrite Hpos. f_equal. fold levels competencies p.
    destruct (presses_linear d levels competencies (Z.to_nat x) p Hp) as [Hr Hlin].
    apply (linear_inj levels competencies); [done|done|].
    rewrite Hlin, Z2Nat.id by lia. unfold x.
    rewrite <- Zplus_mod_idemp_r, Zmult_mod_idemp_r, Zplus_mod_idemp_r.
    replace (linear levels p + stride d * (stride d * (linear levels (l, c) - linear levels p)))%Z
      with (linear levels (l, c)) by (destruct d; simpl; lia).
    by apply Z.mod_small.
Qed.

Lemma full_ladder_complete : complete FullLadder.role.
Proof.
  intros level comp Hlevel Hcomp. simpl in Hlevel, Hcomp.
  repeat (apply elem_of_cons in Hlevel as [->|Hlevel]);
    [| |by apply not_elem_of_nil in Hlevel];
    (repeat (apply elem_of_cons in Hcomp as [->|Hcomp]);
       [| |by apply not_elem_of_nil in Hcomp]).
  - exists Ladder.l1_scope. split; [|by split]. simpl. by left.
  - exists Ladder.l1_communication. split; [|by split]. simpl. right. right. by left.
  - exists Ladder.l2_scope. split; [|by split]. simpl. right. by left.
  - exists FullLadder.l2_communication. split; [|by split]. simpl. do 3 right. by left.
Qed.

Lemma navigation_walks_the_whole_grid_witness :
  ∃ st', ResultsPage.navigations ResultsView.next 4 FullLadder.opened = Ok st'
         ∧ ResultsPage.position st' = Some (1%Z, 0%Z).
Proof.
  exact (proj1 (navigation_walks_the_whole_grid FullLadder.role [ResultsView.ClickCell 0 1]
                  FullLadder.opened _ ResultsView.next eq_refl eq_refl full_ladder_complete)).
Defined.

Lemma find_first {A : Type} (f : A → bool) (l : list A) (x : A) :
  List.find f l = Some x →
  ∃ before after, l = before ++ x :: after ∧ f x = true ∧ Forall (λ y, f y = false) before.
Proof.
  induction l as [|y l IH]; [done|]. simpl. destruct (f y) eqn:Hy.
  - intros [= ->]. by exists [], l.
  - intros Hfind. destruct (IH Hfind) as (before & after & -> & Hx & Hbefore).
    exists (y :: before), after. split; [done|]. split; [done|]. by constructor.
Qed.

(** X7: a navigation that changes the modal shows the first definition, in
    the order of the Role's list, that has the level and competency of the
    new cell: no earlier definition of the list has them. The grid cell at
    that position opens, on a click, the last definition of the list that has
    the cell's map key; the two differ when the list holds more than one
    definition for the cell. *)
Theorem navigateModal_shows_first_definition
    (r : RoleDetail.t) (evs : list ResultsView.Event) (st st' : ResultsView.State)
    (md' : ResultsView.ModalData) (d : ResultsView.direction) :
  ResultsView.run (ResultsView.loaded r) evs = Ok st →
  ResultsView.navigateModal d st = Ok st' →
  st' ≠ st →
  ResultsView.modalData st' = Some md' →
  ∃ level comp before after,
    js_index (RoleDetail.levels r) (ResultsView.levelIdx md') = Some level
    ∧ js_index (RoleDetail.competencies r) (ResultsView.compIdx md') = Some comp
    ∧ defines level comp (ResultsView.definition md')
    ∧ RoleDetail.definitions r = before ++ ResultsView.definition md' :: after
    ∧ Forall (λ def, ¬ defines level comp def) before
    ∧ ∃ cell shown,
        ResultsView.grid_cell_at r (Z.to_nat (ResultsView.compIdx md'))
          (Z.to_nat (ResultsView.levelIdx md')) = Some cell
        ∧ last (filter (λ def, ResultsView.definition_key
                                 (DefinitionWithExamples.level_id def)
                                 (DefinitionWithExamples.competency_id def)
                               = ResultsView.definition_key (Level.id level) (Competency.id comp))
                       (RoleDetail.definitions r)) = Some shown
        ∧ ResultsView.on_click cell
          = Some (ResultsView.mkModalData shown (ResultsView.levelName md')
                    (ResultsView.competencyName md') (ResultsView.levelIdx md')
                    (ResultsView.compIdx md')).
Proof.
  intros Hrun Hnav Hmoved Hmd'. apply reached_modal_ok in Hrun as Hok.
  destruct (ResultsView.modalData st) as [md|] eqn:Hmd.
  2:{ unfold ResultsView.navigateModal in Hnav. rewrite Hmd in Hnav. congruence. }
  destruct (navigateModal_find r st d md Hok Hmd)
    as (level & comp & Hl & Hc & Hlrange & Hcrange & Hfind).
  rewrite Hnav in Hfind.
  destruct (List.find _ _) as [newDef|] eqn:Hfound; [|congruence].
  injection Hfind as ->. simpl in Hmd'. injection Hmd' as <-. simpl.
  exists level, comp.
  apply find_first in Hfound as (before & after & Hsplit & Hdef & Hbefore).
  apply bool_decide_eq_true in Hdef.
  exists before, after. do 2 (split; [done|]).
  split; [done|]. split; [done|]. split.
  { eapply Forall_impl; [exact Hbefore|]. intros def Hno. simpl in Hno.
    by apply bool_decide_eq_false in Hno. }
  set (t := wrapped_target d _ _ _ _) in *.
  unfold js_index in Hl, Hc. rewrite decide_True in Hl by lia. rewrite decide_True in Hc by lia.
  unfold ResultsView.grid_cell_at, ResultsView.render_grid.
  rewrite list_lookup_imap, Hc. simpl. rewrite list_lookup_imap, Hl. simpl.
  unfold ResultsView.render_cell. rewrite lookup_definitionMap.
  destruct (last _) as [shown|] eqn:Hlast.
  - eexists _, shown. split; [done|]. split; [done|]. simpl.
    by rewrite !Z2Nat.id by lia.
  - exfalso. apply last_None in Hlast.
    assert (Hin : newDef ∈ filter
              (λ def, ResultsView.definition_key (DefinitionWithExamples.level_id def)
                        (DefinitionWithExamples.competency_id def)
                      = ResultsView.definition_key (Level.id level) (Competency.id comp))
              (RoleDetail.definitions r)).
    { apply list_elem_of_filter. destruct Hdef as [-> ->]. split; [done|].
      rewrite Hsplit. apply elem_of_app. right. by left. }
    rewrite Hlast in Hin. by apply not_elem_of_nil in Hin.
Qed.

Lemma navigateModal_shows_first_definition_witness :
  (∃ before after,
     RoleDetail.definitions Revised.role = before ++ Ladder.l1_communication :: after
     ∧ Forall (λ def, ¬ defines Ladder.l1 Ladder.communication def) before)
  ∧ (∃ cell,
       ResultsView.grid_cell_at Revised.role 1 0 = Some cell
       ∧ ResultsView.on_click cell
         = Some (ResultsView.mkModalData Revised.l1_communication_revised
                   "L1" "Communication" 0 1))
  ∧ Revised.l1_communication_revised ≠ Ladder.l1_communication.
Proof.
  destruct (navigateModal_shows_first_definition Revised.role [ResultsView.ClickCell 0 1]
              Revised.opened
              (ResultsView.mkState (Some Revised.role) false None
                 (Some (ResultsView.mkModalData Ladder.l1_communication "L1" "Communication"
                          0 1)) false)
              _ ResultsView.next eq_refl eq_refl ltac:(discriminate) eq_refl)
    as (level & comp & before & after & Hl & Hc & _ & Hsplit & Hbefore
        & cell & shown & Hcell & Hlast & Hclick).
  vm_compute in Hl. injection Hl as <-.
  vm_compute in Hc. injection Hc as <-.
  vm_compute in Hlast. injection Hlast as <-.
  split; [exists before, after; split; [exact Hsplit|exact Hbefore]|].
  split; [exists cell; split; [exact Hcell|exact Hclick]|].
  discriminate.
Defined.

Lemma navigate_target_back d levels competencies p :
  in_grid levels competencies p →
  let q := ResultsView.navigate_target d levels competencies p.1 p.2 in
  ResultsView.navigate_target (ResultsPage.opposite d) levels competencies q.1 q.2 = p.
Proof.
  intros Hp q.
  destruct (navigate_target_linear d levels competencies p Hp) as [Hq Hlin]. fold q in Hq, Hlin.
  destruct (navigate_target_linear (ResultsPage.opposite d) levels competencies q Hq)
    as [Hback Hlin'].
  apply (linear_inj levels competencies); [done|done|].
  pose proof (linear_bounds _ _ _ Hp) as Hlp.
  rewrite Hlin', Hlin, Zplus_mod_idemp_l.
  replace (linear levels p + stride d + stride (ResultsPage.opposite d))%Z
    with (linear levels p) by (destruct d; simpl; lia).
  by apply Z.mod_small.
Qed.

(** X8: Previous undoes Next and Next undoes Previous. If a press moved the
    modal away from a cell whose level and competency have a definition, the
    opposite press brings the modal back to that cell and shows a definition
    of that level and competency. *)
Theorem navigation_there_and_back
    (r : RoleDetail.t) (evs : list ResultsView.Event) (st st1 : ResultsView.State)
    (md : ResultsView.ModalData) (d : ResultsView.direction)
    (level : Level.t) (comp : Competency.t) :
  ResultsView.run (ResultsView.loaded r) evs = Ok st →
  ResultsView.modalData st = Some md →
  js_index (RoleDetail.levels r) (ResultsView.levelIdx md) = Some level →
  js_index (RoleDetail.competencies r) (ResultsView.compIdx md) = Some comp →
  (∃ def, def ∈ RoleDetail.definitions r ∧ defines level comp def) →
  ResultsView.navigateModal d st = Ok st1 →
  ResultsPage.position st1 ≠ ResultsPage.position st →
  ∃ st2 md2,
    ResultsView.navigateModal (ResultsPage.opposite d) st1 = Ok st2
    ∧ ResultsView.modalData st2 = Some md2
    ∧ ResultsPage.position st2 = ResultsPage.position st
    ∧ defines level comp (ResultsView.definition md2).
Proof.
  intros Hrun Hmd Hlevel Hcomp Hdefined Hnav Hmoved.
  apply reached_modal_ok in Hrun as Hok. destruct (proj2 Hok md Hmd) as (_ & Hl & Hc).
  destruct (navigateModal_ok r st d Hok) as (st1' & Hnav' & Hok1).
  assert (st1' = st1) as -> by congruence.
  destruct (navigateModal_find r st d md Hok Hmd) as (tl & tc & _ & _ & _ & _ & Hfind).
  rewrite Hnav in Hfind.
  destruct (List.find _ _) as [newDef|]; [|congruence].
  injection Hfind as ->.
  destruct (navigate_target_wrapped d _ _ _ _ Hl Hc) as (Htarget & _).
  set (p := (ResultsView.levelIdx md, ResultsView.compIdx md)).
  pose proof (navigate_target_back d _ _ p (conj Hl Hc)) as Hback. simpl in Hback.
  rewrite Htarget in Hback.
  match goal with
  | |- ∃ st2 md2, ResultsView.navigateModal _ ?s = _ ∧ _ =>
      destruct (navigateModal_find r s (ResultsPage.opposite d) _ Hok1 eq_refl)
        as (bl & bc & Hbl & Hbc & _ & _ & Hfind')
  end.
  simpl in Hbl, Hbc, Hfind'.
  destruct (navigate_target_wrapped d _ _ _ _ Hl Hc) as (_ & Hwl & Hwc).
  destruct (navigate_target_wrapped (ResultsPage.opposite d) _ _ _ _ Hwl Hwc) as (Hback' & _).
  rewrite <- Hback', Hback in Hbl, Hbc, Hfind'. simpl in Hbl, Hbc, Hfind'.
  assert (bl = level) as -> by congruence. assert (bc = comp) as -> by congruence.
  rewrite Hfind'.
  pose proof (find_defines level comp (RoleDetail.definitions r)) as Hfound.
  destruct (List.find _ _) as [backDef|].
  - eexists _, _. split; [done|]. split; [done|].
    split; [|by destruct Hfound]. unfold ResultsPage.position. by rewrite Hmd.
  - destruct Hdefined as (def & Hin & Hdef). by destruct (Hfound def Hin).
Qed.

Lemma navigation_there_and_back_witness :
  ∃ st2 md2,
    ResultsView.navigateModal ResultsView.prev
      (ResultsView.mkState (Some Ladder.role) false None
         (Some (ResultsView.mkModalData Ladder.l1_communication "L1" "Communication" 0 1))
         false) = Ok st2
    ∧ ResultsView.modalData st2 = Some md2
    ∧ ResultsPage.position st2 = Some (1%Z, 0%Z)
    ∧ defines Ladder.l2 Ladder.scope (ResultsView.definition md2).
Proof.
  refine (navigation_there_and_back Ladder.role [ResultsView.ClickCell 0 1] Ladder.opened
           _ _ ResultsView.next Ladder.l2 Ladder.scope
           eq_refl eq_refl eq_refl eq_refl _ eq_refl _).
  - exists Ladder.l2_scope. split; [|split; reflexivity].
    apply list_elem_of_In. simpl. tauto.
  - discriminate.
Defined.

(** X9: what a click on a grid cell does. A cell that shows 'No data' has no
    click action: the state is left as it is. A cell that shows a requirement
    opens the modal, in single view, on a listed definition whose text is the
    requirement shown, with the names of the cell's level and competency and
    the cell's indices; its examples hint is the number of that definition's
    examples, and is absent when there are none. *)
Theorem click_opens_what_the_cell_shows
    (r : RoleDetail.t) (row column : nat) (comp : Competency.t) (level : Level.t)
    (st : ResultsView.State) :
  RoleDetail.competencies r !! row = Some comp →
  RoleDetail.levels r !! column = Some level →
  ResultsView.role st = Some r →
  ∃ cell, ResultsView.grid_cell_at r row column = Some cell
    ∧ match ResultsView.content cell with
      | ResultsView.no_data =>
          ResultsView.step st (ResultsView.ClickCell row column) = Ok st
      | ResultsView.cell_requirement text hint =>
          ∃ def, def ∈ RoleDetail.definitions r
            ∧ DefinitionWithExamples.definition def = text
            ∧ hint = (match DefinitionWithExamples.examples def with
                      | [] => None
                      | examples => Some (length examples)
                      end)
            ∧ ResultsView.step st (ResultsView.ClickCell row column)
              = Ok (ResultsView.mkState (Some r) (ResultsView.loading st) (ResultsView.error st)
                      (Some (ResultsView.mkModalData def (Level.name level)
                               (Competency.name comp) (Z.of_nat column) (Z.of_nat row)))
                      false)
      end.
Proof.
  intros Hcomp Hlevel Hrole.
  assert (Hcell : ResultsView.grid_cell_at r row column
            = Some (ResultsView.render_cell (ResultsView.definitionMap (RoleDetail.definitions r))
                      row comp column level)).
  { unfold ResultsView.grid_cell_at, ResultsView.render_grid.
    rewrite list_lookup_imap, Hcomp. simpl. by rewrite list_lookup_imap, Hlevel. }
  eexists. split; [exact Hcell|].
  unfold ResultsView.step. rewrite Hrole, Hcell.
  pose proof (λ md, grid_cell_on_click r row column _ md Hcell) as Hclick.
  unfold ResultsView.render_cell in *.
  destruct (ResultsView.definitionMap _ !! _) as [def|] eqn:Hlookup; [|done]. simpl.
  exists def. destruct (Hclick _ eq_refl) as (Hin & _).
  split; [done|]. split; [done|].
  split; [|unfold ResultsView.openModal; simpl; by rewrite Hrole].
  by destruct (DefinitionWithExamples.examples def).
Qed.

Lemma click_opens_what_the_cell_shows_witness :
  ∃ cell, ResultsView.grid_cell_at Ladder.role 1 1 = Some cell
    ∧ match ResultsView.content cell with
      | ResultsView.no_data =>
          ResultsView.step (ResultsView.loaded Ladder.role) (ResultsView.ClickCell 1 1)
          = Ok (ResultsView.loaded Ladder.role)
      | ResultsView.cell_requirement text hint => True
      end.
Proof.
  destruct (click_opens_what_the_cell_shows Ladder.role 1 1 Ladder.communication Ladder.l2
              (ResultsView.loaded Ladder.role) eq_refl eq_refl eq_refl) as (cell & Hcell & Hclick).
  exists cell. split; [exact Hcell|].
  destruct (ResultsView.content cell); [exact I|exact Hclick].
Defined.

Lemma navigateModal_compare d st st' :
  ResultsView.navigateModal d st = Ok st' →
  st' = st ∨ (ResultsView.compareMode st' = false
              ∧ is_Some (ResultsView.modalData st')).
Proof.
  unfold ResultsView.navigateModal.
  destruct (ResultsView.modalData st) as [md|]; [|intros [= <-]; by left].
  destruct (ResultsView.role st) as [r|]; [|intros [= <-]; by left].
  destruct (ResultsView.navigate_target _ _ _ _ _) as [l c].
  destruct (ResultsView.find_definition _ _ _) as [[newDef|]|e]; [|intros [= <-]; by left|done].
  destruct (js_index (RoleDetail.levels r) l), (js_index (RoleDetail.competencies r) c);
    try done.
  intros [= <-]. right. by split.
Qed.

(** X10: the comparison view is never on without an open modal: after any
    clicks, navigations, closings and compare switches on the loaded page, if
    [compareMode] is set then [modalData] is set. *)
Theorem compare_mode_needs_open_modal
    (r : RoleDetail.t) (evs : list ResultsView.Event) (st : ResultsView.State) :
  ResultsView.run (ResultsView.loaded r) evs = Ok st →
  ResultsView.compareMode st = true →
  is_Some (ResultsView.modalData st).
Proof.
  assert (Hgen : ∀ evs st0 st,
    (ResultsView.compareMode st0 = true → is_Some (ResultsView.modalData st0)) →
    ResultsView.run st0 evs = Ok st →
    ResultsView.compareMode st = true → is_Some (ResultsView.modalData st)).
  { clear. induction evs as [|ev evs IH]; intros st0 st Hinv Hrun.
    - by injection Hrun as <-.
    - simpl in Hrun. destruct (ResultsView.step st0 ev) as [st1|e] eqn:Hstep; [|done].
      apply (IH st1 st); [|done]. clear IH Hrun.
      destruct ev as [row column|d| |on]; simpl in Hstep.
      + destruct (ResultsView.role st0); [|by injection Hstep as <-].
        destruct (ResultsView.grid_cell_at _ _ _) as [cell|]; [|by injection Hstep as <-].
        destruct (ResultsView.on_click cell); injection Hstep as <-; [|done].
        unfold ResultsView.openModal. simpl. done.
      + destruct (ResultsView.compareMode st0) eqn:Hcm;
          [injection Hstep as <-; intros _; by apply Hinv|].
        apply navigateModal_compare in Hstep as [->|[_ Hopen]]; [|done].
        by rewrite Hcm.
      + by injection Hstep as <-.
      + destruct (ResultsView.modalData st0) eqn:Hmd; injection Hstep as <-; simpl.
        * done.
        * intros Hcm. rewrite Hmd. by apply Hinv. }
  intros Hrun. by apply (Hgen evs (ResultsView.loaded r) st).
Qed.

Lemma compare_mode_needs_open_modal_witness :
  is_Some (ResultsView.modalData
             (ResultsView.mkState (Some Ladder.role) false None
                (Some (ResultsView.mkModalData Ladder.l2_scope "L2" "Scope" 1 0)) true)).
Proof.
  exact (compare_mode_needs_open_modal Ladder.role
           [ResultsView.ClickCell 0 1; ResultsView.SetCompareMode true]
           _ eq_refl eq_refl).
Defined.

Lemma grid_cell_without_hyphens_witness :
  ∃ cell, ResultsView.grid_cell_at Ladder.role 0 1 = Some cell
    ∧ ResultsView.content cell = ResultsView.cell_requirement "Owns a service" None.
Proof.
  exact (grid_cell_without_hyphens Ladder.role 0 1 Ladder.scope Ladder.l2
           eq_refl eq_refl eq_refl
           ltac:(intros d Hd; apply list_elem_of_In in Hd; simpl in Hd;
                 destruct Hd as [<-|[<-|[<-|[]]]]; reflexivity)).
Defined.

(** ** The results page: loading *)

(** X11: once [getRole] has answered, the results page never shows the
    spinner again: it shows the grid of the fetched Role, or the error box
    with the message of the failure ('Failed to get role' for a response that
    is not [ok]; 'Role not found' only for an empty message). Without a
    [roleId] nothing is fetched and the spinner stays. *)
Theorem results_page_after_fetch
    (role_endpoint : string → result (Response RoleDetail.t)) (id : string) :
  id ≠ EmptyString →
  let st := ResultsPage.fetchRole role_endpoint (Some id) ResultsPage.initial in
  ResultsPage.view st ≠ ResultsPage.loading_container
  ∧ (∀ data, getRole (role_endpoint id) = Ok data →
       ResultsPage.view st
       = ResultsPage.results_page (RoleDetail.name data +:+ " Leveling Guide")
           (ResultsView.render_grid data))
  ∧ (∀ err, getRole (role_endpoint id) = Throw err →
       ResultsPage.view st
       = ResultsPage.error_container
           (if decide (exn_message err = EmptyString) then "Role not found"
            else exn_message err))
  ∧ (∀ response, role_endpoint id = Ok response → ok response = false →
       ResultsPage.view st = ResultsPage.error_container "Failed to get role")
  ∧ ResultsPage.view (ResultsPage.fetchRole role_endpoint None ResultsPage.initial)
    = ResultsPage.loading_container
  ∧ ResultsPage.view (ResultsPage.fetchRole role_endpoint (Some EmptyString) ResultsPage.initial)
    = ResultsPage.loading_container.
Proof.
  intros Hid st. subst st. unfold ResultsPage.fetchRole. rewrite decide_False by done.
  split; [|split; [|split; [|split; [|done]]]].
  - by destruct (getRole (role_endpoint id)).
  - by intros data ->.
  - intros err ->. unfold ResultsPage.view. simpl. by destruct (decide _).
  - intros response Hresponse Hok. unfold getRole, from_response.
    by rewrite Hresponse, Hok.
Qed.

Lemma results_page_after_fetch_witness :
  ResultsPage.view (ResultsPage.fetchRole GridUnavailable.role_endpoint (Some "role-1")
                      ResultsPage.initial)
  = ResultsPage.error_container "Failed to get role".
Proof.
  exact (proj1 (proj2 (proj2 (proj2 (results_page_after_fetch GridUnavailable.role_endpoint
           "role-1" ltac:(discriminate))))) _ eq_refl eq_refl).
Defined.

(** ** The upload form: what an upload leads to *)

(** X12: when the upload is accepted and the polls of [waitForRole] reach a
    ['completed'] answer whose grid fetch succeeds, [doUpload] navigates to
    the page of the fetched Role, [/role/<id of the grid>], which is the new
    Role when the status named another identifier; two requests were sent by
    the form itself, the upload and the wait. *)
Theorem doUpload_navigates_to_completed_role
    (net : UploadForm.Network) (fuel : nat) (st : UploadForm.State)
    (role : Role.t) (n : nat) (status : ProcessingStatus.t) (grid : RoleDetail.t) :
  createRole (UploadForm.create_endpoint net (UploadForm.file st) (UploadForm.companyUrl st)
                (UploadForm.roleName st)) = Ok role →
  reaches (UploadForm.status_endpoint net) (Role.id role) n →
  getRoleStatus (UploadForm.status_endpoint net (Role.id role) n) = Ok status →
  ProcessingStatus.status status = completed →
  getRole (UploadForm.role_endpoint net
             (js_or (ProcessingStatus.role_id status) (Role.id role))) = Ok grid →
  n < fuel →
  UploadForm.doUpload net fuel st
  = (UploadForm.mkState (UploadForm.companyUrl st) (UploadForm.roleName st)
       (UploadForm.file st) UploadForm.Status.processing None false
       (UploadForm.existingRoleDate st) (Some ("/role/" +:+ RoleDetail.id grid)),
     [UploadForm.CreateRole (UploadForm.file st) (UploadForm.companyUrl st)
        (UploadForm.roleName st);
      UploadForm.WaitForRole (Role.id role)]).
Proof.
  intros Hcreated Hreach Hstatus Hcompleted Hgrid Hfuel.
  unfold UploadForm.doUpload. rewrite Hcreated.
  pose proof (poll_once_completed (UploadForm.status_endpoint net) (UploadForm.role_endpoint net)
                (Role.id role) (Some UploadForm.log_status) 2000 n status Hstatus Hcompleted
                eq_refl) as Honce.
  simpl in Honce. rewrite Hgrid in Honce.
  destruct (poll_settles (UploadForm.status_endpoint net) (UploadForm.role_endpoint net)
              (Role.id role) (Some UploadForm.log_status) 2000 n fuel _ Hreach
              (λ j _, eq_refl) (f_equal snd Honce) Hfuel)
    as (front & _ & Heq).
  unfold waitForRole. simpl. by rewrite Heq.
Qed.

Lemma doUpload_navigates_to_completed_role_witness :
  UploadForm.navigated (UploadForm.doUpload CheckDown.net 3 CheckDown.form).1
  = Some "/role/role-2".
Proof.
  assert (Hreach : reaches (UploadForm.status_endpoint CheckDown.net) "role-2" 1).
  { intros j Hj. assert (j = 0) as -> by lia. eexists. split; reflexivity. }
  exact (f_equal (λ result, UploadForm.navigated result.1)
           (doUpload_navigates_to_completed_role CheckDown.net 3 CheckDown.form
              _ 1 (ProcessingStatus.mk (Some "role-2") completed None) (empty_grid "role-2")
              eq_refl Hreach eq_refl eq_refl eq_refl ltac:(lia))).
Defined.

(** X13: how an upload fails. If [POST /roles] is refused, the form shows the
    [detail] of the response, or 'Failed to create role' without one, and
    nothing is polled. If the upload is accepted and the polls reach a
    ['failed'] answer, the form shows that answer's message, or 'Role
    processing failed' without one. In both cases the status is ['error'],
    the overwrite prompt is closed and the form does not navigate. *)
Theorem doUpload_reports_failure
    (net : UploadForm.Network) (fuel : nat) (st : UploadForm.State) :
  let failed_with message sent :=
    UploadForm.doUpload net fuel st
    = (UploadForm.mkState (UploadForm.companyUrl st) (UploadForm.roleName st)
         (UploadForm.file st) UploadForm.Status.error (Some message) false
         (UploadForm.existingRoleDate st) (UploadForm.navigated st),
       UploadForm.CreateRole (UploadForm.file st) (UploadForm.companyUrl st)
         (UploadForm.roleName st) :: sent) in
  (∀ detail,
     UploadForm.create_endpoint net (UploadForm.file st) (UploadForm.companyUrl st)
       (UploadForm.roleName st) = Ok (NotOk detail) →
     failed_with (js_or detail "Failed to create role") [])
  ∧ (∀ role n status,
       createRole (UploadForm.create_endpoint net (UploadForm.file st)
                     (UploadForm.companyUrl st) (UploadForm.roleName st)) = Ok role →
       reaches (UploadForm.status_endpoint net) (Role.id role) n →
       getRoleStatus (UploadForm.status_endpoint net (Role.id role) n) = Ok status →
       ProcessingStatus.status status = failed →
       n < fuel →
       failed_with (js_or (ProcessingStatus.message status) "Role processing failed")
         [UploadForm.WaitForRole (Role.id role)]).
Proof.
  simpl. split.
  - intros detail Hrefused. unfold UploadForm.doUpload. by rewrite Hrefused.
  - intros role n status Hcreated Hreach Hstatus Hfailed Hfuel.
    unfold UploadForm.doUpload. rewrite Hcreated.
    pose proof (poll_once_failed (UploadForm.status_endpoint net) (UploadForm.role_endpoint net)
                  (Role.id role) (Some UploadForm.log_status) 2000 n status Hstatus Hfailed
                  eq_refl) as Honce.
    simpl in Honce.
    destruct (poll_settles (UploadForm.status_endpoint net) (UploadForm.role_endpoint net)
                (Role.id role) (Some UploadForm.log_status) 2000 n fuel _ Hreach
                (λ j _, eq_refl) (f_equal snd Honce) Hfuel)
      as (front & _ & Heq).
    unfold waitForRole. simpl. by rewrite Heq.
Qed.

(** X14: the submit button and [handleSubmit] agree, and a submit cannot be
    repeated while it is being handled. When the button is enabled, the
    submit passes the prerequisite test and its first request is the
    existence check. After a submit with all prerequisites present the button
    is disabled (the prompt is shown, or the upload is under way) unless the
    upload has failed. *)
Theorem submit_button_guards_handleSubmit
    (net : UploadForm.Network) (fuel : nat) (st : UploadForm.State) :
  (UploadControls.submit_disabled st = false →
     ∃ sent, (UploadForm.handleSubmit net fuel st).2
             = UploadForm.CheckRoleExists (UploadForm.roleName st) :: sent)
  ∧ (UploadForm.file st ≠ None → UploadForm.companyUrl st ≠ EmptyString →
     UploadForm.roleName st ≠ EmptyString →
     UploadControls.submit_disabled (UploadForm.handleSubmit net fuel st).1 = true
     ∨ UploadForm.status (UploadForm.handleSubmit net fuel st).1 = UploadForm.Status.error).
Proof.
  split.
  - unfold UploadControls.submit_disabled. rewrite !orb_false_iff.
    intros ((((_ & Hf) & Hu) & Hn) & _).
    unfold UploadForm.handleSubmit. rewrite Hf, Hu, Hn. simpl.
    destruct (checkRoleExists _) as [check|e].
    + destruct (RoleExistsCheck.exists_ check); [by eexists|].
      destruct (UploadForm.doUpload net fuel st). by eexists.
    + destruct (UploadForm.doUpload net fuel st). by eexists.
  - intros Hf Hu Hn. unfold UploadForm.handleSubmit.
    rewrite !bool_decide_eq_false_2 by done. simpl.
    assert (Hupload :
      UploadControls.submit_disabled (UploadForm.doUpload net fuel st).1 = true
      ∨ UploadForm.status (UploadForm.doUpload net fuel st).1 = UploadForm.Status.error).
    { unfold UploadForm.doUpload. destruct (createRole _); [|by right].
      destruct (waitForRole _ _ _ _ _ _).2 as [[]|]; first [by left|by right]. }
    destruct (checkRoleExists _) as [check|e].
    + destruct (RoleExistsCheck.exists_ check).
      * left. unfold UploadControls.submit_disabled. simpl. by rewrite !orb_true_r.
      * by destruct (UploadForm.doUpload net fuel st).
    + by destruct (UploadForm.doUpload net fuel st).
Qed.

Lemma run_edits_keep_prompt net fuel evs : ∀ st,
  Forall (λ ev, is_edit ev = true) evs →
  (UploadForm.run net fuel st evs).2 = []
  ∧ UploadForm.showConfirmOverwrite (UploadForm.run net fuel st evs).1
    = UploadForm.showConfirmOverwrite st.
Proof.
  induction evs as [|ev evs IH]; intros st Hedits; [done|].
  apply Forall_cons in Hedits as [Hev Hedits]. simpl.
  destruct (UploadForm.step net fuel st ev) as [st1 sent] eqn:Hstep.
  destruct (IH st1 Hedits) as [Hsent Hprompt].
  destruct (UploadForm.run net fuel st1 evs) as [st2 later]. simpl in *. subst later.
  rewrite Hprompt.
  destruct ev as [| | |url|name|files]; try done; simpl in Hstep; injection Hstep as <- <-;
    try done.
  unfold UploadForm.onDrop. by destruct files.
Qed.

(** X15: the confirmation uploads what the fields hold when it is pressed.
    While the overwrite prompt is shown the fields can still be edited; "Yes,
    Replace It" then sends the upload with the edited values, among them a
    changed role name, and sends no new existence check. *)
Theorem confirm_uploads_current_fields
    (net : UploadForm.Network) (fuel : nat) (st : UploadForm.State)
    (edits : list UploadForm.Event) :
  UploadForm.showConfirmOverwrite st = true →
  Forall (λ ev, is_edit ev = true) edits →
  let edited := (UploadForm.run net fuel st edits).1 in
  let sent := (UploadForm.run net fuel st (edits ++ [UploadForm.ConfirmReplace])).2 in
  (∃ rest, sent = UploadForm.CreateRole (UploadForm.file edited)
                    (UploadForm.companyUrl edited) (UploadForm.roleName edited) :: rest)
  ∧ Forall (λ q, is_check q = false) sent
  ∧ (∀ name, edits = [UploadForm.ChangeRoleName name] →
       UploadForm.roleName edited = name ∧ UploadForm.file edited = UploadForm.file st
       ∧ UploadForm.companyUrl edited = UploadForm.companyUrl st).
Proof.
  intros Hprompt Hedits edited sent.
  assert (Happ : ∀ evs evs' s,
    UploadForm.run net fuel s (evs ++ evs')
    = ((UploadForm.run net fuel (UploadForm.run net fuel s evs).1 evs').1,
       (UploadForm.run net fuel s evs).2
         ++ (UploadForm.run net fuel (UploadForm.run net fuel s evs).1 evs').2)).
  { induction evs as [|ev evs IH]; intros evs' s; simpl.
    - by destruct (UploadForm.run net fuel s evs').
    - destruct (UploadForm.step net fuel s ev) as [s1 q]. rewrite IH.
      destruct (UploadForm.run net fuel s1 evs) as [s2 q2]. simpl.
      by rewrite app_assoc. }
  destruct (run_edits_keep_prompt net fuel edits st Hedits) as [Hnone Hkept].
  subst sent. rewrite Happ, Hnone. fold edited. simpl.
  fold edited in Hkept. rewrite Hkept, Hprompt.
  destruct (doUpload_sends_upload net fuel edited) as (rest & Hrest).
  destruct (UploadForm.doUpload net fuel edited) as [st' q] eqn:Hupload. simpl in *.
  rewrite app_nil_r. subst q. split; [by exists rest|]. split.
  - unfold UploadForm.doUpload in Hupload. destruct (createRole _).
    + destruct (waitForRole _ _ _ _ _ _).2 as [[]|]; injection Hupload as _ <-;
        by repeat constructor.
    + injection Hupload as _ <-. by repeat constructor.
  - intros name ->. done.
Qed.

Lemma confirm_uploads_current_fields_witness :
  ∃ rest,
    (UploadForm.run CheckUp.net 3 (UploadForm.handleSubmit CheckUp.net 3 CheckDown.form).1
       ([UploadForm.ChangeRoleName "Designer"] ++ [UploadForm.ConfirmReplace])).2
    = UploadForm.CreateRole (Some CheckDown.guide) "https://acme.example" "Designer" :: rest.
Proof.
  exact (proj1 (confirm_uploads_current_fields CheckUp.net 3
                  (UploadForm.handleSubmit CheckUp.net 3 CheckDown.form).1
                  [UploadForm.ChangeRoleName "Designer"] eq_refl
                  ltac:(repeat constructor))).
Defined.

(** ** The dashboard: requests *)

(** X16: marking a request done or dismissing it removes it from the
    manager's pending list and from nothing else: after a successful
    [handleNudgeAction] with a status other than ['pending'], the pending
    nudges are the earlier pending nudges without those of that id, in the
    same order. *)
Theorem handleNudgeAction_clears_pending
    (answer : result (Response Nudge.t)) (updated : Nudge.t) (nudgeId : string)
    (status : NudgeStatus) (st : Dashboard.State) :
  updateNudge answer = Ok updated →
  status ≠ pending →
  Dashboard.pendingNudges (Dashboard.handleNudgeAction answer nudgeId status st)
  = filter (λ n, Nudge.id n ≠ nudgeId) (Dashboard.pendingNudges st).
Proof.
  intros Hok Hstatus. unfold Dashboard.handleNudgeAction, Dashboard.pendingNudges.
  rewrite Hok. simpl.
  induction (Dashboard.nudges st) as [|n nudges IH]; [done|].
  rewrite fmap_cons, !filter_cons, IH.
  destruct (decide (Nudge.id n = nudgeId)) as [Hid|Hid]; simpl.
  - rewrite decide_False by done.
    destruct (decide (Nudge.status n = pending)); [|done].
    rewrite filter_cons, decide_False; [done|]. by intros Hne.
  - destruct (decide (Nudge.status n = pending)); [|done].
    by rewrite filter_cons, decide_True.
Qed.

Lemma handleNudgeAction_clears_pending_witness :
  Dashboard.pendingNudges
    (Dashboard.handleNudgeAction
       (Ok (mkResponse true (Dashboard.with_status dismissed (Acme.nudge "n1" "Designer"))))
       "n1" dismissed Acme.st)
  = [Acme.nudge "n2" "Engineer"].
Proof.
  exact (handleNudgeAction_clears_pending
           (Ok (mkResponse true (Dashboard.with_status dismissed (Acme.nudge "n1" "Designer"))))
           _ "n1" dismissed Acme.st eq_refl ltac:(discriminate)).
Defined.

(** X17: an employee's request. An empty level is left out of the request
    body. When the request succeeds the new nudge is put first in the list,
    the others keep their order, and the form is closed and emptied. When it
    fails the list is untouched, the error shows the [detail] of the response
    (or 'Failed to create request'), and the form stays open with what was
    typed. The roles are never touched and the submit flag ends cleared. *)
Theorem handleCreateRequest_prepends_or_keeps
    (fetched : result (Answer Nudge.t)) (st : Dashboard.State)
    (form : DashboardRequests.Form) :
  let result := DashboardRequests.handleCreateRequest fetched st form in
  let st' := result.1.1 in
  let form' := result.1.2 in
  (DashboardRequests.role_name result.2 = DashboardRequests.requestRole form
   ∧ (DashboardRequests.level_name result.2 = None
      ↔ DashboardRequests.requestLevel form = EmptyString)
   ∧ (∀ level, DashboardRequests.level_name result.2 = Some level →
               level = DashboardRequests.requestLevel form))
  ∧ Dashboard.roles st' = Dashboard.roles st
  ∧ DashboardRequests.submittingRequest form' = false
  ∧ (∀ newNudge, fetched = Ok (Body newNudge) →
       Dashboard.nudges st' = newNudge :: Dashboard.nudges st
       ∧ Dashboard.error st' = None
       ∧ form' = DashboardRequests.mkForm false EmptyString EmptyString false)
  ∧ (∀ detail, fetched = Ok (Refused detail) →
       Dashboard.nudges st' = Dashboard.nudges st
       ∧ Dashboard.error st' = Some (js_or detail "Failed to create request")
       ∧ DashboardRequests.showRequestForm form' = DashboardRequests.showRequestForm form
       ∧ DashboardRequests.requestRole form' = DashboardRequests.requestRole form
       ∧ DashboardRequests.requestLevel form' = DashboardRequests.requestLevel form).
Proof.
  simpl. unfold DashboardRequests.handleCreateRequest.
  split; [|split; [|split; [|split]]].
  - destruct (createNudge fetched); simpl; (split; [done|]);
      destruct (decide (DashboardRequests.requestLevel form = EmptyString)) as [Hl|Hl];
      (split; [by split|]); by intros level [= <-].
  - by destruct (createNudge fetched).
  - by destruct (createNudge fetched).
  - by intros newNudge ->.
  - by intros detail ->.
Qed.

(** X18: the dashboard loads its two lists together or not at all. If either
    request fails, neither list is stored, also not the one that was
    fetched, the error reads 'Failed to load data', and the page of a signed-in
    user shows the empty state; the loading flag is cleared in every case. *)
Theorem fetchData_is_all_or_nothing
    (toLocaleDateString : string → string)
    (rolesAnswer : result (Response (list Role.t)))
    (nudgesAnswer : result (Response (list Nudge.t)))
    (signed_in : User.t) (employer : Company.t) :
  let st := Dashboard.fetchData rolesAnswer nudgesAnswer Dashboard.initial in
  Dashboard.loadingData st = false
  ∧ (∀ rolesData nudgesData,
       getRoles rolesAnswer = Ok rolesData → getNudges nudgesAnswer = Ok nudgesData →
       st = Dashboard.mkState rolesData nudgesData false None)
  ∧ ((∃ e, getRoles rolesAnswer = Throw e) ∨ (∃ e, getNudges nudgesAnswer = Throw e) →
     st = Dashboard.mkState [] [] false (Some "Failed to load data")
     ∧ Dashboard.render toLocaleDateString
         (Dashboard.mkAuth (Some signed_in) (Some employer) false) st
       = Dashboard.dashboard_page (Some "Failed to load data") Dashboard.empty_state).
Proof.
  simpl. unfold Dashboard.fetchData. split; [|split].
  - by destruct (getRoles rolesAnswer), (getNudges nudgesAnswer).
  - by intros rolesData nudgesData -> ->.
  - intros [[e ->]|[e ->]]; [done|]. by destruct (getRoles rolesAnswer).
Qed.

(** ** The session *)

Lemma js_truthy_headers userId :
  getAuthHeaders userId = (if js_truthy userId then userId else None)
  ∧ (js_truthy userId = true → is_Some (getAuthHeaders userId))
  ∧ (js_truthy userId = false → getAuthHeaders userId = None).
Proof.
  unfold getAuthHeaders. destruct (js_truthy userId) eqn:Ht; repeat split; try done.
  intros _. destruct userId; [by eexists|done].
Qed.

(** X19: the session state stays consistent through any use of the provider
    ([login], [logout], [refreshAuth], in any order, from a page load).
    [isAuthenticated] is set exactly when the user and the company are both
    present. Once anything has run, loading is over and a signed-out session
    sends no [X-User-ID] header; and when every login stored a non-empty id,
    a signed-in session does send one: the header is sent exactly when the
    session is authenticated. *)
Theorem session_stays_consistent (stored : option string) (ops : list AuthContext.Op) :
  let w := provider_after stored ops in
  let s := AuthContext.state w in
  (AuthContext.isAuthenticated s = true
   ↔ is_Some (AuthContext.user s) ∧ is_Some (AuthContext.company s))
  ∧ (is_Some (AuthContext.user s) ↔ is_Some (AuthContext.company s))
  ∧ (ops ≠ [] →
     AuthContext.isLoading s = false
     ∧ (AuthContext.isAuthenticated s = false → getAuthHeaders (AuthContext.userId w) = None))
  ∧ (Forall stores_id ops →
     AuthContext.isAuthenticated s = true → is_Some (getAuthHeaders (AuthContext.userId w))).
Proof.
  simpl. unfold provider_after.
  induction ops as [|op ops IH] using rev_ind.
  { simpl. pose proof (@is_Some_None User.t). pose proof (@is_Some_None Company.t). naive_solver. }
  rewrite foldl_app. simpl.
  set (w := foldl AuthContext.apply (AuthContext.initial stored) ops) in *.
  destruct IH as (Hk & Hboth & _ & Hsent).
  pose proof (@is_Some_None User.t) as HnoU. pose proof (@is_Some_None Company.t) as HnoC.
  destruct op as [u c| |me_endpoint]; simpl.
  - split; [|split; [|split]].
    + split; [by split; eexists|done].
    + split; by eexists.
    + done.
    + intros Hids _. rewrite Forall_app, Forall_singleton in Hids. destruct Hids as [_ Hid].
      simpl in Hid. unfold getAuthHeaders, js_truthy.
      destruct (decide (User.id u = EmptyString)); [done|by eexists].
  - naive_solver.
  - unfold AuthContext.refreshAuth.
    destruct (js_truthy_headers (AuthContext.userId w)) as (_ & Hyes & Hno).
    destruct (js_truthy (AuthContext.userId w)) eqn:Ht.
    + destruct (getMe _) as [data|e]; simpl.
      * split; [|split; [|split]].
        -- split; [by split; eexists|done].
        -- split; by eexists.
        -- done.
        -- intros _ _. by apply Hyes.
      * naive_solver.
    + simpl. split; [done|]. split; [done|]. split.
      * intros _. split; [done|]. intros _. by apply Hno.
      * intros Hids Hauth. rewrite Forall_app in Hids. destruct Hids as [Hids _].
        specialize (Hsent Hids Hauth). rewrite Hno in Hsent by done. by destruct Hsent.
Qed.

Lemma provider_loaded (stored : option string) (ops : list AuthContext.Op) :
  let s := AuthContext.state (provider_after stored ops) in
  (is_Some (AuthContext.user s) ↔ is_Some (AuthContext.company s))
  ∧ (ops ≠ [] → AuthContext.isLoading s = false).
Proof.
  simpl. unfold provider_after.
  pose proof (@is_Some_None User.t) as HnoU. pose proof (@is_Some_None Company.t) as HnoC.
  induction ops as [|op ops IH] using rev_ind; [naive_solver|].
  rewrite foldl_app. simpl.
  destruct IH as (Hboth & _).
  destruct op as [u c| |me_endpoint]; simpl; [naive_solver|naive_solver|].
  unfold AuthContext.refreshAuth.
  destruct (js_truthy _); [|naive_solver].
  destruct (getMe _); naive_solver.
Qed.

(** X20: the dashboard is never left blank. After any use of the provider,
    once loading is over, either the session has a user and a company, and the
    dashboard page is drawn as soon as its data is loaded, or the dashboard
    redirects to [/login]; after a logout it always redirects. *)
Theorem dashboard_redirects_when_signed_out
    (toLocaleDateString : string → string)
    (stored : option string) (ops : list AuthContext.Op) (st : Dashboard.State) :
  ops ≠ [] →
  Dashboard.loadingData st = false →
  let auth := AuthContext.to_dashboard (provider_after stored ops) in
  ((∃ guides, Dashboard.render toLocaleDateString auth st
              = Dashboard.dashboard_page (Dashboard.error st) guides)
   ∧ DashboardRequests.redirect auth = None)
  ∨ (Dashboard.render toLocaleDateString auth st = Dashboard.nothing
     ∧ DashboardRequests.redirect auth = Some "/login").
Proof.
  intros Hops Hloaded auth.
  destruct (provider_loaded stored ops) as (Hboth & Hloading).
  specialize (Hloading Hops). subst auth.
  unfold Dashboard.render, DashboardRequests.redirect, AuthContext.to_dashboard. simpl.
  rewrite Hloading, Hloaded. simpl.
  destruct (AuthContext.user _) as [u|] eqn:Hu.
  - destruct (AuthContext.company _) as [c|] eqn:Hc.
    + left. split; [by eexists|]. by rewrite bool_decide_eq_true_2.
    + destruct (proj1 Hboth) as [? ?]; [by eexists|done].
  - right. split; [done|]. rewrite bool_decide_eq_false_2; [done|]. by intros [? ?].
Qed.

Lemma dashboard_redirects_when_signed_out_witness :
  Dashboard.render (λ date, date)
    (AuthContext.to_dashboard (provider_after (Some "u0") StaleSession.ops)) Acme.st
  = Dashboard.nothing
  ∧ DashboardRequests.redirect
      (AuthContext.to_dashboard (provider_after (Some "u0") StaleSession.ops))
    = Some "/login".
Proof.
  destruct (dashboard_redirects_when_signed_out (λ date, date) (Some "u0") StaleSession.ops
              Acme.st ltac:(discriminate) eq_refl) as [[_ Hredirect]|Hout].
  - vm_compute in Hredirect. discriminate Hredirect.
  - exact Hout.
Defined.

(** ** The login page *)

